(** * xdg-desktop-portal-wlr: process lifecycle and event-loop orchestration

    A shallow embedding of [src/core/main.c]: the single-instance guard
    ([open_pidfd], [assert_only_one_xdpw_instance]) and the daemon entry point
    ([main]: bootstrap, the three-source poll loop and the [error:] path).

    The C code talks to the kernel and to three libraries (sd-bus, wayland
    client, pipewire).  Their answers are inputs of the model; every call the
    code makes is recorded, with its arguments and its result, in a trace. *)

From Stdlib Require Import ZArith List String Ascii Bool Lia.
From Stdlib Require Import DecimalString DecimalZ Permutation.
From Equations Require Import Equations.
Import ListNotations.

Local Open Scope string_scope.
Local Open Scope list_scope.
Local Open Scope Z_scope.

(** ** System constants (Linux / glibc headers) *)

Definition EXIT_SUCCESS : Z := 0.
Definition EXIT_FAILURE : Z := 1.
Definition EWOULDBLOCK : Z := 11.
Definition EOVERFLOW : Z := 75.
Definition SIGKILL : Z := 9.
Definition SIGTERM : Z := 15.
Definition LOCK_EX : Z := 2.
Definition LOCK_NB : Z := 4.
Definition O_RDWR : Z := 2.
Definition O_CREAT : Z := 64.
Definition S_IRUSR : Z := 256.
Definition S_IWUSR : Z := 128.
Definition POLLIN : Z := 1.

(** ** C strings and byte buffers *)

(** [strlen]: the number of bytes before the first NUL. *)
Fixpoint strlen (s : string) : nat :=
  match s with
  | EmptyString => 0%nat
  | String c s' => if Ascii.eqb c Ascii.zero then 0%nat else S (strlen s')
  end.

(** Byte [i] of the object a C string occupies: its characters, then NUL. *)
Definition byte_at (s : string) (i : nat) : ascii :=
  nth i (list_ascii_of_string s) Ascii.zero.

(** Memory is a map from offsets to bytes; offsets are relative to the start
    of the object of interest and run on past its end into what lies next to
    it, as the machine's memory does. *)
Definition memory := nat -> ascii.

(** [memcpy(dst + off, src, n)]: no bound is checked, as in C. *)
Definition memcpy (dst : memory) (off : nat) (src : nat -> ascii) (n : nat) : memory :=
  fun i => if ((off <=? i) && (i <? off + n))%nat then src (i - off)%nat else dst i.

(** The C string that starts at [off]: bytes up to the first NUL, reading at
    most [fuel] bytes. *)
Fixpoint c_string (m : memory) (off fuel : nat) : string :=
  match fuel with
  | O => EmptyString
  | S fuel' =>
      if Ascii.eqb (m off) Ascii.zero then EmptyString
      else String (m off) (c_string m (S off) fuel')
  end.

(** The C string held by a string's bytes (it stops at an embedded NUL). *)
Fixpoint c_str (s : string) : string :=
  match s with
  | EmptyString => EmptyString
  | String c s' => if Ascii.eqb c Ascii.zero then EmptyString else String c (c_str s')
  end.

(** [isspace] and [isdigit] of the C locale. *)
Definition isspace (c : ascii) : bool :=
  let n := nat_of_ascii c in ((n =? 32) || ((9 <=? n) && (n <=? 13)))%nat.

Definition isdigit (c : ascii) : bool :=
  let n := nat_of_ascii c in ((48 <=? n) && (n <=? 57))%nat.

Definition digit_value (c : ascii) : Z := Z.of_nat (nat_of_ascii c) - 48.

Fixpoint atoi_digits (acc : Z) (s : string) : Z :=
  match s with
  | EmptyString => acc
  | String c s' => if isdigit c then atoi_digits (10 * acc + digit_value c) s' else acc
  end.

Fixpoint atoi_skip (s : string) : string :=
  match s with
  | EmptyString => EmptyString
  | String c s' => if isspace c then atoi_skip s' else s
  end.

(** The number a text denotes for [strtol] in base 10: leading white space, an
    optional sign, then decimal digits up to the first other character. *)
Definition decimal (s : string) : Z :=
  match atoi_skip s with
  | String "-" s' => - atoi_digits 0 s'
  | String "+" s' => atoi_digits 0 s'
  | s' => atoi_digits 0 s'
  end.

Definition LONG_MIN : Z := - 2 ^ 63.
Definition LONG_MAX : Z := 2 ^ 63 - 1.

(** [strtol(s, NULL, 10)] with a 64-bit [long]: a number outside the type is
    replaced by the nearest bound. *)
Definition strtol (s : string) : Z := Z.max LONG_MIN (Z.min LONG_MAX (decimal s)).

(** The conversion of a [long] to the 32-bit [int]: the low 32 bits, read as
    a signed number. *)
Definition int_of_long (n : Z) : Z := (n + 2 ^ 31) mod 2 ^ 32 - 2 ^ 31.

(** [atoi(s)] is [(int) strtol(s, NULL, 10)] (glibc), and its result is what
    the guard stores in a [pid_t]: the text "4294967297" gives 1. *)
Definition atoi (s : string) : Z := int_of_long (strtol s).

(** [sprintf(buf, "%d", n)]: the decimal text of [n]. *)
Definition sprintf_d (n : Z) : string :=
  DecimalString.NilZero.string_of_int (Z.to_int n).

(** ** Logging (logger.h) *)

Inductive LOGLEVEL : Type := QUIET | ERROR | WARN | INFO | DEBUG | TRACE.

(** The arguments a format string is printed with. *)
Inductive logarg : Type :=
| strerror (errnum : Z)
| spa_strerror (res : Z)
| str (s : string).

(** One [logprint] call: level, format string as written in the source,
    arguments. *)
Record logline : Type := Logline {
  log_level : LOGLEVEL;
  log_format : string;
  log_args : list logarg
}.

(** ** The kernel as the instance guard sees it *)

(** Every system call the guard makes, with its arguments and its result. *)
Inductive syscall : Type :=
| sys_open (pathname : string) (flags mode : Z) (ret : Z)
| sys_flock (fd operation : Z) (ret : Z)
| sys_read (fd : Z) (count : nat) (ret : Z)
| sys_kill (pid sig : Z)
| sys_sleep (seconds : Z)
| sys_close (fd : Z)
| sys_ftruncate (fd length : Z) (ret : Z)
| sys_write (fd : Z) (buf : string) (count : Z) (ret : Z)
| sys_fsync (fd : Z) (ret : Z).

(** What the kernel answers to one call: success with a value (the new
    descriptor for [open], the byte count for [write]; unused otherwise), or
    failure with the [errno] it sets. *)
Inductive answer : Type :=
| ok (v : N)
| fails (errnum : Z).

(** The answers to the calls of one execution of the guard's body. *)
Record answers : Type := Answers {
  on_open : answer;
  on_flock : answer;
  on_read : answer;
  on_ftruncate : answer;
  on_write : answer;
  on_fsync : answer
}.

(** The process and its surroundings.  [kernel n] holds the answers for the
    [n]-th execution of the guard's body (0 for the first, 1 for a retry);
    [opened] counts the [open] calls made so far.  [pidfile] is the content of
    the lock file, [stack] the memory that starts at [filename] in
    [open_pidfd]. *)
Record os : Type := Os {
  XDG_RUNTIME_DIR : option string;
  getpid : Z;
  kernel : nat -> answers;
  opened : nat;
  pidfile : string;
  errno : Z;
  stack : memory;
  syscalls : list syscall;
  logged : list logline
}.

Definition set_errno (e : Z) (w : os) : os :=
  Os (XDG_RUNTIME_DIR w) (getpid w) (kernel w) (opened w) (pidfile w) e
     (stack w) (syscalls w) (logged w).

Definition set_stack (m : memory) (w : os) : os :=
  Os (XDG_RUNTIME_DIR w) (getpid w) (kernel w) (opened w) (pidfile w) (errno w)
     m (syscalls w) (logged w).

Definition set_pidfile (content : string) (w : os) : os :=
  Os (XDG_RUNTIME_DIR w) (getpid w) (kernel w) (opened w) content (errno w)
     (stack w) (syscalls w) (logged w).

Definition next_attempt (w : os) : os :=
  Os (XDG_RUNTIME_DIR w) (getpid w) (kernel w) (S (opened w)) (pidfile w) (errno w)
     (stack w) (syscalls w) (logged w).

(** Record a system call at the end of the trace. *)
Definition enter (c : syscall) (w : os) : os :=
  Os (XDG_RUNTIME_DIR w) (getpid w) (kernel w) (opened w) (pidfile w) (errno w)
     (stack w) (syscalls w ++ [c]) (logged w).

Definition logprint (l : LOGLEVEL) (format : string) (args : list logarg) (w : os) : os :=
  Os (XDG_RUNTIME_DIR w) (getpid w) (kernel w) (opened w) (pidfile w) (errno w)
     (stack w) (syscalls w) (logged w ++ [Logline l format args]).

(** The answers in force for the body being executed. *)
Definition current (w : os) : answers := kernel w (Nat.pred (opened w)).

Definition open (pathname : string) (flags mode : Z) (w : os) : Z * os :=
  match on_open (kernel w (opened w)) with
  | ok fd => (Z.of_N fd, enter (sys_open pathname flags mode (Z.of_N fd)) (next_attempt w))
  | fails e => (-1, set_errno e (enter (sys_open pathname flags mode (-1)) (next_attempt w)))
  end.

Definition flock (fd operation : Z) (w : os) : Z * os :=
  match on_flock (current w) with
  | ok _ => (0, enter (sys_flock fd operation 0) w)
  | fails e => (-1, set_errno e (enter (sys_flock fd operation (-1)) w))
  end.

(** [read] on the freshly opened descriptor: the first [count] bytes of the
    file, or fewer when the file is shorter. *)
Definition read (fd : Z) (count : nat) (w : os) : Z * string * os :=
  match on_read (current w) with
  | ok _ =>
      let data := substring 0 count (pidfile w) in
      let len := Z.of_nat (String.length data) in
      (len, data, enter (sys_read fd count len) w)
  | fails e => (-1, EmptyString, set_errno e (enter (sys_read fd count (-1)) w))
  end.

(** [kill]: the call is recorded and the caller goes on.  This is what
    happens when the signal does not reach the caller, that is when [pid] is
    a positive number other than the caller's PID ([another_process], below).
    With [pid] 0, negative or the caller's own PID the signal reaches the
    caller (its process group, or itself) and SIGTERM or SIGKILL ends it;
    nothing is stated about what follows such a call. *)
Definition kill (pid sig : Z) (w : os) : os := enter (sys_kill pid sig) w.

Definition sleep (seconds : Z) (w : os) : os := enter (sys_sleep seconds) w.

Definition close (fd : Z) (w : os) : os := enter (sys_close fd) w.

Definition ftruncate (fd length : Z) (w : os) : Z * os :=
  match on_ftruncate (current w) with
  | ok _ => (0, set_pidfile (substring 0 (Z.to_nat length) (pidfile w))
                  (enter (sys_ftruncate fd length 0) w))
  | fails e => (-1, set_errno e (enter (sys_ftruncate fd length (-1)) w))
  end.

(** [write] at offset 0 (the descriptor was not read from on this path): the
    kernel takes the first [n <= count] bytes. *)
Definition write (fd : Z) (buf : string) (count : Z) (w : os) : Z * os :=
  match on_write (current w) with
  | ok n =>
      let n := Z.min (Z.of_N n) count in
      let k := Z.to_nat n in
      (n, set_pidfile (String.append (substring 0 k buf)
                         (substring k (String.length (pidfile w) - k) (pidfile w)))
            (enter (sys_write fd buf count n) w))
  | fails e => (-1, set_errno e (enter (sys_write fd buf count (-1)) w))
  end.

Definition fsync (fd : Z) (w : os) : Z * os :=
  match on_fsync (current w) with
  | ok _ => (0, enter (sys_fsync fd 0) w)
  | fails e => (-1, set_errno e (enter (sys_fsync fd (-1)) w))
  end.

(** ** The instance guard *)

Definition sizeof_filename : nat := 256.

Definition pidfdname : string := "/xdpw.pid".

(** [sizeof(pidfdname)] counts the terminating NUL. *)
Definition sizeof_pidfdname : nat := S (String.length pidfdname).

(** The directory the lock file goes to. *)
Definition lock_dir (w : os) : string :=
  match XDG_RUNTIME_DIR w with Some p => p | None => "/tmp" end.

(** [open_pidfd].  The sizes are [size_t] values; a string in memory is far
    shorter than [SIZE_MAX - 10], so the sum in the test does not wrap and
    natural numbers stand for them. *)
Definition open_pidfd (w : os) : Z * os :=
  let prefix := lock_dir w in
  let prefix_len := strlen prefix in
  if (sizeof_filename <? prefix_len + sizeof_pidfdname)%nat then
    (-1, set_errno EOVERFLOW w)
  else
    let filename := stack w in
    let filename := memcpy filename 0 (byte_at prefix) prefix_len in
    let filename := memcpy filename prefix_len (byte_at pidfdname) sizeof_pidfdname in
    open (c_string filename 0 sizeof_filename) (Z.lor O_RDWR O_CREAT) (Z.lor S_IRUSR S_IWUSR)
         (set_stack filename w).

(** The recursion of [assert_only_one_xdpw_instance] passes 0 for
    [replace_existing] and recurses only when the flag is not 0. *)
Definition retries_left (replace_existing : Z) : nat :=
  if replace_existing =? 0 then 0%nat else 1%nat.

(** [assert_only_one_xdpw_instance]. *)
Equations? assert_only_one_xdpw_instance (replace_existing : Z) (w : os) : Z * os
  by wf (retries_left replace_existing) lt :=
assert_only_one_xdpw_instance replace_existing w :=
  let '(pidfd, w) := open_pidfd w in
  if pidfd =? -1 then
    (-1, logprint ERROR "Failed to open pid file: %s\n" [strerror (errno w)] w)
  else
    let '(locked, w) := flock pidfd (Z.lor LOCK_EX LOCK_NB) w in
    if negb (locked =? 0) then
      if errno w =? EWOULDBLOCK then
        let '(len, buf, w) := read pidfd 15 w in
        if len =? -1 then
          (-1, logprint ERROR "Another instance is already running\n" [] w)
        else
          let other_inst := c_str buf in
          match Z.eq_dec replace_existing 0 with
          | right _ =>
              let other_pid := atoi other_inst in
              let w := kill other_pid SIGTERM w in
              let w := sleep 1 w in
              let w := kill other_pid SIGKILL w in
              let w := close pidfd w in
              assert_only_one_xdpw_instance 0 w
          | left _ =>
              (-1, logprint ERROR "Another instance is already running with pid %s\n"
                     [str other_inst] w)
          end
      else
        (-1, logprint ERROR "Failed to lock pid file: %s\n" [strerror (errno w)] w)
    else
      let pid := sprintf_d (getpid w) in
      let len := Z.of_nat (String.length pid) in
      let '(failed, w) :=
        let '(truncated, w) := ftruncate pidfd 0 w in
        if negb (truncated =? 0) then (true, w)
        else
          let '(written, w) := write pidfd pid len w in
          if written =? -1 then (true, w)
          else
            let '(synced, w) := fsync pidfd w in
            (negb (synced =? 0), w) in
      let w :=
        if failed then
          logprint ERROR "Failed to write to pid file: %s\n" [strerror (errno w)] w
        else w in
      (0, w).
Proof.
  unfold retries_left. destruct (Z.eqb_spec replace_existing 0); [contradiction | simpl; lia].
Qed.

(** ** xdpw.h: the shared state and the constants the header supplies *)

(** Pointers to library objects; [NULL] is 0. *)
Definition handle : Type := Z.

Definition NULL : handle := 0.

(** Members of [xdpw.h] and [logger.h] that [main] uses: the enumerators of
    the source-type and cursor-mode bitmasks, the protocol version, and the
    parser of the [--loglevel] argument. *)
Class xdpw_h : Type := Xdpw_h {
  MONITOR : Z;
  HIDDEN : Z;
  EMBEDDED : Z;
  XDP_CAST_PROTO_VER : Z;
  get_loglevel : string -> LOGLEVEL
}.

(** [struct xdpw_state], with the members [main] names.  [xdpw_sessions] is
    [None] while its links are zero (before [wl_list_init]) and holds the
    list of sessions afterwards. *)
Record xdpw_state : Type := Xdpw_state {
  bus : handle;
  wl_display : handle;
  pw_loop : handle;
  screencast_source_types : Z;
  screencast_cursor_modes : Z;
  screencast_version : Z;
  xdpw_sessions : option (list handle)
}.

(** [wl_list_init(&state.xdpw_sessions)]: the empty list. *)
Definition wl_list_init (state : xdpw_state) : xdpw_state :=
  Xdpw_state (bus state) (wl_display state) (pw_loop state)
    (screencast_source_types state) (screencast_cursor_modes state)
    (screencast_version state) (Some []).

(** ** The libraries as [main] sees them *)

Inductive event_loop_fd : Type :=
| EVENT_LOOP_DBUS
| EVENT_LOOP_WAYLAND
| EVENT_LOOP_PIPEWIRE.

Record pollfd : Type := Pollfd {
  fd : Z;
  events : Z;
  revents : Z
}.

(** [struct pollfd pollfds[3]], indexed by [enum event_loop_fd]. *)
Definition pollfd_array : Type := event_loop_fd -> pollfd.

Definition SD_BUS_NAME_REPLACE_EXISTING : Z := 1.
Definition SD_BUS_NAME_ALLOW_REPLACEMENT : Z := 2.

Definition service_name : string := "org.freedesktop.impl.portal.desktop.wlr".

Inductive stream : Type := stdout | stderr.

(** Every library call [main] makes, with its arguments and its result. *)
Inductive call : Type :=
| Xdpw_usage (to : stream)
| Init_logger (level : LOGLEVEL)
| Sd_bus_open_user (ret : Z) (new_bus : handle)
| Wl_display_connect (new_display : handle)
| Pw_init
| Pw_loop_new (new_loop : handle)
| Xdpw_screenshot_init (state : xdpw_state)
| Xdpw_screencast_init (state : xdpw_state) (output_name : option string) (ret : Z)
| Sd_bus_request_name (b : handle) (name : string) (flags : Z) (ret : Z)
| Sd_bus_get_fd (b : handle) (ret : Z)
| Wl_display_get_fd (d : handle) (ret : Z)
| Pw_loop_get_fd (l : handle) (ret : Z)
| Poll (nfds timeout : Z) (ret : Z) (dbus wayland pipewire : Z)
| Sd_bus_process (b : handle) (ret : Z)
| Wl_display_dispatch (d : handle) (ret : Z)
| Pw_loop_iterate (l : handle) (timeout : Z) (ret : Z)
| Wl_display_dispatch_pending (d : handle) (ret : Z)
| Wl_display_flush (d : handle)
| Sd_bus_flush (b : handle)
| Sd_bus_unref (b : handle)
| Pw_loop_leave (l : handle)
| Pw_loop_destroy (l : handle)
| Wl_display_disconnect (d : handle).

(** What one return of [poll] reports: its result, the [errno] of a failure,
    and the [revents] of the three descriptors. *)
Record wakeup : Type := Wakeup {
  poll_ret : Z;
  poll_errno : Z;
  ready : event_loop_fd -> Z
}.

(** What the libraries answer.  The first group is asked once, during
    bootstrap.  The lists are the results of the successive calls of the four
    operations of the loop, oldest first; a call made when its list is empty
    finds nothing to do and returns 0. *)
Record libraries : Type := Libraries {
  on_sd_bus_open_user : Z * handle;
  on_wl_display_connect : handle;
  on_pw_loop_new : handle;
  on_xdpw_screencast_init : Z;
  on_sd_bus_request_name : Z;
  on_get_fd : event_loop_fd -> Z;
  bus_work : list Z;
  display_work : list Z;
  stream_work : list Z;
  display_queue : list Z
}.

Record world : Type := World {
  host : os;
  libs : libraries;
  calls : list call
}.

Definition set_host (h : os) (w : world) : world := World h (libs w) (calls w).

Definition set_bus_work (l : list Z) (w : world) : world :=
  let e := libs w in
  World (host w)
    (Libraries (on_sd_bus_open_user e) (on_wl_display_connect e) (on_pw_loop_new e)
       (on_xdpw_screencast_init e) (on_sd_bus_request_name e) (on_get_fd e)
       l (display_work e) (stream_work e) (display_queue e))
    (calls w).

Definition set_display_work (l : list Z) (w : world) : world :=
  let e := libs w in
  World (host w)
    (Libraries (on_sd_bus_open_user e) (on_wl_display_connect e) (on_pw_loop_new e)
       (on_xdpw_screencast_init e) (on_sd_bus_request_name e) (on_get_fd e)
       (bus_work e) l (stream_work e) (display_queue e))
    (calls w).

Definition set_stream_work (l : list Z) (w : world) : world :=
  let e := libs w in
  World (host w)
    (Libraries (on_sd_bus_open_user e) (on_wl_display_connect e) (on_pw_loop_new e)
       (on_xdpw_screencast_init e) (on_sd_bus_request_name e) (on_get_fd e)
       (bus_work e) (display_work e) l (display_queue e))
    (calls w).

Definition set_display_queue (l : list Z) (w : world) : world :=
  let e := libs w in
  World (host w)
    (Libraries (on_sd_bus_open_user e) (on_wl_display_connect e) (on_pw_loop_new e)
       (on_xdpw_screencast_init e) (on_sd_bus_request_name e) (on_get_fd e)
       (bus_work e) (display_work e) (stream_work e) l)
    (calls w).

(** Record a library call at the end of the trace. *)
Definition did (c : call) (w : world) : world := World (host w) (libs w) (calls w ++ [c]).

Definition log (l : LOGLEVEL) (format : string) (args : list logarg) (w : world) : world :=
  set_host (logprint l format args (host w)) w.

(** *** Bootstrap calls *)

Definition xdpw_usage (to : stream) (rc : Z) (w : world) : Z * world :=
  (rc, did (Xdpw_usage to) w).

Definition init_logger (level : LOGLEVEL) (w : world) : world := did (Init_logger level) w.

(** [sd_bus_open_user(&bus)]: [bus] stays [NULL] when the call fails. *)
Definition sd_bus_open_user (w : world) : Z * handle * world :=
  let '(ret, b) := on_sd_bus_open_user (libs w) in
  let b := if ret <? 0 then NULL else b in
  (ret, b, did (Sd_bus_open_user ret b) w).

Definition wl_display_connect (w : world) : handle * world :=
  let d := on_wl_display_connect (libs w) in (d, did (Wl_display_connect d) w).

Definition pw_init (w : world) : world := did Pw_init w.

Definition pw_loop_new (w : world) : handle * world :=
  let l := on_pw_loop_new (libs w) in (l, did (Pw_loop_new l) w).

Definition xdpw_screenshot_init (state : xdpw_state) (w : world) : world :=
  did (Xdpw_screenshot_init state) w.

Definition xdpw_screencast_init (state : xdpw_state) (output_name : option string)
    (w : world) : Z * world :=
  let ret := on_xdpw_screencast_init (libs w) in
  (ret, did (Xdpw_screencast_init state output_name ret) w).

Definition sd_bus_request_name (b : handle) (name : string) (flags : Z) (w : world)
    : Z * world :=
  let ret := on_sd_bus_request_name (libs w) in
  (ret, did (Sd_bus_request_name b name flags ret) w).

Definition sd_bus_get_fd (b : handle) (w : world) : Z * world :=
  let ret := on_get_fd (libs w) EVENT_LOOP_DBUS in (ret, did (Sd_bus_get_fd b ret) w).

Definition wl_display_get_fd (d : handle) (w : world) : Z * world :=
  let ret := on_get_fd (libs w) EVENT_LOOP_WAYLAND in (ret, did (Wl_display_get_fd d ret) w).

Definition pw_loop_get_fd (l : handle) (w : world) : Z * world :=
  let ret := on_get_fd (libs w) EVENT_LOOP_PIPEWIRE in (ret, did (Pw_loop_get_fd l ret) w).

(** *** Release calls *)

Definition sd_bus_unref (b : handle) (w : world) : world := did (Sd_bus_unref b) w.

Definition pw_loop_leave (l : handle) (w : world) : world := did (Pw_loop_leave l) w.

Definition pw_loop_destroy (l : handle) (w : world) : world := did (Pw_loop_destroy l) w.

Definition wl_display_disconnect (d : handle) (w : world) : world :=
  did (Wl_display_disconnect d) w.

(** *** Calls of the loop *)

(** [poll(pollfds, nfds, timeout)] returning as [a] says: a success stores the
    reported [revents], a failure sets [errno] and leaves the array alone. *)
Definition poll (fds : pollfd_array) (nfds timeout : Z) (a : wakeup) (w : world)
    : Z * pollfd_array * world :=
  let w := did (Poll nfds timeout (poll_ret a) (ready a EVENT_LOOP_DBUS)
                  (ready a EVENT_LOOP_WAYLAND) (ready a EVENT_LOOP_PIPEWIRE)) w in
  if poll_ret a <? 0 then
    (poll_ret a, fds, set_host (set_errno (poll_errno a) (host w)) w)
  else
    (poll_ret a, (fun i => Pollfd (fd (fds i)) (events (fds i)) (ready a i)), w).

Definition sd_bus_process (b : handle) (w : world) : Z * world :=
  match bus_work (libs w) with
  | [] => (0, did (Sd_bus_process b 0) w)
  | ret :: rest => (ret, did (Sd_bus_process b ret) (set_bus_work rest w))
  end.

Definition wl_display_dispatch (d : handle) (w : world) : Z * world :=
  match display_work (libs w) with
  | [] => (0, did (Wl_display_dispatch d 0) w)
  | ret :: rest => (ret, did (Wl_display_dispatch d ret) (set_display_work rest w))
  end.

Definition pw_loop_iterate (l : handle) (timeout : Z) (w : world) : Z * world :=
  match stream_work (libs w) with
  | [] => (0, did (Pw_loop_iterate l timeout 0) w)
  | ret :: rest => (ret, did (Pw_loop_iterate l timeout ret) (set_stream_work rest w))
  end.

Definition wl_display_dispatch_pending (d : handle) (w : world) : Z * world :=
  match display_queue (libs w) with
  | [] => (0, did (Wl_display_dispatch_pending d 0) w)
  | ret :: rest => (ret, did (Wl_display_dispatch_pending d ret) (set_display_queue rest w))
  end.

Definition wl_display_flush (d : handle) (w : world) : world := did (Wl_display_flush d) w.

Definition sd_bus_flush (b : handle) (w : world) : world := did (Sd_bus_flush b) w.

(** ** The event loop *)

(** [do { ret = sd_bus_process(state.bus, NULL); } while (ret > 0);]
    by recursion on the results still to come ([work] is [bus_work]). *)
Fixpoint sd_bus_process_while (b : handle) (work : list Z) (w : world) : Z * world :=
  match work with
  | [] => (0, did (Sd_bus_process b 0) (set_bus_work [] w))
  | ret :: rest =>
      let w := did (Sd_bus_process b ret) (set_bus_work rest w) in
      if ret >? 0 then sd_bus_process_while b rest w else (ret, w)
  end.

Definition do_sd_bus_process (b : handle) (w : world) : Z * world :=
  sd_bus_process_while b (bus_work (libs w)) w.

(** [do { ret = wl_display_dispatch_pending(d); wl_display_flush(d); }
    while (ret > 0);] by recursion on the results still to come. *)
Fixpoint wl_display_dispatch_pending_while (d : handle) (queue : list Z) (w : world)
    : Z * world :=
  match queue with
  | [] =>
      let w := did (Wl_display_dispatch_pending d 0) (set_display_queue [] w) in
      (0, wl_display_flush d w)
  | ret :: rest =>
      let w := did (Wl_display_dispatch_pending d ret) (set_display_queue rest w) in
      let w := wl_display_flush d w in
      if ret >? 0 then wl_display_dispatch_pending_while d rest w else (ret, w)
  end.

Definition do_wl_display_dispatch_pending (d : handle) (w : world) : Z * world :=
  wl_display_dispatch_pending_while d (display_queue (libs w)) w.

(** Where control goes after a block of the loop body. *)
Inductive control : Type := fallthrough | goto_error.

Definition block : Type := world -> control * world.

Definition then_ (a b : block) : block :=
  fun w =>
    match a w with
    | (goto_error, w') => (goto_error, w')
    | (fallthrough, w') => b w'
    end.

Notation "a ;; b" := (then_ a b) (at level 61, right associativity).

(** [revents & POLLIN], as a condition. *)
Definition pollin (p : pollfd) : bool := negb (Z.land (revents p) POLLIN =? 0).

Definition on_dbus (state : xdpw_state) (pollfds : pollfd_array) : block :=
  fun w =>
    if pollin (pollfds EVENT_LOOP_DBUS) then
      let w := log TRACE "event-loop: got dbus event" [] w in
      let '(ret, w) := do_sd_bus_process (bus state) w in
      if ret <? 0 then
        (goto_error, log ERROR "sd_bus_process failed: %s" [strerror (- ret)] w)
      else (fallthrough, w)
    else (fallthrough, w).

(** The diagnostic of [on_wayland] prints [errno] as it stands. *)
Definition on_wayland (state : xdpw_state) (pollfds : pollfd_array) : block :=
  fun w =>
    if pollin (pollfds EVENT_LOOP_WAYLAND) then
      let w := log TRACE "event-loop: got wayland event" [] w in
      let '(ret, w) := wl_display_dispatch (wl_display state) w in
      if ret <? 0 then
        (goto_error,
         log ERROR "wl_display_dispatch failed: %s" [strerror (errno (host w))] w)
      else (fallthrough, w)
    else (fallthrough, w).

Definition on_pipewire (state : xdpw_state) (pollfds : pollfd_array) : block :=
  fun w =>
    if pollin (pollfds EVENT_LOOP_PIPEWIRE) then
      let w := log TRACE "event-loop: got pipewire event" [] w in
      let '(ret, w) := pw_loop_iterate (pw_loop state) 0 w in
      if ret <? 0 then
        (goto_error, log ERROR "pw_loop_iterate failed: %s" [spa_strerror ret] w)
      else (fallthrough, w)
    else (fallthrough, w).

Definition drain_and_flush (state : xdpw_state) : block :=
  fun w =>
    let '(_, w) := do_wl_display_dispatch_pending (wl_display state) w in
    (fallthrough, sd_bus_flush (bus state) w).

(** One turn of [while (1)]: [poll] returns as [a] says. *)
Definition iteration (state : xdpw_state) (pollfds : pollfd_array) (a : wakeup)
    (w : world) : control * pollfd_array * world :=
  let '(ret, pollfds, w) := poll pollfds 3 (-1) a w in
  if ret <? 0 then
    (goto_error, pollfds, log ERROR "poll failed: %s" [strerror (errno (host w))] w)
  else
    let '(c, w) :=
      (on_dbus state pollfds ;; on_wayland state pollfds ;; on_pipewire state pollfds ;;
       drain_and_flush state) w in
    (c, pollfds, w).

(** [while (1) { ... }], by recursion on the returns of [poll] still to come.
    The loop has no exit but [goto error]; when [poll] does not return any
    more the process stays blocked in it, which is [None]. *)
Fixpoint event_loop (state : xdpw_state) (pollfds : pollfd_array) (wakeups : list wakeup)
    (w : world) : option control * world :=
  match wakeups with
  | [] => (None, w)
  | a :: wakeups' =>
      match iteration state pollfds a w with
      | (goto_error, _, w') => (Some goto_error, w')
      | (fallthrough, pollfds', w') => event_loop state pollfds' wakeups' w'
      end
  end.

(** The [error:] label. *)
Definition error (b : handle) (state : xdpw_state) (w : world) : Z * world :=
  let w := sd_bus_unref b w in
  let w := pw_loop_leave (pw_loop state) w in
  let w := pw_loop_destroy (pw_loop state) w in
  let w := wl_display_disconnect (wl_display state) w in
  (EXIT_FAILURE, w).

(** ** [main] *)

(** The local variables the option loop sets. *)
Record settings : Type := Settings {
  output_name : option string;
  loglevel : LOGLEVEL;
  replace_existing : Z
}.

(** The [getopt_long] loop, by recursion on the options [getopt_long] finds
    (its result and [optarg]); at the end of the list it returns -1.  The
    result is the settings, or the stream the usage text goes to. *)
Fixpoint getopt_loop `{xdpw_h} (found : list (ascii * string)) (s : settings)
    : settings + stream :=
  match found with
  | [] => inl s
  | (c, optarg) :: rest =>
      match c with
      | "l"%char =>
          getopt_loop rest (Settings (output_name s) (get_loglevel optarg) (replace_existing s))
      | "o"%char =>
          getopt_loop rest (Settings (Some optarg) (loglevel s) (replace_existing s))
      | "r"%char =>
          getopt_loop rest (Settings (output_name s) (loglevel s) 1)
      | "h"%char => inr stdout
      | _ => inr stderr
      end
  end.

(** The initialiser of [pollfds]: the three descriptors, each polled for
    [POLLIN]; [revents] starts at 0. *)
Definition pollfds_init (state : xdpw_state) (w : world) : pollfd_array * world :=
  let '(dbus_fd, w) := sd_bus_get_fd (bus state) w in
  let '(wayland_fd, w) := wl_display_get_fd (wl_display state) w in
  let '(pipewire_fd, w) := pw_loop_get_fd (pw_loop state) w in
  ((fun i =>
      match i with
      | EVENT_LOOP_DBUS => Pollfd dbus_fd POLLIN 0
      | EVENT_LOOP_WAYLAND => Pollfd wayland_fd POLLIN 0
      | EVENT_LOOP_PIPEWIRE => Pollfd pipewire_fd POLLIN 0
      end), w).

(** [main]: [found] is what [getopt_long] finds on the command line and
    [wakeups] is how the successive [poll] calls return.  The result is the
    exit status, or [None] when the process stays in the loop. *)
Definition main `{xdpw_h} (found : list (ascii * string)) (wakeups : list wakeup)
    (w : world) : option Z * world :=
  match getopt_loop found (Settings None ERROR 0) with
  | inr stdout => let '(rc, w) := xdpw_usage stdout EXIT_SUCCESS w in (Some rc, w)
  | inr stderr => let '(rc, w) := xdpw_usage stderr EXIT_FAILURE w in (Some rc, w)
  | inl s =>
  let w := init_logger (loglevel s) w in
  let '(only, h) := assert_only_one_xdpw_instance (replace_existing s) (host w) in
  let w := set_host h w in
  if negb (only =? 0) then (Some EXIT_FAILURE, w)
  else
  let '(ret, bus, w) := sd_bus_open_user w in
  if ret <? 0 then
    (Some EXIT_FAILURE,
     log ERROR "dbus: failed to connect to user bus: %s" [strerror (- ret)] w)
  else
  let w := log DEBUG "dbus: connected" [] w in
  let '(wl_display, w) := wl_display_connect w in
  if wl_display =? NULL then
    let w := log ERROR "wayland: failed to connect to display" [] w in
    let w := sd_bus_unref bus w in
    (Some EXIT_FAILURE, w)
  else
  let w := log DEBUG "wlroots: wl_display connected" [] w in
  let w := pw_init w in
  let '(pw_loop, w) := pw_loop_new w in
  if pw_loop =? NULL then
    let w := log ERROR "pipewire: failed to create loop" [] w in
    let w := wl_display_disconnect wl_display w in
    let w := sd_bus_unref bus w in
    (Some EXIT_FAILURE, w)
  else
  let w := log DEBUG "pipewire: pw_loop created" [] w in
  let state :=
    Xdpw_state bus wl_display pw_loop
      MONITOR (Z.lor HIDDEN EMBEDDED) XDP_CAST_PROTO_VER None in
  let state := wl_list_init state in
  let w := xdpw_screenshot_init state w in
  let '(ret, w) := xdpw_screencast_init state (output_name s) w in
  if ret <? 0 then
    let w := log ERROR "xdpw: failed to initialize screencast" [] w in
    let '(rc, w) := error bus state w in (Some rc, w)
  else
  let '(ret, w) :=
    sd_bus_request_name bus service_name
      (Z.lor SD_BUS_NAME_REPLACE_EXISTING SD_BUS_NAME_ALLOW_REPLACEMENT) w in
  if ret <? 0 then
    let w := log ERROR "dbus: failed to acquire service name: %s" [strerror (- ret)] w in
    let '(rc, w) := error bus state w in (Some rc, w)
  else
  let '(pollfds, w) := pollfds_init state w in
  match event_loop state pollfds wakeups w with
  | (Some goto_error, w) => let '(rc, w) := error bus state w in (Some rc, w)
  | (_, w) => (None, w)
  end
  end.

(** ** Situations of the guard *)

(** The lock file of [w] can be opened, as descriptor [fd]: the path fits
    the buffer and [open] succeeds. *)
Definition opens (w : os) (fd : N) : Prop :=
  (strlen (lock_dir w) + sizeof_pidfdname <= sizeof_filename)%nat /\
  on_open (kernel w (opened w)) = ok fd.

(** The path [open_pidfd] builds for [w]. *)
Definition lock_path (w : os) : string := String.append (c_str (lock_dir w)) pidfdname.

(** Another process holds the lock: [flock] fails with [EWOULDBLOCK]. *)
Definition lock_held (w : os) : Prop :=
  on_flock (kernel w (opened w)) = fails EWOULDBLOCK.

(** The three calls of [open_pidfd] and [flock] and [read], as they appear in
    the trace. *)
Definition open_call (w : os) (ret : Z) : syscall :=
  sys_open (lock_path w) (Z.lor O_RDWR O_CREAT) (Z.lor S_IRUSR S_IWUSR) ret.

Definition flock_call (fd : N) (ret : Z) : syscall :=
  sys_flock (Z.of_N fd) (Z.lor LOCK_EX LOCK_NB) ret.

Definition read_call (fd : N) (ret : Z) : syscall := sys_read (Z.of_N fd) 15 ret.

(** What [read] finds in the lock file, as the C string [other_inst]. *)
Definition holder_text (w : os) : string := c_str (substring 0 15 (pidfile w)).

(** [pid] names one process, and not the caller: a signal sent to it does
    not reach the caller. *)
Definition another_process (w : os) (pid : Z) : Prop := 0 < pid /\ pid <> getpid w.

(** The two diagnostics of contention. *)
Definition already_running : logline :=
  Logline ERROR "Another instance is already running\n" [].

Definition already_running_with_pid (text : string) : logline :=
  Logline ERROR "Another instance is already running with pid %s\n" [str text].

Definition is_open (c : syscall) : bool :=
  match c with sys_open _ _ _ _ => true | _ => false end.

Definition is_kill (c : syscall) : bool :=
  match c with sys_kill _ _ => true | _ => false end.

(** The calls that change the content of a file. *)
Definition modifies_file (c : syscall) : bool :=
  match c with
  | sys_ftruncate _ _ _ | sys_write _ _ _ _ => true
  | _ => false
  end.

(** The errno of the first of [ftruncate], [write] and [fsync] that fails;
    a later one is not attempted. *)
Definition first_failure (a : answers) : option Z :=
  match on_ftruncate a with
  | fails e => Some e
  | ok _ =>
      match on_write a with
      | fails e => Some e
      | ok _ => match on_fsync a with fails e => Some e | ok _ => None end
      end
  end.

Definition failed_to_write (e : Z) : logline :=
  Logline ERROR "Failed to write to pid file: %s\n" [strerror e].

(** The calls of the PID-writing block on descriptor [fd] with the text
    [pid], for the answers [a]: [ftruncate], then [write] only if that
    succeeded, then [fsync] only if [write] succeeded too. *)
Definition pid_write_calls (fd : Z) (pid : string) (a : answers) : list syscall :=
  let len := Z.of_nat (String.length pid) in
  match on_ftruncate a with
  | fails _ => [sys_ftruncate fd 0 (-1)]
  | ok _ =>
      sys_ftruncate fd 0 0 ::
      match on_write a with
      | fails _ => [sys_write fd pid len (-1)]
      | ok n =>
          sys_write fd pid len (Z.min (Z.of_N n) len) ::
          match on_fsync a with
          | fails _ => [sys_fsync fd (-1)]
          | ok _ => [sys_fsync fd 0]
          end
      end
  end.

(** ** Example surroundings *)

Definition EIO : Z := 5.
Definition ENOSPC : Z := 28.

(** Nobody holds the lock and every call succeeds. *)
Definition granted : answers := Answers (ok 3) (ok 0) (ok 0) (ok 0) (ok 16) (ok 0).

(** Another process holds the lock. *)
Definition contended : answers :=
  Answers (ok 3) (fails EWOULDBLOCK) (ok 0) (ok 0) (ok 16) (ok 0).

(** Another process holds the lock and the lock file cannot be read. *)
Definition unreadable : answers :=
  Answers (ok 3) (fails EWOULDBLOCK) (fails EIO) (ok 0) (ok 16) (ok 0).

(** Nobody holds the lock, but the disk is full. *)
Definition disk_full : answers :=
  Answers (ok 3) (ok 0) (ok 0) (ok 0) (fails ENOSPC) (ok 0).

(** Process 4242 with [XDG_RUNTIME_DIR=/run/user/1000]; the lock file holds
    "977"; the kernel answers as [k] says. *)
Definition process (k : nat -> answers) : os :=
  Os (Some "/run/user/1000") 4242 k 0 "977" 0 (fun _ => Ascii.zero) [] [].

(** The holder goes away when it is killed: contended at first, granted on
    the retry. *)
Definition holder_exits (n : nat) : answers :=
  match n with O => contended | _ => granted end.

(** ** Reading traces of the loop *)

(** A [do ... while (ret > 0)] loop fed the results [l] sees the leading
    positive results and then the first result that is not positive, or 0 from
    the call made when nothing is left. *)
Fixpoint positive_run (l : list Z) : list Z :=
  match l with
  | ret :: rest => if ret >? 0 then ret :: positive_run rest else []
  | [] => []
  end.

Fixpoint stopper (l : list Z) : Z :=
  match l with
  | ret :: rest => if ret >? 0 then stopper rest else ret
  | [] => 0
  end.

Fixpoint remaining (l : list Z) : list Z :=
  match l with
  | ret :: rest => if ret >? 0 then remaining rest else rest
  | [] => []
  end.

Definition loop_results (l : list Z) : list Z := positive_run l ++ [stopper l].

(** The calls of the drain loop for the results [l]: each dispatch of the
    pending events is followed by a flush. *)
Definition drain_calls (d : handle) (l : list Z) : list call :=
  flat_map (fun ret => [Wl_display_dispatch_pending d ret; Wl_display_flush d]) l.

Definition is_sd_bus_process (c : call) : bool :=
  match c with Sd_bus_process _ _ => true | _ => false end.

Definition is_poll (c : call) : bool :=
  match c with Poll _ _ _ _ _ _ => true | _ => false end.

Definition is_wl_display_dispatch (c : call) : bool :=
  match c with Wl_display_dispatch _ _ => true | _ => false end.

Definition is_pw_loop_iterate (c : call) : bool :=
  match c with Pw_loop_iterate _ _ _ => true | _ => false end.

(** The per-source dispatch operations, called with the handles of [state]. *)
Definition is_dispatch (state : xdpw_state) (c : call) : bool :=
  match c with
  | Sd_bus_process b _ => b =? bus state
  | Wl_display_dispatch d _ => d =? wl_display state
  | Pw_loop_iterate l timeout _ => (l =? pw_loop state) && (timeout =? 0)
  | _ => false
  end.

(** The calls of the loop body, with the handles of [state]. *)
Definition is_loop_call (state : xdpw_state) (c : call) : bool :=
  match c with
  | Poll nfds timeout _ _ _ _ => (nfds =? 3) && (timeout =? -1)
  | Wl_display_dispatch_pending d _ | Wl_display_flush d => d =? wl_display state
  | Sd_bus_flush b => b =? bus state
  | _ => is_dispatch state c
  end.

(** The fatal conditions of the loop: [poll] failing, or a negative result of
    the bus, display or stream dispatch. *)
Definition fatal (c : call) : bool :=
  match c with
  | Poll _ _ ret _ _ _
  | Sd_bus_process _ ret
  | Wl_display_dispatch _ ret
  | Pw_loop_iterate _ _ ret => ret <? 0
  | _ => false
  end.

(** The release operations. *)
Definition is_release (c : call) : bool :=
  match c with
  | Sd_bus_unref _ | Pw_loop_leave _ | Pw_loop_destroy _ | Wl_display_disconnect _ => true
  | _ => false
  end.

(** What the [error:] path calls. *)
Definition shutdown_calls (b : handle) (state : xdpw_state) : list call :=
  [Sd_bus_unref b; Pw_loop_leave (pw_loop state); Pw_loop_destroy (pw_loop state);
   Wl_display_disconnect (wl_display state)].

(** Source [i] is ready in the turn [a]: [poll] succeeded and reported
    [POLLIN] for it. *)
Definition reported (a : wakeup) (i : event_loop_fd) : bool :=
  (0 <=? poll_ret a) && negb (Z.land (ready a i) POLLIN =? 0).

(** The [poll] call of the turn [a]. *)
Definition poll_call (a : wakeup) : call :=
  Poll 3 (-1) (poll_ret a) (ready a EVENT_LOOP_DBUS) (ready a EVENT_LOOP_WAYLAND)
    (ready a EVENT_LOOP_PIPEWIRE).

(** *** What one turn of the loop calls

    A description of the calls of [iteration] in terms of what [poll]
    reports ([a]) and of the results the libraries hold ready ([e]);
    [iteration_spec] shows it is what the code does. *)

Definition dbus_calls (state : xdpw_state) (a : wakeup) (e : libraries) : list call :=
  if reported a EVENT_LOOP_DBUS then
    map (Sd_bus_process (bus state)) (loop_results (bus_work e))
  else [].

Definition dbus_fatal (a : wakeup) (e : libraries) : bool :=
  reported a EVENT_LOOP_DBUS && (stopper (bus_work e) <? 0).

Definition wayland_calls (state : xdpw_state) (a : wakeup) (e : libraries) : list call :=
  if reported a EVENT_LOOP_WAYLAND then
    [Wl_display_dispatch (wl_display state) (hd 0 (display_work e))]
  else [].

Definition wayland_fatal (a : wakeup) (e : libraries) : bool :=
  reported a EVENT_LOOP_WAYLAND && (hd 0 (display_work e) <? 0).

Definition pipewire_calls (state : xdpw_state) (a : wakeup) (e : libraries) : list call :=
  if reported a EVENT_LOOP_PIPEWIRE then
    [Pw_loop_iterate (pw_loop state) 0 (hd 0 (stream_work e))]
  else [].

Definition pipewire_fatal (a : wakeup) (e : libraries) : bool :=
  reported a EVENT_LOOP_PIPEWIRE && (hd 0 (stream_work e) <? 0).

Definition closing_calls (state : xdpw_state) (e : libraries) : list call :=
  drain_calls (wl_display state) (loop_results (display_queue e)) ++
  [Sd_bus_flush (bus state)].

Definition turn_fatal (a : wakeup) (e : libraries) : bool :=
  (poll_ret a <? 0) || dbus_fatal a e || wayland_fatal a e || pipewire_fatal a e.

Definition turn_calls (state : xdpw_state) (a : wakeup) (e : libraries) : list call :=
  if poll_ret a <? 0 then []
  else
    dbus_calls state a e ++
    if dbus_fatal a e then []
    else
      wayland_calls state a e ++
      if wayland_fatal a e then []
      else
        pipewire_calls state a e ++
        if pipewire_fatal a e then [] else closing_calls state e.

(** *** The shapes of a run of [main] *)

(** The state [main] builds from the three handles. *)
Definition initial_state `{xdpw_h} (b d l : handle) : xdpw_state :=
  Xdpw_state b d l MONITOR (Z.lor HIDDEN EMBEDDED) XDP_CAST_PROTO_VER (Some []).

(** The calls up to the creation of the streaming loop. *)
Definition connect_calls (level : LOGLEVEL) (ret : Z) (b d l : handle) : list call :=
  [Init_logger level; Sd_bus_open_user ret b; Wl_display_connect d; Pw_init; Pw_loop_new l].

(** The calls that hand the state to the two collaborators. *)
Definition init_calls (state : xdpw_state) (name : option string) (ret : Z) : list call :=
  [Xdpw_screenshot_init state; Xdpw_screencast_init state name ret].

(** The calls between the collaborators and the loop. *)
Definition serve_calls (state : xdpw_state) (ret : Z) (fds : event_loop_fd -> Z) : list call :=
  [Sd_bus_request_name (bus state) service_name
     (Z.lor SD_BUS_NAME_REPLACE_EXISTING SD_BUS_NAME_ALLOW_REPLACEMENT) ret;
   Sd_bus_get_fd (bus state) (fds EVENT_LOOP_DBUS);
   Wl_display_get_fd (wl_display state) (fds EVENT_LOOP_WAYLAND);
   Pw_loop_get_fd (pw_loop state) (fds EVENT_LOOP_PIPEWIRE)].

(** No call of [tr] is a fatal condition of the loop. *)
Definition no_fatal (tr : list call) : Prop := existsb fatal tr = false.

(** Every call of [tr] is a call of the loop body on the handles of [state]. *)
Definition loop_calls (state : xdpw_state) (tr : list call) : Prop :=
  forallb (is_loop_call state) tr = true.

(** The exit status (or [None], for a process that stays in the loop) and the
    library calls of a run, case by case in the order of [main]. *)
Inductive run_shape `{xdpw_h} : option Z -> list call -> Prop :=
| run_help :
    run_shape (Some EXIT_SUCCESS) [Xdpw_usage stdout]
| run_bad_option :
    run_shape (Some EXIT_FAILURE) [Xdpw_usage stderr]
| run_not_alone level :
    run_shape (Some EXIT_FAILURE) [Init_logger level]
| run_no_bus level ret :
    ret < 0 ->
    run_shape (Some EXIT_FAILURE) [Init_logger level; Sd_bus_open_user ret NULL]
| run_no_display level ret b :
    0 <= ret ->
    run_shape (Some EXIT_FAILURE)
      [Init_logger level; Sd_bus_open_user ret b; Wl_display_connect NULL; Sd_bus_unref b]
| run_no_stream level ret b d :
    0 <= ret -> d <> NULL ->
    run_shape (Some EXIT_FAILURE)
      (connect_calls level ret b d NULL ++ [Wl_display_disconnect d; Sd_bus_unref b])
| run_no_screencast level ret b d l name ret' :
    0 <= ret -> d <> NULL -> l <> NULL -> ret' < 0 ->
    let state := initial_state b d l in
    run_shape (Some EXIT_FAILURE)
      (connect_calls level ret b d l ++ init_calls state name ret' ++
       shutdown_calls b state)
| run_no_name level ret b d l name ret' ret'' :
    0 <= ret -> d <> NULL -> l <> NULL -> 0 <= ret' -> ret'' < 0 ->
    let state := initial_state b d l in
    run_shape (Some EXIT_FAILURE)
      (connect_calls level ret b d l ++ init_calls state name ret' ++
       [Sd_bus_request_name b service_name
          (Z.lor SD_BUS_NAME_REPLACE_EXISTING SD_BUS_NAME_ALLOW_REPLACEMENT) ret''] ++
       shutdown_calls b state)
| run_loop_fatal level ret b d l name ret' ret'' fds tr c :
    0 <= ret -> d <> NULL -> l <> NULL -> 0 <= ret' -> 0 <= ret'' ->
    let state := initial_state b d l in
    loop_calls state (tr ++ [c]) -> no_fatal tr -> fatal c = true ->
    run_shape (Some EXIT_FAILURE)
      (connect_calls level ret b d l ++ init_calls state name ret' ++
       serve_calls state ret'' fds ++ tr ++ [c] ++ shutdown_calls b state)
| run_in_loop level ret b d l name ret' ret'' fds tr :
    0 <= ret -> d <> NULL -> l <> NULL -> 0 <= ret' -> 0 <= ret'' ->
    let state := initial_state b d l in
    loop_calls state tr -> no_fatal tr ->
    run_shape None
      (connect_calls level ret b d l ++ init_calls state name ret' ++
       serve_calls state ret'' fds ++ tr).

(** A stretch of the loop's trace that ends in a fatal call ([f] true) or has
    none ([f] false). *)
Definition stretch (state : xdpw_state) (f : bool) (tr : list call) : Prop :=
  loop_calls state tr /\
  if f then exists tr0 c, tr = tr0 ++ [c] /\ no_fatal tr0 /\ fatal c = true
  else no_fatal tr.

(** *** Example surroundings of [main] *)

(** Values for the members of the header. *)
Definition example_header : xdpw_h := Xdpw_h 1 1 2 2 (fun _ => DEBUG).

Definition example_fds (i : event_loop_fd) : Z :=
  match i with
  | EVENT_LOOP_DBUS => 5
  | EVENT_LOOP_WAYLAND => 6
  | EVENT_LOOP_PIPEWIRE => 7
  end.

(** The three connections succeed (handles 100, 200, 300); the loop finds the
    results [bus], [display], [stream] and [queue] ready for its four
    operations. *)
Definition example_libs (bus display stream queue : list Z) : libraries :=
  Libraries (0, 100) 200 300 0 0 example_fds bus display stream queue.

Definition example_world (bus display stream queue : list Z) : world :=
  World (process (fun _ => granted)) (example_libs bus display stream queue) [].

Definition example_state : xdpw_state := Xdpw_state 100 200 300 1 3 2 (Some []).

Definition example_pollfds : pollfd_array := fun i => Pollfd (example_fds i) POLLIN 0.

(** [poll] returns 1 with only the bus readable. *)
Definition bus_ready : wakeup :=
  Wakeup 1 0 (fun i => match i with EVENT_LOOP_DBUS => POLLIN | _ => 0 end).

(** [poll] fails with [EINTR]. *)
Definition poll_fails : wakeup := Wakeup (-1) 4 (fun _ => 0).

(** The states handed to the collaborators in a trace, in order. *)
Definition handed_states (tr : list call) : list xdpw_state :=
  flat_map
    (fun c =>
       match c with
       | Xdpw_screenshot_init state | Xdpw_screencast_init state _ _ => [state]
       | _ => []
       end) tr.

(** The three connections of a trace succeeded. *)
Definition all_connected (tr : list call) : Prop :=
  exists ret b d l,
    0 <= ret /\ d <> NULL /\ l <> NULL /\
    In (Sd_bus_open_user ret b) tr /\ In (Wl_display_connect d) tr /\ In (Pw_loop_new l) tr.

(** The calls [main] makes once the state is built and handed out: they take
    no state and act on the three handles of [state]. *)
Definition on_handles_of (state : xdpw_state) (c : call) : bool :=
  match c with
  | Sd_bus_request_name b _ _ _ | Sd_bus_get_fd b _ | Sd_bus_unref b => b =? bus state
  | Wl_display_get_fd d _ | Wl_display_disconnect d => d =? wl_display state
  | Pw_loop_get_fd l _ | Pw_loop_leave l | Pw_loop_destroy l => l =? pw_loop state
  | _ => is_loop_call state c
  end.

(** *** The shapes of a run of the guard *)

Definition failed_to_open (e : Z) : logline :=
  Logline ERROR "Failed to open pid file: %s\n" [strerror e].

Definition failed_to_lock (e : Z) : logline :=
  Logline ERROR "Failed to lock pid file: %s\n" [strerror e].

Definition guard_open (path : string) (ret : Z) : syscall :=
  sys_open path (Z.lor O_RDWR O_CREAT) (Z.lor S_IRUSR S_IWUSR) ret.

Definition guard_flock (fd ret : Z) : syscall := sys_flock fd (Z.lor LOCK_EX LOCK_NB) ret.

(** The calls and the diagnostic of the PID-writing block, on descriptor [fd]
    with the text [pid]: the first of the three calls to fail ends it. *)
Inductive write_shape (fd : Z) (pid : string) : list syscall -> list logline -> Prop :=
| truncate_failed e :
    write_shape fd pid [sys_ftruncate fd 0 (-1)] [failed_to_write e]
| write_failed e :
    write_shape fd pid
      [sys_ftruncate fd 0 0; sys_write fd pid (Z.of_nat (String.length pid)) (-1)]
      [failed_to_write e]
| fsync_failed n e :
    0 <= n <= Z.of_nat (String.length pid) ->
    write_shape fd pid
      [sys_ftruncate fd 0 0; sys_write fd pid (Z.of_nat (String.length pid)) n;
       sys_fsync fd (-1)]
      [failed_to_write e]
| all_written n :
    0 <= n <= Z.of_nat (String.length pid) ->
    write_shape fd pid
      [sys_ftruncate fd 0 0; sys_write fd pid (Z.of_nat (String.length pid)) n;
       sys_fsync fd 0]
      [].

(** One execution of the guard's body that does not take over: the result,
    the system calls and the diagnostics, case by case in the order of the
    code.  [flag] is [replace_existing]. *)
Inductive attempt_shape (pid : string) (flag : Z) : Z -> list syscall -> list logline -> Prop :=
| path_too_long :
    attempt_shape pid flag (-1) [] [failed_to_open EOVERFLOW]
| open_failed path e :
    attempt_shape pid flag (-1) [guard_open path (-1)] [failed_to_open e]
| lock_failed path fd e :
    e <> EWOULDBLOCK ->
    attempt_shape pid flag (-1) [guard_open path fd; guard_flock fd (-1)] [failed_to_lock e]
| holder_unreadable path fd :
    attempt_shape pid flag (-1)
      [guard_open path fd; guard_flock fd (-1); sys_read fd 15 (-1)] [already_running]
| holder_reported path fd len text :
    flag = 0 -> 0 <= len ->
    attempt_shape pid flag (-1)
      [guard_open path fd; guard_flock fd (-1); sys_read fd 15 len]
      [already_running_with_pid text]
| lock_granted path fd sc lg :
    write_shape fd pid sc lg ->
    attempt_shape pid flag 0 ([guard_open path fd; guard_flock fd 0] ++ sc) lg.

(** The calls of a takeover, up to the retry. *)
Definition takeover_calls (path : string) (fd len other_pid : Z) : list syscall :=
  [guard_open path fd; guard_flock fd (-1); sys_read fd 15 len;
   sys_kill other_pid SIGTERM; sys_sleep 1; sys_kill other_pid SIGKILL; sys_close fd].

(** A run of the guard: one execution of the body, or a takeover followed by
    one execution with the flag clear.  [text] is what the lock file holds
    for [read]. *)
Inductive guard_shape (pid text : string) (flag : Z)
    : Z -> list syscall -> list logline -> Prop :=
| single_attempt ret sc lg :
    attempt_shape pid flag ret sc lg -> guard_shape pid text flag ret sc lg
| takeover path fd len ret sc lg :
    flag <> 0 -> 0 <= len ->
    attempt_shape pid 0 ret sc lg ->
    guard_shape pid text flag ret (takeover_calls path fd len (atoi text) ++ sc) lg.

Definition is_lock_granted (c : syscall) : bool :=
  match c with sys_flock _ _ ret => ret =? 0 | _ => false end.

Definition is_close (c : syscall) : bool :=
  match c with sys_close _ => true | _ => false end.

(** The first execution of the guard's body for [w] gets the lock: [open]
    gives [fd] and [flock] is granted. *)
Definition acquires (w : os) (fd : N) : Prop :=
  opens w fd /\ exists v, on_flock (kernel w (opened w)) = ok v.

(** ... and then truncates, writes the whole text and syncs. *)
Definition writes_pid (w : os) : Prop :=
  (exists v, on_ftruncate (kernel w (opened w)) = ok v) /\
  (exists n, on_write (kernel w (opened w)) = ok n /\
             Z.of_nat (String.length (sprintf_d (getpid w))) <= Z.of_N n).

(** *** Reading the command line *)

(** The options that set a variable and let the option loop go on. *)
Definition is_setting (c : ascii) : bool :=
  match c with
  | "l"%char | "o"%char | "r"%char => true
  | _ => false
  end.

(** What one such option does to the variables. *)
Definition set_option `{xdpw_h} (c : ascii) (optarg : string) (s : settings) : settings :=
  match c with
  | "l"%char => Settings (output_name s) (get_loglevel optarg) (replace_existing s)
  | "o"%char => Settings (Some optarg) (loglevel s) (replace_existing s)
  | "r"%char => Settings (output_name s) (loglevel s) 1
  | _ => s
  end.

(** The argument of the last option [c] of the command line. *)
Definition last_arg (c : ascii) (found : list (ascii * string)) (start : option string)
    : option string :=
  fold_left (fun acc o => if Ascii.eqb (fst o) c then Some (snd o) else acc) found start.

Definition has_option (c : ascii) (found : list (ascii * string)) : bool :=
  existsb (fun o => Ascii.eqb (fst o) c) found.

(** *** Handles obtained and released *)

(** The release calls a successful acquisition calls for: the bus is
    unreferenced, the display disconnected, the streaming loop left and
    destroyed.  A failed acquisition calls for nothing. *)
Definition owes (c : call) : list call :=
  match c with
  | Sd_bus_open_user ret b => if ret <? 0 then [] else [Sd_bus_unref b]
  | Wl_display_connect d => if d =? NULL then [] else [Wl_display_disconnect d]
  | Pw_loop_new l => if l =? NULL then [] else [Pw_loop_leave l; Pw_loop_destroy l]
  | _ => []
  end.

Definition owed (tr : list call) : list call := flat_map owes tr.

Definition is_request_name (c : call) : bool :=
  match c with Sd_bus_request_name _ _ _ _ => true | _ => false end.

(** The calls that close a turn: the drain of the display queue and the two
    flushes. *)
Definition is_closing (c : call) : bool :=
  match c with
  | Wl_display_dispatch_pending _ _ | Wl_display_flush _ | Sd_bus_flush _ => true
  | _ => false
  end.

(** * Properties *)

(** ** Path construction *)

Lemma c_string_prefix (p : string) :
  forall (m : memory) (off fuel : nat),
    (forall i, (i < strlen p)%nat -> m (off + i)%nat = byte_at p i) ->
    (strlen p <= fuel)%nat ->
    c_string m off fuel =
    String.append (c_str p) (c_string m (off + strlen p) (fuel - strlen p)).
Proof.
  induction p as [|c p IH]; intros m off fuel Hm Hfuel; simpl in *.
  - now rewrite Nat.add_0_r, Nat.sub_0_r.
  - destruct (Ascii.eqb c Ascii.zero) eqn:Hc; simpl in *.
    + now rewrite Nat.add_0_r, Nat.sub_0_r.
    + destruct fuel as [|fuel]; [lia|]. simpl.
      assert (H0 : m off = c).
      { specialize (Hm 0%nat). rewrite Nat.add_0_r in Hm. apply Hm. lia. }
      rewrite H0, Hc. f_equal.
      rewrite (IH m (S off) fuel).
      * now rewrite Nat.add_succ_r.
      * intros i Hi. specialize (Hm (S i)). rewrite Nat.add_succ_r in Hm.
        apply Hm. lia.
      * lia.
Qed.

Lemma memcpy_inside (dst : memory) (off n : nat) (src : nat -> ascii) (j : nat) :
  (j < n)%nat -> memcpy dst off src n (off + j)%nat = src j.
Proof.
  intros Hj. unfold memcpy.
  replace (off + j - off)%nat with j by lia.
  destruct (Nat.leb_spec off (off + j)); [|lia].
  destruct (Nat.ltb_spec (off + j) (off + n)); [reflexivity|lia].
Qed.

Lemma memcpy_outside (dst : memory) (off n : nat) (src : nat -> ascii) (i : nat) :
  (i < off \/ off + n <= i)%nat -> memcpy dst off src n i = dst i.
Proof.
  intros Hi. unfold memcpy.
  destruct (Nat.leb_spec off i); destruct (Nat.ltb_spec i (off + n)); simpl;
    try reflexivity; lia.
Qed.

(** The two copies of [open_pidfd] leave the path, terminated, at the start
    of the buffer. *)
Lemma filename_built (m : memory) (prefix : string) :
  (strlen prefix + sizeof_pidfdname <= sizeof_filename)%nat ->
  let m' :=
    memcpy (memcpy m 0 (byte_at prefix) (strlen prefix))
      (strlen prefix) (byte_at pidfdname) sizeof_pidfdname in
  c_string m' 0 sizeof_filename = String.append (c_str prefix) pidfdname /\
  m' (strlen prefix + String.length pidfdname)%nat = Ascii.zero /\
  (forall i, (sizeof_filename <= i)%nat -> m' i = m i).
Proof.
  intros Hfit m'. repeat split.
  - rewrite (c_string_prefix prefix m' 0 sizeof_filename); [|intros i Hi|lia].
    + f_equal. simpl plus.
      rewrite (c_string_prefix pidfdname m' (strlen prefix) (sizeof_filename - strlen prefix)).
      * change (c_str pidfdname) with pidfdname.
        change (strlen pidfdname) with 9%nat.
        replace (sizeof_filename - strlen prefix - 9)%nat
          with (S (sizeof_filename - strlen prefix - 10))%nat
          by (unfold sizeof_pidfdname in Hfit; simpl in Hfit; lia).
        simpl c_string. unfold m'.
        rewrite (memcpy_inside _ (strlen prefix) sizeof_pidfdname (byte_at pidfdname) 9)
          by (unfold sizeof_pidfdname; simpl; lia).
        reflexivity.
      * intros i Hi. unfold m'. apply memcpy_inside.
        change (strlen pidfdname) with 9%nat in Hi. unfold sizeof_pidfdname. simpl. lia.
      * change (strlen pidfdname) with 9%nat.
        unfold sizeof_pidfdname in Hfit; simpl in Hfit. lia.
    + unfold m'. rewrite memcpy_outside by lia.
      apply (memcpy_inside m 0 (strlen prefix) (byte_at prefix) i Hi).
  - unfold m'. apply memcpy_inside. unfold sizeof_pidfdname. simpl. lia.
  - intros i Hi. unfold m'.
    rewrite !memcpy_outside; [reflexivity| |]; lia.
Qed.

(** C6.  Path overflow guard of [open_pidfd].  Whatever the runtime directory
    is, no byte at or past the end of the 256-byte buffer changes.  When the
    length of the directory plus the size of "/xdpw.pid" with its terminator
    exceeds 256, [open_pidfd] fails with [errno = EOVERFLOW] having made no
    system call and written nothing, and the guard fails with the diagnostic
    for it.  Otherwise the buffer holds the directory followed by the suffix
    and a NUL, and that path is the one passed to [open]. *)
Theorem path_overflow_guard (w : os) :
  (forall i, (sizeof_filename <= i)%nat -> stack (snd (open_pidfd w)) i = stack w i) /\
  if (sizeof_filename <? strlen (lock_dir w) + sizeof_pidfdname)%nat then
    open_pidfd w = (-1, set_errno EOVERFLOW w) /\
    syscalls (snd (open_pidfd w)) = syscalls w /\
    stack (snd (open_pidfd w)) = stack w /\
    forall replace_existing,
      assert_only_one_xdpw_instance replace_existing w =
      (-1, logprint ERROR "Failed to open pid file: %s\n" [strerror EOVERFLOW]
             (set_errno EOVERFLOW w))
  else
    let path := String.append (c_str (lock_dir w)) pidfdname in
    exists ret,
      fst (open_pidfd w) = ret /\
      syscalls (snd (open_pidfd w)) =
        syscalls w ++ [sys_open path (Z.lor O_RDWR O_CREAT) (Z.lor S_IRUSR S_IWUSR) ret] /\
      c_string (stack (snd (open_pidfd w))) 0 sizeof_filename = path /\
      stack (snd (open_pidfd w)) (strlen (lock_dir w) + String.length pidfdname)%nat
        = Ascii.zero /\
      (strlen (lock_dir w) + String.length pidfdname < sizeof_filename)%nat.
Proof.
  unfold open_pidfd.
  destruct (Nat.ltb_spec sizeof_filename (strlen (lock_dir w) + sizeof_pidfdname)) as [Hbig|Hfit].
  - split; [reflexivity|]. repeat split.
    intros r. simp assert_only_one_xdpw_instance. unfold open_pidfd.
    destruct (Nat.ltb_spec sizeof_filename (strlen (lock_dir w) + sizeof_pidfdname)); [|lia].
    reflexivity.
  - destruct (filename_built (stack w) (lock_dir w) Hfit) as (Hpath & Hnul & Hframe).
    cbv zeta. rewrite Hpath. unfold open.
    destruct (on_open _); simpl; (split; [exact Hframe|]);
      eexists; repeat split; try exact Hpath; try exact Hnul;
      unfold sizeof_pidfdname in Hfit; simpl in *; lia.
Qed.

(** ** The PID text: what [sprintf] writes, [atoi] reads back *)

Lemma substring_whole (s : string) :
  forall n, (String.length s <= n)%nat -> substring 0 n s = s.
Proof.
  induction s as [|c s IH]; intros [|n] Hn; simpl in *; try reflexivity; try lia.
  f_equal. apply IH. lia.
Qed.

Lemma c_str_digits (d : Decimal.uint) :
  c_str (NilEmpty.string_of_uint d) = NilEmpty.string_of_uint d.
Proof. induction d; simpl; congruence. Qed.

Ltac eval_digit :=
  repeat match goal with
         | |- context [isdigit ?c] =>
             let v := eval vm_compute in (isdigit c) in change (isdigit c) with v
         | |- context [digit_value ?c] =>
             let v := eval vm_compute in (digit_value c) in change (digit_value c) with v
         end.

Lemma atoi_digits_acc (d : Decimal.uint) :
  forall acc : positive,
    atoi_digits (Z.pos acc) (NilEmpty.string_of_uint d) = Z.pos (Pos.of_uint_acc d acc).
Proof.
  induction d; intros acc;
    cbn [NilEmpty.string_of_uint Pos.of_uint_acc atoi_digits];
    try reflexivity;
    eval_digit; cbv iota; rewrite <- IHd; f_equal; lia.
Qed.

Lemma atoi_digits_uint (d : Decimal.uint) :
  atoi_digits 0 (NilEmpty.string_of_uint d) = Z.of_uint d.
Proof.
  unfold Z.of_uint.
  induction d; cbn [NilEmpty.string_of_uint Pos.of_uint atoi_digits];
    try reflexivity;
    eval_digit; cbv iota; try (exact IHd);
    cbn [Z.of_N]; rewrite <- atoi_digits_acc; f_equal.
Qed.

Lemma atoi_skip_digits (d : Decimal.uint) :
  atoi_skip (NilEmpty.string_of_uint d) = NilEmpty.string_of_uint d.
Proof. destruct d; reflexivity. Qed.

Lemma decimal_uint (d : Decimal.uint) :
  decimal (NilEmpty.string_of_uint d) = Z.of_uint d.
Proof.
  unfold decimal. rewrite atoi_skip_digits.
  rewrite <- atoi_digits_uint. destruct d; reflexivity.
Qed.

(** The text [sprintf "%d"] writes denotes the number printed. *)
Lemma decimal_sprintf_d (n : Z) : decimal (sprintf_d n) = n.
Proof.
  unfold sprintf_d.
  rewrite <- (DecimalZ.of_to n) at 2.
  destruct (Z.to_int n) as [d|d]; unfold NilZero.string_of_int, NilZero.string_of_uint.
  - destruct d; try apply decimal_uint. reflexivity.
  - unfold Z.of_int.
    assert (H : forall s, decimal (String "-" s) = - atoi_digits 0 s) by reflexivity.
    destruct d; rewrite H; try (rewrite atoi_digits_uint; reflexivity). reflexivity.
Qed.

Lemma int_of_long_small (n : Z) : - 2 ^ 31 <= n < 2 ^ 31 -> int_of_long n = n.
Proof.
  intros Hint. unfold int_of_long. rewrite Z.mod_small; lia.
Qed.

(** [int_of_long] always gives a 32-bit number. *)
Lemma int_of_long_range (n : Z) : - 2 ^ 31 <= int_of_long n < 2 ^ 31.
Proof.
  unfold int_of_long.
  pose proof (Z.mod_pos_bound (n + 2 ^ 31) (2 ^ 32) ltac:(lia)). lia.
Qed.

(** [atoi] reads back what [sprintf "%d"] wrote for an [int]. *)
Lemma atoi_sprintf_d (n : Z) : - 2 ^ 31 <= n < 2 ^ 31 -> atoi (sprintf_d n) = n.
Proof.
  intros Hint. unfold atoi, strtol, LONG_MIN, LONG_MAX. rewrite decimal_sprintf_d.
  rewrite Z.min_r, Z.max_r by lia. now apply int_of_long_small.
Qed.

Lemma c_str_sprintf_d (n : Z) : c_str (sprintf_d n) = sprintf_d n.
Proof.
  unfold sprintf_d.
  destruct (Z.to_int n) as [d|d]; unfold NilZero.string_of_int, NilZero.string_of_uint.
  - destruct d; try apply c_str_digits. reflexivity.
  - assert (H : forall s, c_str (String "-" s) = String "-" (c_str s)) by reflexivity.
    destruct d; rewrite H; try (rewrite c_str_digits; reflexivity). reflexivity.
Qed.

Lemma length_digits (d : Decimal.uint) :
  String.length (NilEmpty.string_of_uint d) = Decimal.nb_digits d.
Proof. induction d; simpl; congruence. Qed.

Lemma of_uint_acc_lower (d : Decimal.uint) :
  forall acc : positive,
    Z.pos acc * 10 ^ Z.of_nat (Decimal.nb_digits d) <= Z.pos (Pos.of_uint_acc d acc).
Proof.
  induction d; intros acc; cbn [Decimal.nb_digits Pos.of_uint_acc];
    try (cbn; lia);
    rewrite Nat2Z.inj_succ, Z.pow_succ_r by lia;
    match goal with
    | |- _ <= Z.pos (Pos.of_uint_acc d ?a) => specialize (IHd a)
    end;
    assert (0 <= 10 ^ Z.of_nat (Decimal.nb_digits d)) by (apply Z.pow_nonneg; lia);
    nia.
Qed.

(** A decimal numeral without leading zero is at least 10 to the number of
    its digits less one. *)
Lemma of_uint_lower (d : Decimal.uint) :
  d <> Decimal.Nil -> (forall d', d <> Decimal.D0 d') ->
  10 ^ (Z.of_nat (Decimal.nb_digits d) - 1) <= Z.of_uint d.
Proof.
  intros Hnil Hzero. unfold Z.of_uint.
  destruct d; try congruence; try (now elim (Hzero d));
    cbn [Decimal.nb_digits Pos.of_uint Z.of_N];
    rewrite Nat2Z.inj_succ;
    replace (Z.succ (Z.of_nat (Decimal.nb_digits d)) - 1)
      with (Z.of_nat (Decimal.nb_digits d)) by lia;
    (eapply Z.le_trans; [|apply of_uint_acc_lower]);
    assert (0 < 10 ^ Z.of_nat (Decimal.nb_digits d)) by (apply Z.pow_pos_nonneg; lia);
    lia.
Qed.

Lemma to_uint_no_leading_zero (p : positive) (d' : Decimal.uint) :
  Pos.to_uint p <> Decimal.D0 d'.
Proof.
  intros Heq.
  pose proof (DecimalPos.Unsigned.to_of (Pos.to_uint p)) as Hnorm.
  rewrite DecimalPos.Unsigned.of_to in Hnorm. cbn [N.to_uint] in Hnorm.
  unfold Decimal.unorm in Hnorm.
  destruct (Decimal.nzhead (Pos.to_uint p)) eqn:Hhead;
    try (rewrite Hnorm in Heq; discriminate Heq).
  - apply (DecimalPos.Unsigned.to_uint_nonzero p). exact Hnorm.
  - exact (DecimalFacts.nzhead_nonzero _ _ Hhead).
Qed.

(** A positive number below 10^10 prints in at most ten digits. *)
Lemma digits_of_int (p : positive) :
  Z.pos p < 10 ^ 10 ->
  (String.length (NilEmpty.string_of_uint (Pos.to_uint p)) <= 10)%nat.
Proof.
  intros Hsmall. rewrite length_digits.
  pose proof (of_uint_lower (Pos.to_uint p) (DecimalPos.Unsigned.to_uint_nonnil p)
                (to_uint_no_leading_zero p)) as Hlow.
  unfold Z.of_uint in Hlow. rewrite DecimalPos.Unsigned.of_to in Hlow. cbn [Z.of_N] in Hlow.
  destruct (Nat.le_gt_cases (Decimal.nb_digits (Pos.to_uint p)) 10) as [|Hmany]; [assumption|].
  exfalso.
  assert (10 ^ 10 <= 10 ^ (Z.of_nat (Decimal.nb_digits (Pos.to_uint p)) - 1))
    by (apply Z.pow_le_mono_r; lia).
  lia.
Qed.

Lemma string_of_uint_nonnil (d : Decimal.uint) :
  d <> Decimal.Nil -> NilZero.string_of_uint d = NilEmpty.string_of_uint d.
Proof. destruct d; [intros Hnil; now elim Hnil | reflexivity..]. Qed.

Lemma sprintf_d_length (n : Z) :
  - 2 ^ 31 <= n < 2 ^ 31 -> (String.length (sprintf_d n) <= 11)%nat.
Proof.
  intros Hint. unfold sprintf_d.
  assert (Hbound : (2 ^ 31 < 10 ^ 10)%Z) by reflexivity.
  destruct n as [|p|p]; cbn [Z.to_int]; unfold NilZero.string_of_int.
  - cbn. lia.
  - rewrite string_of_uint_nonnil by apply DecimalPos.Unsigned.to_uint_nonnil.
    assert (Hp : Z.pos p < 10 ^ 10) by (eapply Z.lt_trans; [apply Hint | exact Hbound]).
    pose proof (digits_of_int p Hp) as Hlen.
    apply Nat.le_trans with (1 := Hlen). repeat constructor.
  - rewrite string_of_uint_nonnil by apply DecimalPos.Unsigned.to_uint_nonnil.
    assert (Hp : Z.pos p < 10 ^ 10).
    { apply Z.le_lt_trans with (m := 2 ^ 31); [|exact Hbound].
      destruct Hint as [Hlow _]. apply Z.opp_le_mono in Hlow.
      rewrite Z.opp_involutive in Hlow. exact Hlow. }
    pose proof (digits_of_int p Hp) as Hlen.
    cbn [String.length]. apply le_n_S. exact Hlen.
Qed.

(** When the lock file holds the decimal text of [pid], as the guard that
    acquired the lock wrote it, that is the text read back, and [atoi] of it
    is [pid] when [pid] is a 32-bit [int]. *)
Lemma holder_text_of_pid (w : os) (pid : Z) :
  pidfile w = sprintf_d pid ->
  (String.length (sprintf_d pid) <= 15)%nat ->
  holder_text w = sprintf_d pid /\ (- 2 ^ 31 <= pid < 2 ^ 31 -> atoi (holder_text w) = pid).
Proof.
  intros Hfile Hlen. unfold holder_text.
  rewrite Hfile, substring_whole, c_str_sprintf_d by assumption.
  split; [reflexivity | apply atoi_sprintf_d].
Qed.

(** ** The guard, step by step *)

Lemma open_pidfd_opens (w : os) (fd : N) :
  opens w fd ->
  exists m,
    open_pidfd w =
    (Z.of_N fd,
     Os (XDG_RUNTIME_DIR w) (getpid w) (kernel w) (S (opened w)) (pidfile w) (errno w)
        m (syscalls w ++ [open_call w (Z.of_N fd)]) (logged w)).
Proof.
  intros [Hfit Hopen]. unfold open_pidfd.
  destruct (Nat.ltb_spec sizeof_filename (strlen (lock_dir w) + sizeof_pidfdname)); [lia|].
  destruct (filename_built (stack w) (lock_dir w) Hfit) as (Hpath & _ & _).
  cbv zeta. rewrite Hpath. unfold open. simpl. rewrite Hopen.
  eexists. reflexivity.
Qed.

Ltac guard_opens Ho :=
  simp assert_only_one_xdpw_instance;
  let m := fresh "m" in
  destruct (open_pidfd_opens _ _ Ho) as [m ->];
  match goal with
  | |- context [Z.of_N ?fd =? -1] => destruct (Z.eqb_spec (Z.of_N fd) (-1)); [lia|]
  end.

Ltac guard_held Hh :=
  unfold lock_held in Hh; unfold flock, current; cbn; rewrite Hh; cbn.

(** C10.  When the lock is held elsewhere and reading the lock file fails, the
    guard fails at once, whatever the replace flag: its system calls are
    [open], [flock] and the failed [read] and nothing more (no [kill], no
    second [open]), and the diagnostic names no PID. *)
Theorem unreadable_holder_no_takeover (w : os) (fd : N) (e replace_existing : Z) :
  opens w fd ->
  lock_held w ->
  on_read (kernel w (opened w)) = fails e ->
  let (ret, w') := assert_only_one_xdpw_instance replace_existing w in
  ret = -1 /\
  syscalls w' =
    syscalls w ++ [open_call w (Z.of_N fd); flock_call fd (-1); read_call fd (-1)] /\
  logged w' = logged w ++ [already_running] /\
  pidfile w' = pidfile w.
Proof.
  intros Ho Hh Hr. guard_opens Ho. guard_held Hh.
  unfold read, current. cbn. rewrite Hr. cbn.
  rewrite <- !app_assoc. repeat split.
Qed.

(** Case analysis over every branch of the guard's body. *)
Ltac guard_cases :=
  unfold open_pidfd; cbv zeta;
  repeat match goal with
         | |- context [c_string ?m ?o ?f] => generalize (c_string m o f); intro
         end;
  repeat match goal with
         | |- context [memcpy ?m ?o ?src ?n] => generalize (memcpy m o src n); intro
         end;
  unfold open, flock, read, ftruncate, write, fsync, kill, sleep, close, current;
  repeat
    (cbn [fst snd kernel opened errno syscalls logged pidfile stack getpid
          XDG_RUNTIME_DIR set_errno set_stack set_pidfile next_attempt enter logprint
          Nat.pred negb];
     match goal with
     | |- context [match (if ?c then _ else _) with _ => _ end] => destruct c eqn:?
     | |- context [if ?c then _ else _] => destruct c eqn:?
     | |- context [match ?a with ok _ => _ | fails _ => _ end] => destruct a eqn:?
     | |- context [match Z.eq_dec ?a ?b with _ => _ end] => destruct (Z.eq_dec a b)
     end).

Ltac absurd_case :=
  try congruence;
  try match goal with
      | H : _ = _ |- _ => cbn in H; discriminate H
      | H : ?x <> ?x |- _ => now elim H
      | H : (Z.of_N _ =? -1) = true |- _ => apply Z.eqb_eq in H; lia
      end.

Ltac trace_eq :=
  first [ symmetry; apply app_nil_r | rewrite <- ?app_assoc; reflexivity ].

(** With the replace flag clear the guard opens the lock file at most once
    and sends no signal. *)
Lemma guard_without_replace (w : os) :
  exists calls,
    syscalls (snd (assert_only_one_xdpw_instance 0 w)) = syscalls w ++ calls /\
    (List.length (filter is_open calls) <= 1)%nat /\
    filter is_kill calls = [].
Proof.
  simp assert_only_one_xdpw_instance. guard_cases; absurd_case;
    cbn; eexists; (split; [trace_eq | cbn; split; [lia | reflexivity]]).
Qed.

(** Whatever the flag, the guard opens the lock file at most twice. *)
Lemma guard_opens_at_most_twice (replace_existing : Z) (w : os) :
  exists calls,
    syscalls (snd (assert_only_one_xdpw_instance replace_existing w)) = syscalls w ++ calls /\
    (List.length (filter is_open calls) <= 2)%nat.
Proof.
  rewrite assert_only_one_xdpw_instance_equation_1. guard_cases; absurd_case;
    try (cbn; eexists; (split; [trace_eq | cbn; lia])).
  match goal with
  | |- context [assert_only_one_xdpw_instance 0 ?w1] =>
      destruct (guard_without_replace w1) as (calls & -> & Hopen & _)
  end.
  cbn. eexists. split; [trace_eq|].
  cbn. lia.
Qed.

(** C5.  Takeover.  With the replace flag set, the lock held elsewhere, the
    lock file read and the PID read that of another process, the guard sends
    SIGTERM to that PID, sleeps one second, sends SIGKILL to the same PID
    without any test in between, closes the descriptor, and then is the guard
    run again with the flag clear on the state so reached.  That second run
    opens the file at most once and sends no signal, so it cannot retry; if
    it still finds the lock held the whole call fails.  For every input the
    lock file is opened at most twice.  The PID signalled is a 32-bit [int],
    and it is the PID whose decimal text the lock file holds. *)
Theorem takeover_retries_once (w : os) (fd v : N) (replace_existing : Z) :
  replace_existing <> 0 ->
  opens w fd ->
  lock_held w ->
  on_read (kernel w (opened w)) = ok v ->
  let other_pid := atoi (holder_text w) in
  another_process w other_pid ->
  (exists w1,
     assert_only_one_xdpw_instance replace_existing w =
       assert_only_one_xdpw_instance 0 w1 /\
     syscalls w1 =
       syscalls w ++
       [open_call w (Z.of_N fd); flock_call fd (-1);
        read_call fd (Z.of_nat (String.length (substring 0 15 (pidfile w))));
        sys_kill other_pid SIGTERM; sys_sleep 1; sys_kill other_pid SIGKILL;
        sys_close (Z.of_N fd)] /\
     kernel w1 = kernel w /\ opened w1 = S (opened w) /\
     pidfile w1 = pidfile w /\ logged w1 = logged w /\
     exists retry,
       syscalls (snd (assert_only_one_xdpw_instance 0 w1)) = syscalls w1 ++ retry /\
       (List.length (filter is_open retry) <= 1)%nat /\
       filter is_kill retry = []) /\
  - 2 ^ 31 <= other_pid < 2 ^ 31 /\
  (forall pid, pidfile w = sprintf_d pid -> - 2 ^ 31 <= pid < 2 ^ 31 -> other_pid = pid) /\
  (on_flock (kernel w (S (opened w))) = fails EWOULDBLOCK ->
   fst (assert_only_one_xdpw_instance replace_existing w) = -1) /\
  (forall r' w', exists calls,
     syscalls (snd (assert_only_one_xdpw_instance r' w')) = syscalls w' ++ calls /\
     (List.length (filter is_open calls) <= 2)%nat).
Proof.
  intros Hrep Ho Hh Hr other_pid Hother.
  assert (Hstep : exists w1,
     assert_only_one_xdpw_instance replace_existing w =
       assert_only_one_xdpw_instance 0 w1 /\
     syscalls w1 =
       syscalls w ++
       [open_call w (Z.of_N fd); flock_call fd (-1);
        read_call fd (Z.of_nat (String.length (substring 0 15 (pidfile w))));
        sys_kill other_pid SIGTERM; sys_sleep 1; sys_kill other_pid SIGKILL;
        sys_close (Z.of_N fd)] /\
     kernel w1 = kernel w /\ opened w1 = S (opened w) /\
     pidfile w1 = pidfile w /\ logged w1 = logged w).
  { rewrite assert_only_one_xdpw_instance_equation_1.
    destruct (open_pidfd_opens _ _ Ho) as [m ->].
    destruct (Z.eqb_spec (Z.of_N fd) (-1)); [lia|].
    guard_held Hh. unfold read, current. cbn. rewrite Hr. cbn.
    destruct (Z.eqb_spec (Z.of_nat (String.length (substring 0 15 (pidfile w)))) (-1)); [lia|].
    destruct (Z.eq_dec replace_existing 0); [contradiction|].
    eexists. split; [reflexivity|].
    unfold kill, sleep, close. cbn. rewrite <- !app_assoc. repeat split. }
  destruct Hstep as (w1 & Heq & Htr & Hk & Hop & Hpf & Hlog).
  split; [|split; [|split; [|split]]].
  - exists w1. repeat (split; [assumption|]). apply guard_without_replace.
  - apply int_of_long_range.
  - intros pid Hfile Hint.
    assert (Hlen : (String.length (sprintf_d pid) <= 15)%nat).
    { pose proof (sprintf_d_length pid Hint) as Hshort.
      apply Nat.le_trans with (1 := Hshort). repeat constructor. }
    exact (proj2 (holder_text_of_pid w pid Hfile Hlen) Hint).
  - intros Hstill. rewrite Heq.
    rewrite assert_only_one_xdpw_instance_equation_1.
    assert (Hflock : on_flock (kernel w1 (opened w1)) = fails EWOULDBLOCK)
      by (rewrite Hk, Hop; exact Hstill).
    clear Heq Htr. revert Hflock. generalize w1. clear. intros w Hflock.
    guard_cases; absurd_case; try reflexivity.
  - intros r' w'. apply guard_opens_at_most_twice.
Qed.

(** C7, as amended.  With the replace flag clear and the lock held elsewhere,
    the guard fails; its only system calls are [open], [flock] and [read], so
    nothing truncates or writes the lock file and its content is as before.
    The diagnostic carries the text read from the lock file when the read
    succeeds (the holder's PID, when that is what the file holds), and names
    no PID when the read fails. *)
Theorem contention_leaves_file_alone (w : os) (fd : N) :
  opens w fd ->
  lock_held w ->
  let (ret, w') := assert_only_one_xdpw_instance 0 w in
  ret = -1 /\
  pidfile w' = pidfile w /\
  (exists len,
     syscalls w' =
       syscalls w ++ [open_call w (Z.of_N fd); flock_call fd (-1); read_call fd len]) /\
  filter modifies_file (syscalls w') = filter modifies_file (syscalls w) /\
  logged w' =
    logged w ++
    [match on_read (kernel w (opened w)) with
     | ok _ => already_running_with_pid (holder_text w)
     | fails _ => already_running
     end] /\
  (forall pid, pidfile w = sprintf_d pid -> (String.length (sprintf_d pid) <= 15)%nat ->
   holder_text w = sprintf_d pid).
Proof.
  intros Ho Hh. guard_opens Ho. guard_held Hh.
  assert (Hpid : forall pid, pidfile w = sprintf_d pid ->
                   (String.length (sprintf_d pid) <= 15)%nat ->
                   holder_text w = sprintf_d pid)
    by (intros pid Hfile Hlen; apply (holder_text_of_pid w pid Hfile Hlen)).
  unfold read, current. cbn.
  destruct (on_read (kernel w (opened w))) eqn:Hr; cbn.
  - destruct (Z.eqb_spec (Z.of_nat (String.length (substring 0 15 (pidfile w)))) (-1)); [lia|].
    cbn. rewrite <- !app_assoc. repeat split; try exact Hpid.
    + eexists. reflexivity.
    + rewrite filter_app. cbn. apply app_nil_r.
  - rewrite <- !app_assoc. repeat split; try exact Hpid.
    + eexists. reflexivity.
    + rewrite filter_app. cbn. apply app_nil_r.
Qed.

(** C1, as amended.  A failure of the open step (an over-long path, or
    [open] failing) makes the guard fail, and so does a failure of [flock]
    with any [errno] other than [EWOULDBLOCK]: nothing is called after the
    failed [flock].  Once the lock is obtained the guard returns 0 whatever
    [ftruncate], [write] and [fsync] answer; the first of them to fail is
    reported by one diagnostic and the later ones are not attempted: the
    calls after the granted [flock] are exactly those of
    [pid_write_calls]. *)
Theorem guard_error_outcomes (w : os) (replace_existing : Z) :
  ((sizeof_filename < strlen (lock_dir w) + sizeof_pidfdname)%nat ->
   fst (assert_only_one_xdpw_instance replace_existing w) = -1) /\
  (forall e, on_open (kernel w (opened w)) = fails e ->
   fst (assert_only_one_xdpw_instance replace_existing w) = -1) /\
  (forall fd e, opens w fd -> on_flock (kernel w (opened w)) = fails e ->
   e <> EWOULDBLOCK ->
   let (ret, w') := assert_only_one_xdpw_instance replace_existing w in
   ret = -1 /\
   syscalls w' = syscalls w ++ [open_call w (Z.of_N fd); flock_call fd (-1)] /\
   logged w' = logged w ++ [Logline ERROR "Failed to lock pid file: %s\n" [strerror e]]) /\
  (forall fd v, opens w fd -> on_flock (kernel w (opened w)) = ok v ->
   let (ret, w') := assert_only_one_xdpw_instance replace_existing w in
   ret = 0 /\
   syscalls w' =
     syscalls w ++ [open_call w (Z.of_N fd); flock_call fd 0] ++
     pid_write_calls (Z.of_N fd) (sprintf_d (getpid w)) (kernel w (opened w)) /\
   logged w' =
     logged w ++
     match first_failure (kernel w (opened w)) with
     | Some e => [failed_to_write e]
     | None => []
     end).
Proof.
  split; [|split; [|split]].
  - intros Hbig. rewrite assert_only_one_xdpw_instance_equation_1. unfold open_pidfd.
    destruct (Nat.ltb_spec sizeof_filename (strlen (lock_dir w) + sizeof_pidfdname)); [|lia].
    reflexivity.
  - intros e He. rewrite assert_only_one_xdpw_instance_equation_1.
    guard_cases; absurd_case; reflexivity.
  - intros fd e Ho Hf Hne. guard_opens Ho. unfold flock, current. cbn. rewrite Hf. cbn.
    destruct (Z.eqb_spec e EWOULDBLOCK); [contradiction|].
    split; [reflexivity|]. split; [|reflexivity].
    cbn. now rewrite <- app_assoc.
  - intros fd v Ho Hf. guard_opens Ho. unfold flock, current. cbn. rewrite Hf. cbn.
    unfold first_failure, pid_write_calls, ftruncate, write, fsync, current. cbn.
    destruct (on_ftruncate (kernel w (opened w))); cbn;
      [|split; [reflexivity|split; [now rewrite <- !app_assoc | reflexivity]]].
    destruct (on_write (kernel w (opened w))); cbn;
      [|split; [reflexivity|split; [now rewrite <- !app_assoc | reflexivity]]].
    match goal with |- context [?x =? -1] => destruct (Z.eqb_spec x (-1)); [lia|] end.
    destruct (on_fsync (kernel w (opened w))); cbn;
      (split; [reflexivity|]); (split; [now rewrite <- !app_assoc|]);
      [symmetry; apply app_nil_r|reflexivity].
Qed.

(** ** The guard on the example surroundings *)

(** The claim of C1 fails here: the lock is obtained, [write] fails with
    [ENOSPC], and the guard still returns 0. *)
Lemma pid_write_failure_reports_success :
  let (ret, w') := assert_only_one_xdpw_instance 0 (process (fun _ => disk_full)) in
  syscalls w' =
    [sys_open "/run/user/1000/xdpw.pid" 66 384 3; sys_flock 3 6 0;
     sys_ftruncate 3 0 0; sys_write 3 "4242" 4 (-1)] /\
  logged w' = [failed_to_write ENOSPC] /\
  ret = 0.
Proof. vm_compute. repeat split. Qed.

Lemma guard_error_outcomes_witness :
  let w := process (fun _ => disk_full) in
  opens w 3 /\
  on_flock (kernel w (opened w)) = ok 0 /\
  let (ret, w') := assert_only_one_xdpw_instance 0 w in
  ret = 0 /\
  syscalls w' =
    syscalls w ++ [open_call w 3; flock_call 3 0] ++
    pid_write_calls 3 (sprintf_d (getpid w)) (kernel w (opened w)) /\
  logged w' =
    logged w ++
    match first_failure (kernel w (opened w)) with
    | Some e => [failed_to_write e]
    | None => []
    end.
Proof.
  intros w.
  assert (Ho : opens w 3) by (split; [vm_compute; lia | reflexivity]).
  split; [exact Ho|]. split; [reflexivity|].
  exact (proj2 (proj2 (proj2 (guard_error_outcomes w 0))) 3%N 0%N Ho eq_refl).
Defined.

(** The claim of C7 fails here: the lock is held, the read fails, and the
    diagnostic names no PID. *)
Lemma unreadable_lock_file_names_no_pid :
  let w := process (fun _ => unreadable) in
  opens w 3 /\ lock_held w /\
  let (ret, w') := assert_only_one_xdpw_instance 0 w in
  ret = -1 /\
  logged w' = [already_running] /\
  ~ exists text, In (already_running_with_pid text) (logged w').
Proof.
  split; [split; [vm_compute; lia | reflexivity]|]. split; [reflexivity|].
  vm_compute. repeat split.
  intros [text [H|[]]]. discriminate H.
Qed.

Lemma contention_leaves_file_alone_witness :
  let w := process (fun _ => contended) in
  opens w 3 /\ lock_held w /\
  let (ret, w') := assert_only_one_xdpw_instance 0 w in
  ret = -1 /\
  pidfile w' = pidfile w /\
  (exists len,
     syscalls w' =
       syscalls w ++ [open_call w (Z.of_N 3); flock_call 3 (-1); read_call 3 len]) /\
  filter modifies_file (syscalls w') = filter modifies_file (syscalls w) /\
  logged w' =
    logged w ++
    [match on_read (kernel w (opened w)) with
     | ok _ => already_running_with_pid (holder_text w)
     | fails _ => already_running
     end] /\
  (forall pid, pidfile w = sprintf_d pid -> (String.length (sprintf_d pid) <= 15)%nat ->
   holder_text w = sprintf_d pid).
Proof.
  intros w.
  assert (Ho : opens w 3) by (split; [vm_compute; lia | reflexivity]).
  split; [exact Ho|]. split; [reflexivity|].
  exact (contention_leaves_file_alone w 3 Ho eq_refl).
Defined.

Lemma unreadable_holder_no_takeover_witness :
  let w := process (fun _ => unreadable) in
  opens w 3 /\ lock_held w /\ on_read (kernel w (opened w)) = fails EIO /\
  let (ret, w') := assert_only_one_xdpw_instance 1 w in
  ret = -1 /\
  syscalls w' =
    syscalls w ++ [open_call w (Z.of_N 3); flock_call 3 (-1); read_call 3 (-1)] /\
  logged w' = logged w ++ [already_running] /\
  pidfile w' = pidfile w.
Proof.
  intros w.
  assert (Ho : opens w 3) by (split; [vm_compute; lia | reflexivity]).
  split; [exact Ho|]. split; [reflexivity|]. split; [reflexivity|].
  exact (unreadable_holder_no_takeover w 3 EIO 1 Ho eq_refl eq_refl).
Defined.

Lemma takeover_retries_once_witness :
  let w := process holder_exits in
  1 <> 0 /\ opens w 3 /\ lock_held w /\ on_read (kernel w (opened w)) = ok 0 /\
  another_process w (atoi (holder_text w)) /\
  exists w1,
    assert_only_one_xdpw_instance 1 w = assert_only_one_xdpw_instance 0 w1 /\
    syscalls w1 =
      [sys_open "/run/user/1000/xdpw.pid" 66 384 3; sys_flock 3 6 (-1); sys_read 3 15 3;
       sys_kill 977 SIGTERM; sys_sleep 1; sys_kill 977 SIGKILL; sys_close 3].
Proof.
  intros w.
  assert (Hrep : 1 <> 0) by discriminate.
  assert (Ho : opens w 3) by (split; [vm_compute; lia | reflexivity]).
  assert (Hother : another_process w (atoi (holder_text w)))
    by (split; [vm_compute; reflexivity | vm_compute; discriminate]).
  split; [exact Hrep|]. split; [exact Ho|]. split; [reflexivity|]. split; [reflexivity|].
  split; [exact Hother|].
  destruct (proj1 (takeover_retries_once w 3 0 1 Hrep Ho eq_refl eq_refl Hother))
    as (w1 & Heq & Htr & _).
  exists w1. split; [exact Heq | exact Htr].
Defined.

(** The takeover on the example: the holder goes away and the retry gets the
    lock; the whole trace. *)
Example takeover_example :
  let (ret, w') := assert_only_one_xdpw_instance 1 (process holder_exits) in
  ret = 0 /\
  pidfile w' = "4242" /\
  syscalls w' =
    [sys_open "/run/user/1000/xdpw.pid" 66 384 3; sys_flock 3 6 (-1); sys_read 3 15 3;
     sys_kill 977 15; sys_sleep 1; sys_kill 977 9; sys_close 3;
     sys_open "/run/user/1000/xdpw.pid" 66 384 3; sys_flock 3 6 0;
     sys_ftruncate 3 0 0; sys_write 3 "4242" 4 4; sys_fsync 3 0].
Proof. vm_compute. repeat split. Qed.

(** The retry finds the lock still held: the whole call fails after one
    retry. *)
Example takeover_fails_example :
  let (ret, w') := assert_only_one_xdpw_instance 1 (process (fun _ => contended)) in
  ret = -1 /\
  filter is_open (syscalls w') =
    [sys_open "/run/user/1000/xdpw.pid" 66 384 3;
     sys_open "/run/user/1000/xdpw.pid" 66 384 3] /\
  logged w' = [already_running_with_pid "977"].
Proof. vm_compute. repeat split. Qed.

(** A runtime directory of 247 bytes is one too many. *)
Example path_too_long_example :
  let w := Os (Some (string_of_list_ascii (repeat "a"%char 247))) 4242 (fun _ => granted)
             0 "" 0 (fun _ => Ascii.zero) [] [] in
  let (ret, w') := assert_only_one_xdpw_instance 0 w in
  ret = -1 /\ errno w' = EOVERFLOW /\ syscalls w' = [] /\
  logged w' = [Logline ERROR "Failed to open pid file: %s\n" [strerror EOVERFLOW]].
Proof. vm_compute. repeat split. Qed.

(** A runtime directory of 246 bytes fits exactly. *)
Example path_fits_example :
  let dir := string_of_list_ascii (repeat "a"%char 246) in
  let w := Os (Some dir) 4242 (fun _ => granted) 0 "" 0 (fun _ => "x"%char) [] [] in
  let (ret, w') := open_pidfd w in
  ret = 3 /\
  syscalls w' = [sys_open (String.append dir "/xdpw.pid") 66 384 3] /\
  stack w' 255%nat = Ascii.zero /\ stack w' 256%nat = "x"%char.
Proof. vm_compute. repeat split. Qed.

(** ** The loops *)

Lemma positive_run_positive (l : list Z) : Forall (fun ret => 0 < ret) (positive_run l).
Proof.
  induction l as [|ret l IH]; simpl; [constructor|].
  destruct (Z.gtb_spec ret 0); constructor; [lia | exact IH].
Qed.

Lemma stopper_not_positive (l : list Z) : stopper l <= 0.
Proof.
  induction l as [|ret l IH]; simpl; [lia|].
  destruct (Z.gtb_spec ret 0); [exact IH | lia].
Qed.

(** The bus loop calls [sd_bus_process] for the leading positive results and
    once more, and returns the result of that last call. *)
Lemma sd_bus_process_while_spec (b : handle) (work : list Z) :
  forall w,
    sd_bus_process_while b work w =
    (stopper work,
     World (host w) (libs (set_bus_work (remaining work) w))
       (calls w ++ map (Sd_bus_process b) (loop_results work))).
Proof.
  unfold loop_results.
  induction work as [|ret rest IH]; intros w;
    cbn [sd_bus_process_while positive_run stopper remaining].
  - reflexivity.
  - destruct (ret >? 0).
    + rewrite IH. cbn. now rewrite <- app_assoc.
    + reflexivity.
Qed.

Lemma wl_display_dispatch_pending_while_spec (d : handle) (queue : list Z) :
  forall w,
    wl_display_dispatch_pending_while d queue w =
    (stopper queue,
     World (host w) (libs (set_display_queue (remaining queue) w))
       (calls w ++ drain_calls d (loop_results queue))).
Proof.
  unfold loop_results.
  induction queue as [|ret rest IH]; intros w;
    cbn [wl_display_dispatch_pending_while positive_run stopper remaining].
  - unfold wl_display_flush, did. cbn. now rewrite <- app_assoc.
  - destruct (ret >? 0).
    + rewrite IH. cbn. now rewrite <- !app_assoc.
    + unfold wl_display_flush, did. cbn. now rewrite <- app_assoc.
Qed.

(** The loops are the do-while loops of their bodies. *)
Lemma do_sd_bus_process_unfold (b : handle) (w : world) :
  do_sd_bus_process b w =
  let '(ret, w') := sd_bus_process b w in
  if ret >? 0 then do_sd_bus_process b w' else (ret, w').
Proof.
  unfold do_sd_bus_process, sd_bus_process.
  destruct w as [h [a1 a2 a3 a4 a5 a6 work dw sw dq] tr]. cbn.
  destruct work as [|ret rest]; cbn; [reflexivity|].
  destruct (ret >? 0); reflexivity.
Qed.

Lemma do_wl_display_dispatch_pending_unfold (d : handle) (w : world) :
  do_wl_display_dispatch_pending d w =
  let '(ret, w') := wl_display_dispatch_pending d w in
  let w' := wl_display_flush d w' in
  if ret >? 0 then do_wl_display_dispatch_pending d w' else (ret, w').
Proof.
  unfold do_wl_display_dispatch_pending, wl_display_dispatch_pending.
  destruct w as [h [a1 a2 a3 a4 a5 a6 work dw sw dq] tr]. cbn.
  destruct dq as [|ret rest]; cbn; [reflexivity|].
  destruct (ret >? 0); reflexivity.
Qed.

(** ** One turn of the loop *)

Lemma reported_pollin (a : wakeup) (i : event_loop_fd) (fd0 ev0 : Z) :
  (poll_ret a <? 0) = false ->
  pollin (Pollfd fd0 ev0 (ready a i)) = reported a i.
Proof.
  intros Hok. unfold pollin, reported. cbn.
  destruct (Z.ltb_spec (poll_ret a) 0); [discriminate|].
  destruct (Z.leb_spec 0 (poll_ret a)); [reflexivity | lia].
Qed.

Lemma on_dbus_spec (state : xdpw_state) (pollfds : pollfd_array) (a : wakeup) (w : world) :
  pollin (pollfds EVENT_LOOP_DBUS) = reported a EVENT_LOOP_DBUS ->
  let (c, w') := on_dbus state pollfds w in
  c = (if dbus_fatal a (libs w) then goto_error else fallthrough) /\
  calls w' = calls w ++ dbus_calls state a (libs w) /\
  display_work (libs w') = display_work (libs w) /\
  stream_work (libs w') = stream_work (libs w) /\
  display_queue (libs w') = display_queue (libs w).
Proof.
  intros Hready. unfold on_dbus, dbus_fatal, dbus_calls. rewrite Hready.
  destruct (reported a EVENT_LOOP_DBUS); cbn.
  - unfold do_sd_bus_process. rewrite sd_bus_process_while_spec. cbn.
    destruct (stopper (bus_work (libs w)) <? 0); cbn; repeat split.
  - rewrite app_nil_r. repeat split.
Qed.

Lemma on_wayland_spec (state : xdpw_state) (pollfds : pollfd_array) (a : wakeup) (w : world) :
  pollin (pollfds EVENT_LOOP_WAYLAND) = reported a EVENT_LOOP_WAYLAND ->
  let (c, w') := on_wayland state pollfds w in
  c = (if wayland_fatal a (libs w) then goto_error else fallthrough) /\
  calls w' = calls w ++ wayland_calls state a (libs w) /\
  stream_work (libs w') = stream_work (libs w) /\
  display_queue (libs w') = display_queue (libs w).
Proof.
  intros Hready. unfold on_wayland, wayland_fatal, wayland_calls. rewrite Hready.
  destruct (reported a EVENT_LOOP_WAYLAND); cbn.
  - unfold wl_display_dispatch. cbn.
    destruct (display_work (libs w)) as [|ret rest]; cbn; [repeat split|].
    destruct (ret <? 0); cbn; repeat split.
  - rewrite app_nil_r. repeat split.
Qed.

Lemma on_pipewire_spec (state : xdpw_state) (pollfds : pollfd_array) (a : wakeup) (w : world) :
  pollin (pollfds EVENT_LOOP_PIPEWIRE) = reported a EVENT_LOOP_PIPEWIRE ->
  let (c, w') := on_pipewire state pollfds w in
  c = (if pipewire_fatal a (libs w) then goto_error else fallthrough) /\
  calls w' = calls w ++ pipewire_calls state a (libs w) /\
  display_queue (libs w') = display_queue (libs w).
Proof.
  intros Hready. unfold on_pipewire, pipewire_fatal, pipewire_calls. rewrite Hready.
  destruct (reported a EVENT_LOOP_PIPEWIRE); cbn.
  - unfold pw_loop_iterate. cbn.
    destruct (stream_work (libs w)) as [|ret rest]; cbn; [repeat split|].
    destruct (ret <? 0); cbn; repeat split.
  - rewrite app_nil_r. repeat split.
Qed.

Lemma drain_and_flush_spec (state : xdpw_state) (w : world) :
  let (c, w') := drain_and_flush state w in
  c = fallthrough /\ calls w' = calls w ++ closing_calls state (libs w).
Proof.
  unfold drain_and_flush, do_wl_display_dispatch_pending, closing_calls.
  rewrite wl_display_dispatch_pending_while_spec. cbn.
  now rewrite <- app_assoc.
Qed.

(** [iteration] calls [poll] and then what [turn_calls] says, and goes to
    [error] exactly when [turn_fatal] says. *)
Lemma iteration_spec (state : xdpw_state) (pollfds : pollfd_array) (a : wakeup) (w : world) :
  let '(c, _, w') := iteration state pollfds a w in
  calls w' = calls w ++ poll_call a :: turn_calls state a (libs w) /\
  c = (if turn_fatal a (libs w) then goto_error else fallthrough).
Proof.
  unfold iteration, poll, turn_calls, turn_fatal.
  destruct (poll_ret a <? 0) eqn:Hpoll; cbn; rewrite Hpoll; cbn.
  - split; reflexivity.
  - set (pollfds' := fun i => Pollfd (fd (pollfds i)) (events (pollfds i)) (ready a i)).
    set (w0 := did _ w).
    assert (Hlibs : libs w0 = libs w) by reflexivity.
    assert (Hcalls : calls w0 = calls w ++ [poll_call a]) by reflexivity.
    unfold then_.
    pose proof (on_dbus_spec state pollfds' a w0
                  (reported_pollin a EVENT_LOOP_DBUS _ _ Hpoll)) as H1.
    destruct (on_dbus state pollfds' w0) as [c1 w1].
    destruct H1 as (-> & Hc1 & Hdw1 & Hsw1 & Hdq1).
    rewrite Hlibs in *. rewrite Hcalls in Hc1.
    destruct (dbus_fatal a (libs w)); cbn.
    { rewrite Hc1, <- app_assoc, app_nil_r. split; reflexivity. }
    pose proof (on_wayland_spec state pollfds' a w1
                  (reported_pollin a EVENT_LOOP_WAYLAND _ _ Hpoll)) as H2.
    destruct (on_wayland state pollfds' w1) as [c2 w2].
    destruct H2 as (-> & Hc2 & Hsw2 & Hdq2).
    unfold wayland_fatal, wayland_calls in *. rewrite Hdw1 in *.
    rewrite Hc1 in Hc2.
    destruct (reported a EVENT_LOOP_WAYLAND && (hd 0 (display_work (libs w)) <? 0)); cbn.
    { rewrite Hc2, <- !app_assoc, app_nil_r. split; reflexivity. }
    pose proof (on_pipewire_spec state pollfds' a w2
                  (reported_pollin a EVENT_LOOP_PIPEWIRE _ _ Hpoll)) as H3.
    destruct (on_pipewire state pollfds' w2) as [c3 w3].
    destruct H3 as (-> & Hc3 & Hdq3).
    unfold pipewire_fatal, pipewire_calls in *. rewrite Hsw2, Hsw1 in *.
    rewrite Hc2 in Hc3.
    destruct (reported a EVENT_LOOP_PIPEWIRE && (hd 0 (stream_work (libs w)) <? 0)); cbn.
    { rewrite Hc3, <- !app_assoc, app_nil_r. split; reflexivity. }
    pose proof (drain_and_flush_spec state w3) as H4.
    destruct (drain_and_flush state w3) as [c4 w4].
    destruct H4 as (-> & Hc4).
    unfold closing_calls in *. rewrite Hdq3, Hdq2, Hdq1 in Hc4.
    rewrite Hc4, Hc3, <- !app_assoc. split; reflexivity.
Qed.

(** ** The whole loop *)

Lemma no_fatal_app (tr tr' : list call) :
  no_fatal (tr ++ tr') <-> no_fatal tr /\ no_fatal tr'.
Proof. unfold no_fatal. rewrite existsb_app. apply orb_false_iff. Qed.

Lemma loop_calls_app (state : xdpw_state) (tr tr' : list call) :
  loop_calls state (tr ++ tr') <-> loop_calls state tr /\ loop_calls state tr'.
Proof. unfold loop_calls. rewrite forallb_app. apply andb_true_iff. Qed.

Lemma bus_calls_positive (b : handle) (l : list Z) :
  no_fatal (map (Sd_bus_process b) (positive_run l)).
Proof.
  unfold no_fatal. induction l as [|ret l IH]; simpl; [reflexivity|].
  destruct (Z.gtb_spec ret 0); simpl; [|reflexivity].
  rewrite IH. destruct (Z.ltb_spec ret 0); [lia | reflexivity].
Qed.

Lemma bus_calls_loop (state : xdpw_state) (l : list Z) :
  loop_calls state (map (Sd_bus_process (bus state)) l).
Proof.
  unfold loop_calls. induction l as [|ret l IH]; simpl; [reflexivity|].
  now rewrite Z.eqb_refl.
Qed.

Lemma drain_calls_loop (state : xdpw_state) (l : list Z) :
  loop_calls state (drain_calls (wl_display state) l) /\
  no_fatal (drain_calls (wl_display state) l).
Proof.
  unfold loop_calls, no_fatal. induction l as [|ret l [IH1 IH2]]; simpl; [split; reflexivity|].
  now rewrite Z.eqb_refl.
Qed.

Lemma stretch_seq (state : xdpw_state) (f1 f2 : bool) (tr1 tr2 : list call) :
  stretch state f1 tr1 ->
  (f1 = false -> stretch state f2 tr2) ->
  stretch state (f1 || f2) (tr1 ++ if f1 then [] else tr2).
Proof.
  intros [Hl1 H1] H2. destruct f1; cbn.
  - rewrite app_nil_r. split; assumption.
  - destruct (H2 eq_refl) as [Hl2 H2']. split; [now apply loop_calls_app|].
    destruct f2.
    + destruct H2' as (tr0 & c & -> & Hn & Hc).
      exists (tr1 ++ tr0), c. rewrite app_assoc. repeat split; [|exact Hc].
      now apply no_fatal_app.
    + now apply no_fatal_app.
Qed.

Lemma dbus_stretch (state : xdpw_state) (a : wakeup) (e : libraries) :
  stretch state (dbus_fatal a e) (dbus_calls state a e).
Proof.
  unfold dbus_fatal, dbus_calls, loop_results.
  destruct (reported a EVENT_LOOP_DBUS); cbn [andb]; [|split; reflexivity].
  split; [apply bus_calls_loop|]. rewrite map_app. cbn [map].
  destruct (stopper (bus_work e) <? 0) eqn:Hstop.
  - eexists _, _. repeat split; [apply bus_calls_positive | exact Hstop].
  - apply no_fatal_app. split; [apply bus_calls_positive|].
    unfold no_fatal. cbn. now rewrite Hstop.
Qed.

Lemma wayland_stretch (state : xdpw_state) (a : wakeup) (e : libraries) :
  stretch state (wayland_fatal a e) (wayland_calls state a e).
Proof.
  unfold wayland_fatal, wayland_calls.
  destruct (reported a EVENT_LOOP_WAYLAND); cbn [andb]; [|split; reflexivity].
  split; [unfold loop_calls; cbn; now rewrite Z.eqb_refl|].
  destruct (hd 0 (display_work e) <? 0) eqn:Hret.
  - exists [], (Wl_display_dispatch (wl_display state) (hd 0 (display_work e))).
    repeat split. exact Hret.
  - unfold no_fatal. cbn. now rewrite Hret.
Qed.

Lemma pipewire_stretch (state : xdpw_state) (a : wakeup) (e : libraries) :
  stretch state (pipewire_fatal a e) (pipewire_calls state a e).
Proof.
  unfold pipewire_fatal, pipewire_calls.
  destruct (reported a EVENT_LOOP_PIPEWIRE); cbn [andb]; [|split; reflexivity].
  split; [unfold loop_calls; cbn; now rewrite Z.eqb_refl|].
  destruct (hd 0 (stream_work e) <? 0) eqn:Hret.
  - exists [], (Pw_loop_iterate (pw_loop state) 0 (hd 0 (stream_work e))).
    repeat split. exact Hret.
  - unfold no_fatal. cbn. now rewrite Hret.
Qed.

Lemma closing_stretch (state : xdpw_state) (e : libraries) :
  stretch state false (closing_calls state e).
Proof.
  unfold closing_calls. destruct (drain_calls_loop state (loop_results (display_queue e))).
  split.
  - apply loop_calls_app. split; [assumption|]. unfold loop_calls. cbn. now rewrite Z.eqb_refl.
  - apply no_fatal_app. split; [assumption | reflexivity].
Qed.

(** The calls of a turn are calls of the loop body; a turn that goes to
    [error] ends with the fatal call, and nothing before it is fatal. *)
Lemma turn_stretch (state : xdpw_state) (a : wakeup) (e : libraries) :
  stretch state (turn_fatal a e) (poll_call a :: turn_calls state a e).
Proof.
  unfold turn_calls, turn_fatal. rewrite <- !orb_assoc.
  change (poll_call a :: ?l) with ([poll_call a] ++ l).
  apply stretch_seq.
  { split; [reflexivity|]. destruct (poll_ret a <? 0) eqn:Hpoll.
    - exists [], (poll_call a). repeat split. exact Hpoll.
    - unfold no_fatal. cbn. now rewrite Hpoll. }
  intros _. apply stretch_seq; [apply dbus_stretch|].
  intros _. apply stretch_seq; [apply wayland_stretch|].
  intros _. rewrite <- (orb_false_r (pipewire_fatal a e)) at 1.
  apply stretch_seq; [apply pipewire_stretch|].
  intros _. apply closing_stretch.
Qed.

(** The loop calls nothing but the operations of its body, on the handles of
    [state].  When it leaves for [error] the last call is the fatal one and
    no call before it is fatal; while it stays, no call is fatal. *)
Lemma event_loop_spec (state : xdpw_state) (wakeups : list wakeup) :
  forall (pollfds : pollfd_array) (w : world),
    let (exit, w') := event_loop state pollfds wakeups w in
    exists tr,
      calls w' = calls w ++ tr /\
      match exit with
      | Some goto_error => stretch state true tr
      | Some fallthrough => False
      | None => stretch state false tr
      end.
Proof.
  induction wakeups as [|a wakeups IH]; intros pollfds w; cbn [event_loop].
  - exists []. split; [symmetry; apply app_nil_r | split; reflexivity].
  - pose proof (iteration_spec state pollfds a w) as Hturn.
    pose proof (turn_stretch state a (libs w)) as Hshape.
    destruct (iteration state pollfds a w) as [[c pollfds'] w1].
    destruct Hturn as [Hcalls ->].
    destruct (turn_fatal a (libs w)).
    + eexists. split; [exact Hcalls | exact Hshape].
    + specialize (IH pollfds' w1).
      destruct (event_loop state pollfds' wakeups w1) as [exit w2].
      destruct IH as (tr & Hcalls2 & Hrest).
      exists ((poll_call a :: turn_calls state a (libs w)) ++ tr).
      split; [rewrite Hcalls2, Hcalls; apply eq_sym, app_assoc|].
      destruct exit as [[|]|]; [contradiction| |].
      * exact (stretch_seq state false true _ tr Hshape (fun _ => Hrest)).
      * exact (stretch_seq state false false _ tr Hshape (fun _ => Hrest)).
Qed.

(** ** [main] *)

(** Every run of [main] has one of the shapes of [run_shape]. *)
Lemma main_runs `{xdpw_h} (found : list (ascii * string)) (wakeups : list wakeup) (w : world) :
  let (status, w') := main found wakeups w in
  exists tr, calls w' = calls w ++ tr /\ run_shape status tr.
Proof.
  unfold main.
  destruct (getopt_loop found (Settings None ERROR 0)) as [s|[|]];
    [| cbn; eexists; split; [reflexivity | constructor]..].
  destruct (assert_only_one_xdpw_instance (replace_existing s) (host (init_logger (loglevel s) w)))
    as [only h].
  destruct (only =? 0); cbn [negb];
    [| cbn; eexists; split; [reflexivity | constructor] ].
  unfold sd_bus_open_user, wl_display_connect, pw_loop_new, pw_init, xdpw_screencast_init,
    xdpw_screenshot_init, sd_bus_request_name, pollfds_init, sd_bus_get_fd,
    wl_display_get_fd, pw_loop_get_fd, error, sd_bus_unref, pw_loop_leave,
    pw_loop_destroy, wl_display_disconnect.
  cbn -[event_loop Z.ltb Z.eqb].
  destruct (on_sd_bus_open_user (libs w)) as [ret b].
  destruct (Z.ltb_spec ret 0) as [Hret|Hret]; cbn -[event_loop Z.ltb Z.eqb].
  { eexists. split; [rewrite <- app_assoc; reflexivity | now constructor]. }
  destruct (Z.eqb_spec (on_wl_display_connect (libs w)) NULL) as [Hd|Hd];
    cbn -[event_loop Z.ltb Z.eqb].
  { eexists. split; [rewrite <- !app_assoc; reflexivity|].
    rewrite Hd. now constructor. }
  destruct (Z.eqb_spec (on_pw_loop_new (libs w)) NULL) as [Hl|Hl];
    cbn -[event_loop Z.ltb Z.eqb].
  { eexists. split; [rewrite <- !app_assoc; reflexivity|].
    rewrite Hl. now apply (run_no_stream (loglevel s) ret b). }
  destruct (Z.ltb_spec (on_xdpw_screencast_init (libs w)) 0) as [Hsc|Hsc];
    cbn -[event_loop Z.ltb Z.eqb].
  { eexists. split; [rewrite <- !app_assoc; reflexivity|].
    now apply (run_no_screencast (loglevel s) ret b). }
  destruct (Z.ltb_spec (on_sd_bus_request_name (libs w)) 0) as [Hname|Hname];
    cbn -[event_loop Z.ltb Z.eqb].
  { eexists. split; [rewrite <- !app_assoc; reflexivity|].
    now apply (run_no_name (loglevel s) ret b). }
  match goal with
  | |- context [event_loop ?st ?pf wakeups ?w0] =>
      pose proof (event_loop_spec st wakeups pf w0) as Hloop;
      destruct (event_loop st pf wakeups w0) as [exit w1]
  end.
  destruct Hloop as (tr & Hcalls & Hshape).
  destruct exit as [[|]|]; [contradiction| |]; cbn in Hcalls |- *.
  - destruct Hshape as (Hl1 & tr0 & c & -> & Hnf & Hc).
    eexists. split.
    + rewrite Hcalls. rewrite <- !app_assoc. reflexivity.
    + now apply (run_loop_fatal (loglevel s) ret b _ _ (output_name s) _ _ (on_get_fd (libs w))).
  - destruct Hshape as (Hl1 & Hnf).
    eexists. split.
    + rewrite Hcalls. rewrite <- !app_assoc. reflexivity.
    + now apply (run_in_loop (loglevel s) ret b _ _ (output_name s) _ _ (on_get_fd (libs w))).
Qed.

(** ** Claims about the loop *)

Lemma filter_bus_calls (p : call -> bool) (b : handle) (l : list Z) :
  (forall ret, p (Sd_bus_process b ret) = false) ->
  filter p (map (Sd_bus_process b) l) = [].
Proof.
  intros Hp. induction l as [|ret l IH]; simpl; [reflexivity|]. now rewrite Hp.
Qed.

Lemma filter_bus_calls_all (b : handle) (l : list Z) :
  filter is_sd_bus_process (map (Sd_bus_process b) l) = map (Sd_bus_process b) l.
Proof. induction l as [|ret l IH]; simpl; [reflexivity|]. now rewrite IH. Qed.

Lemma filter_drain_calls (p : call -> bool) (d : handle) (l : list Z) :
  (forall ret, p (Wl_display_dispatch_pending d ret) = false) ->
  p (Wl_display_flush d) = false ->
  filter p (drain_calls d l) = [].
Proof.
  intros Hp Hf. induction l as [|ret l IH]; simpl; [reflexivity|]. now rewrite Hp, Hf.
Qed.

Ltac turn_cases :=
  unfold turn_calls, dbus_calls, dbus_fatal, wayland_calls, wayland_fatal,
    pipewire_calls, pipewire_fatal, closing_calls;
  repeat match goal with
         | |- context [if ?c then _ else _] => destruct c eqn:?
         end;
  cbn [andb orb].

Ltac filter_turn :=
  rewrite ?filter_app, ?filter_bus_calls_all, ?filter_bus_calls, ?filter_drain_calls
    by reflexivity;
  cbn [filter app is_poll is_sd_bus_process is_wl_display_dispatch is_pw_loop_iterate];
  rewrite ?app_nil_r.

(** The part of a turn that follows the bus. *)
Lemma turn_calls_after_bus (state : xdpw_state) (a : wakeup) (e : libraries) :
  (poll_ret a <? 0) = false ->
  exists rest,
    turn_calls state a e = dbus_calls state a e ++ rest /\
    filter is_sd_bus_process rest = [].
Proof.
  intros Hpoll. unfold turn_calls. rewrite Hpoll. eexists. split; [reflexivity|].
  turn_cases; filter_turn; reflexivity.
Qed.

Lemma turn_calls_no_poll (state : xdpw_state) (a : wakeup) (e : libraries) :
  filter is_poll (turn_calls state a e) = [].
Proof. turn_cases; filter_turn; reflexivity. Qed.

Lemma turn_calls_wayland (state : xdpw_state) (a : wakeup) (e : libraries) :
  reported a EVENT_LOOP_WAYLAND = false ->
  filter is_wl_display_dispatch (turn_calls state a e) = [].
Proof. intros Hw. turn_cases; filter_turn; try reflexivity; congruence. Qed.

Lemma turn_calls_pipewire (state : xdpw_state) (a : wakeup) (e : libraries) :
  reported a EVENT_LOOP_PIPEWIRE = false ->
  filter is_pw_loop_iterate (turn_calls state a e) = [].
Proof. intros Hw. turn_cases; filter_turn; try reflexivity; congruence. Qed.

Lemma reported_poll_ok (a : wakeup) (i : event_loop_fd) :
  reported a i = true -> (poll_ret a <? 0) = false.
Proof.
  unfold reported. destruct (Z.leb_spec 0 (poll_ret a)); [|discriminate].
  intros _. destruct (Z.ltb_spec (poll_ret a) 0); [lia | reflexivity].
Qed.

(** C2.  Batch drain of the message bus.  In every turn of the loop, after
    [poll] (and before the next one, which the turn does not contain): when
    [poll] reported the bus readable, [sd_bus_process] is called for each
    leading positive result and once more, the last call being the first
    whose result is not greater than zero, and these calls are consecutive and
    the only such calls of the turn; otherwise it is not called at all.  Two
    queued units of work reported once make at least two calls.  The dispatch
    operation of a source not reported readable is not called. *)
Theorem bus_batch_drain (state : xdpw_state) (pollfds : pollfd_array) (a : wakeup)
    (w : world) :
  let '(_, _, w') := iteration state pollfds a w in
  let work := bus_work (libs w) in
  exists tr,
    calls w' = calls w ++ poll_call a :: tr /\
    filter is_poll tr = [] /\
    (if reported a EVENT_LOOP_DBUS then
       exists rest,
         tr = map (Sd_bus_process (bus state)) (positive_run work ++ [stopper work]) ++ rest /\
         filter is_sd_bus_process rest = []
     else filter is_sd_bus_process tr = []) /\
    Forall (fun ret => 0 < ret) (positive_run work) /\
    stopper work <= 0 /\
    (forall r1 r2 rest,
       work = r1 :: r2 :: rest -> 0 < r1 -> 0 < r2 ->
       reported a EVENT_LOOP_DBUS = true ->
       (2 <= List.length (filter is_sd_bus_process tr))%nat) /\
    (reported a EVENT_LOOP_WAYLAND = false -> filter is_wl_display_dispatch tr = []) /\
    (reported a EVENT_LOOP_PIPEWIRE = false -> filter is_pw_loop_iterate tr = []).
Proof.
  pose proof (iteration_spec state pollfds a w) as Hturn.
  destruct (iteration state pollfds a w) as [[c pollfds'] w'].
  destruct Hturn as [Hcalls _]. cbv zeta.
  exists (turn_calls state a (libs w)).
  split; [exact Hcalls|]. split; [apply turn_calls_no_poll|].
  assert (Hbus : reported a EVENT_LOOP_DBUS = true ->
                 exists rest,
                   turn_calls state a (libs w) =
                     map (Sd_bus_process (bus state))
                       (positive_run (bus_work (libs w)) ++ [stopper (bus_work (libs w))]) ++ rest /\
                   filter is_sd_bus_process rest = []).
  { intros Hready.
    destruct (turn_calls_after_bus state a (libs w) (reported_poll_ok _ _ Hready))
      as (rest & Heq & Hrest).
    exists rest. split; [|exact Hrest].
    rewrite Heq. unfold dbus_calls. now rewrite Hready. }
  split; [|split; [apply positive_run_positive|split; [apply stopper_not_positive|split; [|split]]]].
  - destruct (reported a EVENT_LOOP_DBUS) eqn:Hready; [now apply Hbus|].
    destruct (poll_ret a <? 0) eqn:Hpoll.
    + unfold turn_calls. now rewrite Hpoll.
    + destruct (turn_calls_after_bus state a (libs w) Hpoll) as (rest & Heq & Hrest).
      rewrite Heq. unfold dbus_calls. now rewrite Hready.
  - intros r1 r2 rest Hwork H1 H2 Hready.
    destruct (Hbus Hready) as (rest' & -> & Hrest).
    rewrite filter_app, Hrest, app_nil_r, filter_bus_calls_all, length_map, length_app.
    rewrite Hwork. cbn [positive_run].
    destruct (Z.gtb_spec r1 0); [|lia]. destruct (Z.gtb_spec r2 0); [|lia].
    cbn. lia.
  - apply turn_calls_wayland.
  - apply turn_calls_pipewire.
Qed.

(** The spec's batch-drain test: two queued units, the bus reported once. *)
Example batch_drain_example :
  let w := example_world [1; 1] [] [] [] in
  let '(c, _, w') := iteration example_state example_pollfds bus_ready w in
  c = fallthrough /\
  calls w' =
    [Poll 3 (-1) 1 POLLIN 0 0;
     Sd_bus_process 100 1; Sd_bus_process 100 1; Sd_bus_process 100 0;
     Wl_display_dispatch_pending 200 0; Wl_display_flush 200; Sd_bus_flush 100].
Proof. vm_compute. split; reflexivity. Qed.

Lemma dispatch_calls_are_dispatch (state : xdpw_state) (a : wakeup) (e : libraries) :
  forallb (is_dispatch state)
    (dbus_calls state a e ++ wayland_calls state a e ++ pipewire_calls state a e) = true.
Proof.
  rewrite !forallb_app. unfold dbus_calls, wayland_calls, pipewire_calls.
  repeat match goal with
         | |- context [if ?c then _ else _] => destruct c
         end;
    cbn [forallb is_dispatch andb]; rewrite ?Z.eqb_refl; cbn [andb];
    rewrite ?andb_true_r; try reflexivity;
    generalize (loop_results (bus_work e)); intros l;
    induction l as [|ret l IH]; cbn; rewrite ?Z.eqb_refl; auto.
Qed.

(** C3, as amended.  Unconditional drain and flush.  In every turn that does
    not go to [error], whatever [poll] reported, the calls after the dispatch
    phase are: [wl_display_dispatch_pending] followed by [wl_display_flush],
    repeated while the dispatch returned a positive result and ending with
    the first result that is not greater than zero (no event left, or a
    failure of the drain step), and then [sd_bus_flush]; only then does the
    loop go on to its next turn and the next [poll]. *)
Theorem drain_and_flush_every_turn (state : xdpw_state) (pollfds pollfds' : pollfd_array)
    (a : wakeup) (w w' : world) :
  iteration state pollfds a w = (fallthrough, pollfds', w') ->
  let queue := display_queue (libs w) in
  exists dispatch,
    calls w' =
      calls w ++ poll_call a :: dispatch ++
      drain_calls (wl_display state) (positive_run queue ++ [stopper queue]) ++
      [Sd_bus_flush (bus state)] /\
    forallb (is_dispatch state) dispatch = true /\
    Forall (fun ret => 0 < ret) (positive_run queue) /\
    stopper queue <= 0 /\
    forall wakeups,
      event_loop state pollfds (a :: wakeups) w = event_loop state pollfds' wakeups w'.
Proof.
  intros Hrun queue.
  pose proof (iteration_spec state pollfds a w) as Hturn. rewrite Hrun in Hturn.
  destruct Hturn as [Hcalls Hc].
  assert (Hfatal : turn_fatal a (libs w) = false)
    by (destruct (turn_fatal a (libs w)); [discriminate | reflexivity]).
  unfold turn_fatal in Hfatal.
  apply orb_false_iff in Hfatal. destruct Hfatal as [Hfatal Hpw].
  apply orb_false_iff in Hfatal. destruct Hfatal as [Hfatal Hwl].
  apply orb_false_iff in Hfatal. destruct Hfatal as [Hpoll Hdb].
  exists (dbus_calls state a (libs w) ++ wayland_calls state a (libs w) ++
          pipewire_calls state a (libs w)).
  split; [|split; [apply dispatch_calls_are_dispatch|
           split; [apply positive_run_positive|split; [apply stopper_not_positive|]]]].
  - rewrite Hcalls. unfold turn_calls. rewrite Hpoll, Hdb, Hwl, Hpw.
    unfold closing_calls, loop_results. now rewrite <- !app_assoc.
  - intros wakeups. cbn [event_loop]. now rewrite Hrun.
Qed.

(** The claim of C3 fails here: the first drain step fails while two more
    events are queued.  The drain ends after that one step, the turn
    completes, and the loop goes on to the next [poll] with the two events
    still queued: the queue was not drained until none remain. *)
Lemma failed_drain_step_ends_the_drain :
  let w := example_world [] [] [] [-1; 1; 1] in
  let '(c, _, w') := iteration example_state example_pollfds bus_ready w in
  c = fallthrough /\
  calls w' =
    [Poll 3 (-1) 1 POLLIN 0 0; Sd_bus_process 100 0;
     Wl_display_dispatch_pending 200 (-1); Wl_display_flush 200; Sd_bus_flush 100] /\
  display_queue (libs w') = [1; 1].
Proof. vm_compute. repeat split. Qed.

(** The spec's cross-source test: only the bus is reported readable, and its
    handling left one event in the display's queue. *)
Lemma drain_and_flush_every_turn_witness :
  let w := example_world [1] [] [] [1] in
  let w' := snd (iteration example_state example_pollfds bus_ready w) in
  let pollfds' := snd (fst (iteration example_state example_pollfds bus_ready w)) in
  iteration example_state example_pollfds bus_ready w = (fallthrough, pollfds', w') /\
  exists dispatch,
    calls w' =
      calls w ++ poll_call bus_ready :: dispatch ++
      drain_calls 200 [1; 0] ++ [Sd_bus_flush 100] /\
    forallb (is_dispatch example_state) dispatch = true.
Proof.
  intros w w' pollfds'.
  assert (Hrun : iteration example_state example_pollfds bus_ready w
                 = (fallthrough, pollfds', w')) by reflexivity.
  split; [exact Hrun|].
  destruct (drain_and_flush_every_turn example_state example_pollfds pollfds' bus_ready
              w w' Hrun) as (dispatch & Hcalls & Hdispatch & _).
  exists dispatch. split; [exact Hcalls | exact Hdispatch].
Defined.

(** ** Claims about [main] *)

Lemma no_fatal_split (tr pre post : list call) (c : call) :
  no_fatal tr -> tr = pre ++ c :: post -> fatal c = true -> False.
Proof.
  intros Hn -> Hc. apply no_fatal_app in Hn. destruct Hn as [_ Hn].
  unfold no_fatal in Hn. cbn in Hn. rewrite Hc in Hn. discriminate.
Qed.

(** A trace has at most one place where a fatal call follows none. *)
Lemma fatal_split_unique (tr0 : list call) :
  forall (c0 : call) (post0 pre : list call) (c : call) (post : list call),
    no_fatal tr0 -> fatal c0 = true -> no_fatal post0 ->
    tr0 ++ c0 :: post0 = pre ++ c :: post -> fatal c = true ->
    pre = tr0 /\ c = c0 /\ post = post0.
Proof.
  induction tr0 as [|x tr0 IH]; intros c0 post0 pre c post Hn0 Hc0 Hp0 Heq Hc.
  - destruct pre as [|y pre]; cbn in Heq.
    + injection Heq as -> ->. repeat split.
    + injection Heq as -> ->. exfalso. exact (no_fatal_split _ _ _ _ Hp0 eq_refl Hc).
  - unfold no_fatal in Hn0. cbn in Hn0. apply orb_false_iff in Hn0. destruct Hn0 as [Hx Hn0].
    destruct pre as [|y pre]; cbn in Heq.
    + injection Heq as -> _. congruence.
    + injection Heq as -> Heq.
      destruct (IH c0 post0 pre c post Hn0 Hc0 Hp0 Heq Hc) as (-> & -> & ->).
      repeat split.
Qed.

Lemma loop_calls_not_release (state : xdpw_state) (tr : list call) :
  loop_calls state tr -> existsb is_release tr = false.
Proof.
  unfold loop_calls. induction tr as [|c tr IH]; cbn; [reflexivity|].
  intros Hl. apply andb_true_iff in Hl. destruct Hl as [Hc Hl].
  rewrite (IH Hl). destruct c; cbn in Hc |- *; try reflexivity; discriminate.
Qed.

Lemma loop_calls_on_handles (state : xdpw_state) (tr : list call) :
  loop_calls state tr ->
  forallb (on_handles_of state) tr = true /\ handed_states tr = [].
Proof.
  unfold loop_calls, handed_states.
  induction tr as [|c tr IH]; cbn [forallb flat_map]; [split; reflexivity|].
  intros Hl. apply andb_true_iff in Hl. destruct Hl as [Hc Hl].
  destruct (IH Hl) as [IH1 IH2]. rewrite IH1, IH2.
  destruct c; cbn in Hc |- *; try discriminate; rewrite ?Hc; split; reflexivity.
Qed.

(** C4.  Fatal conditions.  Whenever a run of [main] contains a fatal
    condition of the loop ([poll] failing, or a negative result of
    [sd_bus_process], [wl_display_dispatch] or [pw_loop_iterate]), the calls
    that follow it are exactly [sd_bus_unref], [pw_loop_leave],
    [pw_loop_destroy], [wl_display_disconnect], in this order, on the handles
    the bootstrap obtained; no release call and no other fatal condition comes
    before it; and the exit status is [EXIT_FAILURE], which is not zero. *)
Theorem fatal_condition_shuts_down `{xdpw_h} (found : list (ascii * string))
    (wakeups : list wakeup) (w : world) (pre post : list call) (c : call) :
  calls (snd (main found wakeups w)) = calls w ++ pre ++ c :: post ->
  fatal c = true ->
  fst (main found wakeups w) = Some EXIT_FAILURE /\
  EXIT_FAILURE <> 0 /\
  exists ret b d l,
    post = [Sd_bus_unref b; Pw_loop_leave l; Pw_loop_destroy l; Wl_display_disconnect d] /\
    existsb is_release pre = false /\
    no_fatal pre /\
    In (Sd_bus_open_user ret b) pre /\ In (Wl_display_connect d) pre /\
    In (Pw_loop_new l) pre.
Proof.
  intros Hcalls Hc.
  pose proof (main_runs found wakeups w) as Hrun.
  destruct (main found wakeups w) as [status w']. cbn [fst snd] in *.
  destruct Hrun as (tr & Htr & Hshape).
  rewrite Htr in Hcalls. apply app_inv_head in Hcalls.
  destruct Hshape;
    try (exfalso; refine (no_fatal_split _ pre post c _ Hcalls Hc); reflexivity).
  - (* the loop went to error *)
    match goal with Hx : loop_calls _ (_ ++ [_]) |- _ =>
      apply loop_calls_app in Hx; destruct Hx as [Hx _]; rename Hx into Hl end.
    rewrite !app_assoc in Hcalls. rewrite <- (app_assoc _ [c0]) in Hcalls.
    cbn [app] in Hcalls.
    match type of Hcalls with
    | ?tr0 ++ c0 :: ?post0 = _ =>
        assert (Hn0 : no_fatal tr0)
          by (repeat (apply no_fatal_app; split); try reflexivity; assumption);
        destruct (fatal_split_unique tr0 c0 post0 pre c post Hn0 ltac:(assumption)
                    eq_refl Hcalls Hc) as (-> & -> & ->)
    end.
    split; [reflexivity|]. split; [discriminate|].
    exists ret, b, d, l. split; [reflexivity|].
    split; [|split; [assumption|]].
    + rewrite !existsb_app, (loop_calls_not_release _ _ Hl). reflexivity.
    + cbn. repeat split; auto 10.
  - exfalso. refine (no_fatal_split _ pre post c _ Hcalls Hc).
    repeat (apply no_fatal_app; split); try reflexivity; assumption.
Qed.

Lemma fatal_condition_shuts_down_witness :
  let w := example_world [] [] [] [] in
  let state := example_state in
  let pre :=
    connect_calls ERROR 0 100 200 300 ++ init_calls state None 0 ++
    serve_calls state 0 example_fds in
  let c := poll_call poll_fails in
  let post := shutdown_calls 100 state in
  calls (snd (@main example_header [] [poll_fails] w)) = calls w ++ pre ++ c :: post /\
  fatal c = true /\
  fst (@main example_header [] [poll_fails] w) = Some EXIT_FAILURE.
Proof.
  intros w state pre c post.
  assert (Hcalls : calls (snd (@main example_header [] [poll_fails] w))
                   = calls w ++ pre ++ c :: post) by (vm_compute; reflexivity).
  assert (Hfatal : fatal c = true) by reflexivity.
  split; [exact Hcalls|]. split; [exact Hfatal|].
  exact (proj1 (@fatal_condition_shuts_down example_header [] [poll_fails] w pre post c
                  Hcalls Hfatal)).
Defined.

(** A negative result of the bus ends the run the same way; the display and
    the stream, though reported readable, are not dispatched. *)
Example bus_failure_example :
  let all_ready := Wakeup 3 0 (fun _ => POLLIN) in
  let w := example_world [1; -5] [1] [1] [] in
  let (status, w') := @main example_header [] [all_ready] w in
  status = Some 1 /\
  skipn 11 (calls w') =
    [Poll 3 (-1) 3 1 1 1; Sd_bus_process 100 1; Sd_bus_process 100 (-5);
     Sd_bus_unref 100; Pw_loop_leave 300; Pw_loop_destroy 300; Wl_display_disconnect 200].
Proof. vm_compute. split; reflexivity. Qed.

Lemma handed_states_app (tr tr' : list call) :
  handed_states (tr ++ tr') = handed_states tr ++ handed_states tr'.
Proof. apply flat_map_app. Qed.

(** The calls of a run in which the guard passed and the three connections
    succeeded begin with the connections and the hand-over of the state. *)
Lemma main_connected `{xdpw_h} (found : list (ascii * string)) (wakeups : list wakeup)
    (w : world) (s : settings) (ret : Z) (b d l : handle) :
  getopt_loop found (Settings None ERROR 0) = inl s ->
  fst (assert_only_one_xdpw_instance (replace_existing s) (host w)) = 0 ->
  on_sd_bus_open_user (libs w) = (ret, b) -> 0 <= ret ->
  on_wl_display_connect (libs w) = d -> d <> NULL ->
  on_pw_loop_new (libs w) = l -> l <> NULL ->
  exists rest,
    calls (snd (main found wakeups w)) =
      calls w ++ connect_calls (loglevel s) ret b d l ++
      init_calls (initial_state b d l) (output_name s) (on_xdpw_screencast_init (libs w)) ++
      rest.
Proof.
  intros Hopts Hguard Hbus Hret Hd Hdn Hl Hln.
  unfold main. rewrite Hopts.
  change (host (init_logger (loglevel s) w)) with (host w).
  destruct (assert_only_one_xdpw_instance (replace_existing s) (host w)) as [only h].
  cbn [fst] in Hguard. subst only. cbn [Z.eqb negb].
  unfold sd_bus_open_user, wl_display_connect, pw_loop_new, pw_init, xdpw_screencast_init,
    xdpw_screenshot_init, sd_bus_request_name, pollfds_init, sd_bus_get_fd,
    wl_display_get_fd, pw_loop_get_fd, error, sd_bus_unref, pw_loop_leave,
    pw_loop_destroy, wl_display_disconnect.
  subst d l.
  cbn -[event_loop Z.ltb Z.eqb].
  rewrite Hbus.
  destruct (Z.ltb_spec ret 0) as [|_]; [lia|].
  cbn -[event_loop Z.ltb Z.eqb].
  destruct (Z.eqb_spec (on_wl_display_connect (libs w)) NULL) as [|_]; [contradiction|].
  cbn -[event_loop Z.ltb Z.eqb].
  destruct (Z.eqb_spec (on_pw_loop_new (libs w)) NULL) as [|_]; [contradiction|].
  cbn -[event_loop Z.ltb Z.eqb].
  destruct (on_xdpw_screencast_init (libs w) <? 0); cbn -[event_loop Z.ltb Z.eqb].
  { eexists. rewrite <- !app_assoc. reflexivity. }
  destruct (on_sd_bus_request_name (libs w) <? 0); cbn -[event_loop Z.ltb Z.eqb].
  { eexists. rewrite <- !app_assoc. reflexivity. }
  match goal with
  | |- context [event_loop ?st ?pf wakeups ?w0] =>
      pose proof (event_loop_spec st wakeups pf w0) as Hloop;
      destruct (event_loop st pf wakeups w0) as [exit w1]
  end.
  destruct Hloop as (tr & Hcalls & _).
  destruct exit as [[|]|]; cbn in Hcalls |- *;
    eexists; rewrite Hcalls, <- !app_assoc; reflexivity.
Qed.

(** C8.  The shared state.  In every run of [main] the state is handed to
    the collaborators either never, which is the case exactly when the run
    ends before all three connections have succeeded, or once: right after
    the three successful connections, with the three handles they returned,
    the source types [MONITOR], the cursor modes [HIDDEN | EMBEDDED], the
    version [XDP_CAST_PROTO_VER] and an empty list of sessions.  Every later
    call takes no state and acts on those same three handles, so the state is
    not built again.  And it is built: whenever the option loop runs to its
    end, the guard passes and the three connections succeed, the calls of the
    run begin with the connections and the hand-over of that state to the two
    collaborators, and no state appears in what follows. *)
Theorem state_built_once `{xdpw_h} (found : list (ascii * string)) (wakeups : list wakeup)
    (w : world) :
  (exists tr,
     calls (snd (main found wakeups w)) = calls w ++ tr /\
     ((~ all_connected tr /\ handed_states tr = []) \/
      (exists level ret b d l name ret' rest,
         let state :=
           Xdpw_state b d l MONITOR (Z.lor HIDDEN EMBEDDED) XDP_CAST_PROTO_VER (Some []) in
         0 <= ret /\ d <> NULL /\ l <> NULL /\
         tr =
           [Init_logger level; Sd_bus_open_user ret b; Wl_display_connect d; Pw_init;
            Pw_loop_new l; Xdpw_screenshot_init state; Xdpw_screencast_init state name ret']
           ++ rest /\
         all_connected tr /\
         handed_states tr = [state; state] /\
         handed_states rest = [] /\
         forallb (on_handles_of state) rest = true))) /\
  (forall s ret b d l,
     getopt_loop found (Settings None ERROR 0) = inl s ->
     fst (assert_only_one_xdpw_instance (replace_existing s) (host w)) = 0 ->
     on_sd_bus_open_user (libs w) = (ret, b) -> 0 <= ret ->
     on_wl_display_connect (libs w) = d -> d <> NULL ->
     on_pw_loop_new (libs w) = l -> l <> NULL ->
     let state :=
       Xdpw_state b d l MONITOR (Z.lor HIDDEN EMBEDDED) XDP_CAST_PROTO_VER (Some []) in
     exists rest,
       calls (snd (main found wakeups w)) =
         calls w ++
         [Init_logger (loglevel s); Sd_bus_open_user ret b; Wl_display_connect d; Pw_init;
          Pw_loop_new l; Xdpw_screenshot_init state;
          Xdpw_screencast_init state (output_name s) (on_xdpw_screencast_init (libs w))]
         ++ rest /\
       handed_states
         ([Init_logger (loglevel s); Sd_bus_open_user ret b; Wl_display_connect d; Pw_init;
           Pw_loop_new l; Xdpw_screenshot_init state;
           Xdpw_screencast_init state (output_name s) (on_xdpw_screencast_init (libs w))]
          ++ rest) = [state; state] /\
       handed_states rest = [] /\
       forallb (on_handles_of state) rest = true).
Proof.
  assert (Hfirst : exists tr,
     calls (snd (main found wakeups w)) = calls w ++ tr /\
     ((~ all_connected tr /\ handed_states tr = []) \/
      (exists level ret b d l name ret' rest,
         let state :=
           Xdpw_state b d l MONITOR (Z.lor HIDDEN EMBEDDED) XDP_CAST_PROTO_VER (Some []) in
         0 <= ret /\ d <> NULL /\ l <> NULL /\
         tr =
           [Init_logger level; Sd_bus_open_user ret b; Wl_display_connect d; Pw_init;
            Pw_loop_new l; Xdpw_screenshot_init state; Xdpw_screencast_init state name ret']
           ++ rest /\
         all_connected tr /\
         handed_states tr = [state; state] /\
         handed_states rest = [] /\
         forallb (on_handles_of state) rest = true))).
  {
      pose proof (main_runs found wakeups w) as Hrun.
      destruct (main found wakeups w) as [status w']. cbn [fst snd].
      destruct Hrun as (tr & Htr & Hshape).
      exists tr. split; [exact Htr|].
      assert (Hconn : forall level ret b d l rest,
                0 <= ret -> d <> NULL -> l <> NULL ->
                all_connected (connect_calls level ret b d l ++ rest)).
      { intros level ret b d l rest Hret Hd Hl. exists ret, b, d, l.
        repeat (split; [assumption|]). cbn. auto 10. }
      destruct Hshape.
      1-6: left; split; [|reflexivity];
           intros (ret0 & b0 & d0 & l0 & Hr0 & Hd0 & Hl0 & Hin1 & Hin2 & Hin3);
           cbn in Hin1, Hin2, Hin3;
           repeat match goal with
                  | Hin : _ \/ _ |- _ => destruct Hin
                  | Hin : False |- _ => destruct Hin
                  | Heq : _ = _ |- _ => discriminate Heq
                  | Heq : Sd_bus_open_user _ _ = Sd_bus_open_user _ _ |- _ =>
                      injection Heq as -> ->
                  | Heq : Wl_display_connect _ = Wl_display_connect _ |- _ =>
                      injection Heq as ->
                  | Heq : Pw_loop_new _ = Pw_loop_new _ |- _ =>
                      injection Heq as ->
                  end; try lia; try congruence.
      - right. exists level, ret, b, d, l, name, ret', (shutdown_calls b state).
        cbv zeta. repeat (split; [assumption|]). split; [reflexivity|].
        split; [now apply Hconn|].
        cbn. rewrite !Z.eqb_refl. repeat split.
      - right. exists level, ret, b, d, l, name, ret'.
        exists ([Sd_bus_request_name b service_name
                   (Z.lor SD_BUS_NAME_REPLACE_EXISTING SD_BUS_NAME_ALLOW_REPLACEMENT) ret'']
                ++ shutdown_calls b state).
        cbv zeta. repeat (split; [assumption|]). split; [reflexivity|].
        split; [now apply Hconn|].
        cbn. rewrite !Z.eqb_refl. repeat split.
      - right. exists level, ret, b, d, l, name, ret'.
        exists (serve_calls state ret'' fds ++ (tr ++ [c]) ++ shutdown_calls b state).
        match goal with Hx : loop_calls _ (_ ++ [_]) |- _ =>
          destruct (loop_calls_on_handles _ _ Hx) as [Hon Hno] end.
        subst state. unfold initial_state in *.
        cbv zeta. repeat (split; [assumption|]).
        split; [now rewrite <- (app_assoc tr)|].
        split; [now apply Hconn|].
        rewrite (app_assoc tr). generalize dependent (tr ++ [c]). intros lp _ Hon Hno.
        rewrite !handed_states_app, !forallb_app, Hon, Hno.
        cbn. rewrite !Z.eqb_refl. repeat split.
      - right. exists level, ret, b, d, l, name, ret'.
        exists (serve_calls state ret'' fds ++ tr).
        match goal with Hx : loop_calls _ _ |- _ =>
          destruct (loop_calls_on_handles _ _ Hx) as [Hon Hno] end.
        subst state. unfold initial_state in *.
        cbv zeta. repeat (split; [assumption|]). split; [reflexivity|].
        split; [now apply Hconn|].
        rewrite !handed_states_app, !forallb_app, Hon, Hno.
        cbn. rewrite !Z.eqb_refl. repeat split.
  }
  split; [exact Hfirst|].
  intros s ret b d l Hopts Hguard Hbus Hret Hd Hdn Hl Hln state.
  destruct (main_connected found wakeups w s ret b d l Hopts Hguard Hbus Hret Hd Hdn Hl Hln)
    as (rest & Hcalls).
  destruct Hfirst as (tr & Htr & Hcases).
  pose proof Hcalls as Hwhole.
  apply (eq_trans (eq_sym Htr)) in Hcalls. apply app_inv_head in Hcalls.
  assert (Hall : all_connected tr).
  { exists ret, b, d, l. repeat (split; [assumption|]).
    rewrite Hcalls. cbn. auto 10. }
  destruct Hcases as [[Hnot _]|Hbuilt]; [contradiction|].
  destruct Hbuilt as (level0 & ret0 & b0 & d0 & l0 & name0 & ret0' & rest0 & Hshape).
  cbv zeta in Hshape.
  destruct Hshape as (_ & _ & _ & Heq & _ & Hhanded & Hrest & Hon).
  rewrite Hcalls in Heq. unfold connect_calls, init_calls, initial_state in Heq.
  cbn [app] in Heq.
  rewrite Hcalls in Hhanded.
  injection Heq; intros; subst.
  eexists. split; [exact Hwhole|].
  split; [exact Hhanded|]. split; [exact Hrest | exact Hon].
Qed.

Lemma state_built_once_witness :
  let w := example_world [] [] [] [] in
  let s := Settings None ERROR 0 in
  @getopt_loop example_header [] (Settings None ERROR 0) = inl s /\
  fst (assert_only_one_xdpw_instance (replace_existing s) (host w)) = 0 /\
  on_sd_bus_open_user (libs w) = (0, 100) /\ 0 <= 0 /\
  on_wl_display_connect (libs w) = 200 /\ 200 <> NULL /\
  on_pw_loop_new (libs w) = 300 /\ 300 <> NULL /\
  exists rest,
    calls (snd (@main example_header [] [bus_ready] w)) =
      calls w ++ connect_calls ERROR 0 100 200 300 ++ init_calls example_state None 0 ++ rest /\
    handed_states rest = [].
Proof.
  intros w s.
  assert (Hguard : fst (assert_only_one_xdpw_instance (replace_existing s) (host w)) = 0)
    by (vm_compute; reflexivity).
  assert (Hret : 0 <= 0) by lia.
  assert (Hd : 200 <> NULL) by discriminate.
  assert (Hl : 300 <> NULL) by discriminate.
  do 8 (split; [first [reflexivity | assumption]|]).
  destruct (proj2 (@state_built_once example_header [] [bus_ready] w) s 0 100 200 300
              eq_refl Hguard eq_refl Hret eq_refl Hd eq_refl Hl)
    as (rest & Hcalls & _ & Hrest & _).
  exists rest. split; [exact Hcalls | exact Hrest].
Defined.

(** C9.  Rollback during bootstrap.  After the guard passed and the bus
    connection was opened: if [wl_display_connect] fails, [main] releases the
    bus connection and nothing else, and exits with [EXIT_FAILURE]; if
    [pw_loop_new] fails, it releases the display connection and the bus
    connection and nothing else, and exits with [EXIT_FAILURE].  The traces
    are complete: no later step runs and no call is repeated. *)
Theorem bootstrap_rolls_back `{xdpw_h} (found : list (ascii * string))
    (wakeups : list wakeup) (w : world) (s : settings) (ret : Z) (b : handle) :
  getopt_loop found (Settings None ERROR 0) = inl s ->
  fst (assert_only_one_xdpw_instance (replace_existing s) (host w)) = 0 ->
  on_sd_bus_open_user (libs w) = (ret, b) ->
  0 <= ret ->
  (on_wl_display_connect (libs w) = NULL ->
   fst (main found wakeups w) = Some EXIT_FAILURE /\
   calls (snd (main found wakeups w)) =
     calls w ++
     [Init_logger (loglevel s); Sd_bus_open_user ret b; Wl_display_connect NULL;
      Sd_bus_unref b]) /\
  (forall d,
     on_wl_display_connect (libs w) = d -> d <> NULL ->
     on_pw_loop_new (libs w) = NULL ->
     fst (main found wakeups w) = Some EXIT_FAILURE /\
     calls (snd (main found wakeups w)) =
       calls w ++
       [Init_logger (loglevel s); Sd_bus_open_user ret b; Wl_display_connect d; Pw_init;
        Pw_loop_new NULL; Wl_display_disconnect d; Sd_bus_unref b]).
Proof.
  intros Hopts Hguard Hbus Hret.
  unfold main. rewrite Hopts.
  change (host (init_logger (loglevel s) w)) with (host w).
  destruct (assert_only_one_xdpw_instance (replace_existing s) (host w)) as [only h].
  cbn [fst] in Hguard. subst only. cbn [Z.eqb negb].
  unfold sd_bus_open_user, wl_display_connect, pw_loop_new, pw_init, sd_bus_unref,
    wl_display_disconnect.
  cbn -[Z.ltb Z.eqb xdpw_screencast_init xdpw_screenshot_init event_loop error
        sd_bus_request_name pollfds_init].
  rewrite Hbus.
  destruct (Z.ltb_spec ret 0) as [|_]; [lia|].
  cbn -[Z.ltb Z.eqb xdpw_screencast_init xdpw_screenshot_init event_loop error
        sd_bus_request_name pollfds_init].
  split.
  - intros Hd. rewrite Hd. cbn. split; [reflexivity|].
    now rewrite <- !app_assoc.
  - intros d Hd Hnonnull Hl. rewrite Hd, Hl.
    destruct (Z.eqb_spec d NULL) as [|_]; [contradiction|].
    cbn. split; [reflexivity|]. now rewrite <- !app_assoc.
Qed.

Lemma bootstrap_rolls_back_witness :
  let libs := Libraries (0, 100) 200 NULL 0 0 example_fds [] [] [] [] in
  let w := World (process (fun _ => granted)) libs [] in
  let s := Settings None ERROR 0 in
  @getopt_loop example_header [] (Settings None ERROR 0) = inl s /\
  fst (assert_only_one_xdpw_instance (replace_existing s) (host w)) = 0 /\
  on_sd_bus_open_user libs = (0, 100) /\
  0 <= 0 /\
  on_wl_display_connect libs = 200 /\ 200 <> NULL /\ on_pw_loop_new libs = NULL /\
  fst (@main example_header [] [] w) = Some EXIT_FAILURE /\
  calls (snd (@main example_header [] [] w)) =
    calls w ++
    [Init_logger ERROR; Sd_bus_open_user 0 100; Wl_display_connect 200; Pw_init;
     Pw_loop_new NULL; Wl_display_disconnect 200; Sd_bus_unref 100].
Proof.
  intros libs w s.
  assert (Hguard : fst (assert_only_one_xdpw_instance (replace_existing s) (host w)) = 0)
    by (vm_compute; reflexivity).
  assert (Hret : 0 <= 0) by lia.
  assert (Hd : 200 <> NULL) by discriminate.
  do 7 (split; [first [reflexivity | assumption]|]).
  exact (proj2 (@bootstrap_rolls_back example_header [] [] w s 0 100
                  eq_refl Hguard eq_refl Hret) 200 eq_refl Hd eq_refl).
Defined.

(** The display cannot be reached: only the bus is released. *)
Example no_display_example :
  let libs := Libraries (0, 100) NULL 300 0 0 example_fds [] [] [] [] in
  let (status, w') := @main example_header [] [] (World (process (fun _ => granted)) libs []) in
  status = Some 1 /\
  calls w' =
    [Init_logger ERROR; Sd_bus_open_user 0 100; Wl_display_connect 0; Sd_bus_unref 100].
Proof. vm_compute. split; reflexivity. Qed.

(** * Further properties *)

(** ** Every run of the guard *)

(** Branches whose tests contradict each other. *)
Ltac absurd_branch :=
  try match goal with
      | H : _ = _ |- _ =>
          cbv [EOVERFLOW EWOULDBLOCK negb Z.eqb Pos.eqb] in H; discriminate H
      | H : ?x <> ?x |- _ => now elim H
      | H : (_ =? -1) = true |- _ => apply Z.eqb_eq in H; lia
      end.

Ltac os_fields :=
  cbn [fst snd syscalls logged pidfile getpid kernel opened errno stack XDG_RUNTIME_DIR
       enter set_pidfile set_errno set_stack next_attempt logprint].

Ltac os_fields_in H :=
  cbn [fst snd syscalls logged pidfile getpid kernel opened errno stack XDG_RUNTIME_DIR
       enter set_pidfile set_errno set_stack next_attempt logprint] in H.

Ltac shape_side :=
  first [ reflexivity
        | lia
        | match goal with
          | H : (?e =? EWOULDBLOCK) = false |- ?e <> EWOULDBLOCK => now apply Z.eqb_neq
          end ].

Ltac guard_shape_case :=
  os_fields;
  eexists _, _;
  split; [trace_eq|];
  split; [first [symmetry; apply app_nil_r | rewrite <- ?app_assoc; reflexivity]|];
  split; [| intros; first [reflexivity | discriminate | lia]].

Lemma attempt_runs (w : os) :
  let (ret, w') := assert_only_one_xdpw_instance 0 w in
  exists sc lg,
    syscalls w' = syscalls w ++ sc /\
    logged w' = logged w ++ lg /\
    attempt_shape (sprintf_d (getpid w)) 0 ret sc lg /\
    (ret = -1 -> pidfile w' = pidfile w).
Proof.
  rewrite assert_only_one_xdpw_instance_equation_1.
  guard_cases; absurd_branch; guard_shape_case.
  all: try (econstructor; shape_side).
  all: try (apply lock_granted; econstructor; shape_side).
Qed.

(** Every run of the guard has one of the shapes of [guard_shape], and a run
    that fails leaves the content of the lock file as it was. *)
Lemma guard_runs (replace_existing : Z) (w : os) :
  let (ret, w') := assert_only_one_xdpw_instance replace_existing w in
  exists sc lg,
    syscalls w' = syscalls w ++ sc /\
    logged w' = logged w ++ lg /\
    guard_shape (sprintf_d (getpid w)) (holder_text w) replace_existing ret sc lg /\
    (ret = -1 -> pidfile w' = pidfile w).
Proof.
  rewrite assert_only_one_xdpw_instance_equation_1.
  guard_cases; absurd_branch;
    try (guard_shape_case; apply single_attempt;
         first [ econstructor; first [shape_side | assumption]
               | apply lock_granted; econstructor; shape_side ]).
  match goal with
  | |- context [assert_only_one_xdpw_instance 0 ?w1] =>
      pose proof (attempt_runs w1) as Hretry;
      destruct (assert_only_one_xdpw_instance 0 w1) as [ret w2]
  end.
  destruct Hretry as (sc & lg & Hsc & Hlg & Hshape & Hfile).
  os_fields_in Hsc. os_fields_in Hlg. os_fields_in Hfile. os_fields_in Hshape.
  eexists _, lg. split; [|split; [exact Hlg|split; [|exact Hfile]]].
  - rewrite Hsc, <- !app_assoc. cbn [app]. reflexivity.
  - apply (takeover _ _ _ _ _ _ _ _ _ n); [|exact Hshape]. lia.
Qed.

Ltac shape_cases H :=
  let Ha := fresh "Ha" in
  let Hw := fresh "Hw" in
  destruct H as [? ? ? Ha | ? ? ? ? ? ? ? ? Ha];
  destruct Ha as [ | | | | | ? ? ? ? Hw]; try destruct Hw.

(** X1.  The guard returns 0 or -1, and it returns 0 exactly when one of its
    [flock] calls was granted: success of the guard is possession of the
    lock, whatever else failed. *)
Theorem guard_succeeds_iff_locked (replace_existing : Z) (w : os) :
  let (ret, w') := assert_only_one_xdpw_instance replace_existing w in
  exists sc,
    syscalls w' = syscalls w ++ sc /\
    (ret = 0 \/ ret = -1) /\
    (ret = 0 <-> existsb is_lock_granted sc = true).
Proof.
  pose proof (guard_runs replace_existing w) as Hrun.
  destruct (assert_only_one_xdpw_instance replace_existing w) as [ret w'].
  destruct Hrun as (sc & lg & Hsc & _ & Hshape & _).
  exists sc. split; [exact Hsc|].
  shape_cases Hshape; cbn; (split; [auto|]); split; intros; try discriminate; try reflexivity.
Qed.

(** X2.  A run of the guard that fails, with or without the replace flag and
    including a takeover whose retry fails, has not truncated or written the
    lock file: its content is as before. *)
Theorem failed_guard_leaves_file (replace_existing : Z) (w : os) :
  fst (assert_only_one_xdpw_instance replace_existing w) = -1 ->
  pidfile (snd (assert_only_one_xdpw_instance replace_existing w)) = pidfile w /\
  filter modifies_file (syscalls (snd (assert_only_one_xdpw_instance replace_existing w)))
  = filter modifies_file (syscalls w).
Proof.
  pose proof (guard_runs replace_existing w) as Hrun.
  destruct (assert_only_one_xdpw_instance replace_existing w) as [ret w'].
  cbn [fst snd]. intros ->.
  destruct Hrun as (sc & lg & Hsc & _ & Hshape & Hfile).
  split; [now apply Hfile|].
  rewrite Hsc, filter_app.
  replace (filter modifies_file sc) with (@nil syscall); [now rewrite app_nil_r|].
  remember (-1) as ret eqn:Hret.
  shape_cases Hshape; try discriminate Hret; reflexivity.
Qed.

Lemma failed_guard_leaves_file_witness :
  let w := process (fun _ => contended) in
  fst (assert_only_one_xdpw_instance 1 w) = -1 /\
  pidfile (snd (assert_only_one_xdpw_instance 1 w)) = "977".
Proof.
  intros w.
  assert (Hfail : fst (assert_only_one_xdpw_instance 1 w) = -1) by (vm_compute; reflexivity).
  split; [exact Hfail|].
  exact (proj1 (failed_guard_leaves_file 1 w Hfail)).
Defined.

(** X3.  When the guard succeeds, nothing follows the granted [flock] but
    the PID write: the calls after it are [ftruncate], then [write] and
    [fsync] as far as the one before succeeded, on the descriptor that was
    locked, and nothing else.  In particular there is no [close], no
    unlocking [flock], no [open] and no [kill], so the lock is held when the
    guard returns. *)
Theorem lock_descriptor_stays_open (replace_existing : Z) (w : os) :
  fst (assert_only_one_xdpw_instance replace_existing w) = 0 ->
  exists before path fd after lg,
    syscalls (snd (assert_only_one_xdpw_instance replace_existing w)) =
      syscalls w ++ before ++ [guard_open path fd; guard_flock fd 0] ++ after /\
    logged (snd (assert_only_one_xdpw_instance replace_existing w)) = logged w ++ lg /\
    write_shape fd (sprintf_d (getpid w)) after lg /\
    filter is_close after = [] /\
    filter is_open after = [] /\
    filter is_kill after = [] /\
    existsb is_lock_granted before = false.
Proof.
  pose proof (guard_runs replace_existing w) as Hrun.
  destruct (assert_only_one_xdpw_instance replace_existing w) as [ret w'].
  cbn [fst snd]. intros ->.
  destruct Hrun as (sc & lg & -> & -> & Hshape & _).
  remember 0 as ret eqn:Hret.
  destruct Hshape as [? ? ? Ha | ? ? ? ? ? ? ? ? Ha];
    destruct Ha as [ | | | | | ? ? ? ? Hw]; try discriminate Hret.
  - exists []; eexists _, _, _, _. split; [reflexivity|]. split; [reflexivity|].
    split; [exact Hw|]. destruct Hw; repeat split.
  - eexists (takeover_calls _ _ _ _), _, _, _, _.
    split; [reflexivity|]. split; [reflexivity|].
    split; [exact Hw|]. destruct Hw; repeat split.
Qed.

Lemma lock_descriptor_stays_open_witness :
  let w := process holder_exits in
  fst (assert_only_one_xdpw_instance 1 w) = 0 /\
  exists before path fd after lg,
    syscalls (snd (assert_only_one_xdpw_instance 1 w)) =
      syscalls w ++ before ++ [guard_open path fd; guard_flock fd 0] ++ after /\
    write_shape fd (sprintf_d (getpid w)) after lg.
Proof.
  intros w.
  assert (Hok : fst (assert_only_one_xdpw_instance 1 w) = 0) by (vm_compute; reflexivity).
  split; [exact Hok|].
  destruct (lock_descriptor_stays_open 1 w Hok)
    as (before & path & fd & after & lg & Hsc & _ & Hwrite & _).
  exists before, path, fd, after, lg. split; [exact Hsc | exact Hwrite].
Defined.

(** X4.  Signals.  With the replace flag clear the guard sends no signal.
    When the PID the lock file gives is that of another process, the guard
    sends either no signal or exactly two, both to that PID: SIGTERM, then
    after [sleep(1)] SIGKILL. *)
Theorem signals_come_in_pairs (replace_existing : Z) (w : os) :
  exists sc,
    syscalls (snd (assert_only_one_xdpw_instance replace_existing w)) = syscalls w ++ sc /\
    (replace_existing = 0 -> filter is_kill sc = []) /\
    (another_process w (atoi (holder_text w)) ->
     filter is_kill sc = [] \/
     exists before after,
       sc = before ++
            [sys_kill (atoi (holder_text w)) SIGTERM; sys_sleep 1;
             sys_kill (atoi (holder_text w)) SIGKILL] ++ after /\
       filter is_kill before = [] /\ filter is_kill after = []).
Proof.
  pose proof (guard_runs replace_existing w) as Hrun.
  destruct (assert_only_one_xdpw_instance replace_existing w) as [ret w'].
  destruct Hrun as (sc & lg & Hsc & _ & Hshape & _).
  exists sc. split; [exact Hsc|].
  shape_cases Hshape; (split; [intros; first [reflexivity | contradiction]|]);
    intros _;
    first [ left; reflexivity
          | right; eexists [guard_open _ _; guard_flock _ (-1); sys_read _ 15 _], _;
            split; [reflexivity | split; reflexivity] ].
Qed.

Lemma signals_come_in_pairs_witness :
  let w := process holder_exits in
  another_process w (atoi (holder_text w)) /\
  exists sc,
    syscalls (snd (assert_only_one_xdpw_instance 1 w)) = syscalls w ++ sc /\
    (filter is_kill sc = [] \/
     exists before after,
       sc = before ++ [sys_kill 977 SIGTERM; sys_sleep 1; sys_kill 977 SIGKILL] ++ after /\
       filter is_kill before = [] /\ filter is_kill after = []).
Proof.
  intros w.
  assert (Hother : another_process w (atoi (holder_text w)))
    by (split; [vm_compute; reflexivity | vm_compute; discriminate]).
  split; [exact Hother|].
  destruct (signals_come_in_pairs 1 w) as (sc & Hsc & _ & Hpair).
  exists sc. split; [exact Hsc | exact (Hpair Hother)].
Defined.

(** X5.  Diagnostics of the guard.  A run that fails logs exactly one line,
    at level ERROR; a run that succeeds logs nothing, or the one line that
    reports the failed PID write. *)
Theorem guard_diagnostics (replace_existing : Z) (w : os) :
  let (ret, w') := assert_only_one_xdpw_instance replace_existing w in
  exists lg,
    logged w' = logged w ++ lg /\
    (ret = -1 -> exists line, lg = [line] /\ log_level line = ERROR) /\
    (ret = 0 -> lg = [] \/ exists e, lg = [failed_to_write e]).
Proof.
  pose proof (guard_runs replace_existing w) as Hrun.
  destruct (assert_only_one_xdpw_instance replace_existing w) as [ret w'].
  destruct Hrun as (sc & lg & _ & Hlg & Hshape & _).
  exists lg. split; [exact Hlg|].
  shape_cases Hshape; split; intros Hret; try discriminate Hret;
    first [ eexists; split; reflexivity
          | left; reflexivity
          | right; eexists; reflexivity ].
Qed.

(** ** The PID text and the 16-byte buffers *)

(** X6.  The two 16-byte buffers are large enough.  For every value of a
    32-bit [int], the text [sprintf "%d"] writes takes, with its terminating
    NUL, at most 12 of the 16 bytes of [pid]; it is shorter than the 15 bytes
    the other instance reads into [other_inst], so that the read gets the
    whole text, and [atoi] of what was read is the value written. *)
Theorem pid_text_fits (n : Z) :
  - 2 ^ 31 <= n < 2 ^ 31 ->
  (String.length (sprintf_d n) + 1 <= 16)%nat /\
  substring 0 15 (sprintf_d n) = sprintf_d n /\
  atoi (c_str (substring 0 15 (sprintf_d n))) = n.
Proof.
  intros Hint. pose proof (sprintf_d_length n Hint) as Hlen.
  split; [lia|].
  rewrite substring_whole by lia. split; [reflexivity|].
  rewrite c_str_sprintf_d. apply atoi_sprintf_d. exact Hint.
Qed.

Lemma pid_text_fits_witness :
  - 2 ^ 31 <= - 2 ^ 31 < 2 ^ 31 /\
  (String.length (sprintf_d (- 2 ^ 31)) + 1 <= 16)%nat /\
  atoi (c_str (substring 0 15 (sprintf_d (- 2 ^ 31)))) = - 2 ^ 31.
Proof.
  assert (Hint : - 2 ^ 31 <= - 2 ^ 31 < 2 ^ 31) by lia.
  split; [exact Hint|].
  split; [exact (proj1 (pid_text_fits (- 2 ^ 31) Hint))
         | exact (proj2 (proj2 (pid_text_fits (- 2 ^ 31) Hint)))].
Defined.

(** ** The content of the lock file *)

Lemma substring_nothing (s : string) (k : nat) : substring k 0 s = EmptyString.
Proof.
  revert k. induction s as [|c s IH]; intros [|k]; cbn; try reflexivity. apply IH.
Qed.

Lemma append_empty (s : string) : String.append s EmptyString = s.
Proof. induction s as [|c s IH]; cbn; [reflexivity | now rewrite IH]. Qed.

(** The state after the lock was granted, as far as the PID block matters. *)
Lemma granted_file (w : os) (fd : N) (replace_existing : Z) :
  acquires w fd ->
  let a := kernel w (opened w) in
  let pid := sprintf_d (getpid w) in
  pidfile (snd (assert_only_one_xdpw_instance replace_existing w)) =
    match on_ftruncate a with
    | fails _ => pidfile w
    | ok _ =>
        match on_write a with
        | fails _ => EmptyString
        | ok n =>
            substring 0 (Z.to_nat (Z.min (Z.of_N n) (Z.of_nat (String.length pid)))) pid
        end
    end.
Proof.
  intros [Ho [v Hf]] a pid. subst a pid. guard_opens Ho.
  unfold flock, current. cbn. rewrite Hf. cbn.
  unfold ftruncate, write, fsync, current. cbn.
  destruct (on_ftruncate (kernel w (opened w))); cbn; [|reflexivity].
  assert (Hcut : substring 0 0 (pidfile w) = EmptyString) by apply substring_nothing.
  destruct (on_write (kernel w (opened w))); cbn.
  - match goal with |- context [?x =? -1] => destruct (Z.eqb_spec x (-1)); [lia|] end.
    destruct (on_fsync (kernel w (opened w))); cbn;
      rewrite Hcut; cbn [String.length Nat.sub]; rewrite substring_nothing;
      apply append_empty.
  - exact Hcut.
Qed.

(** X7.  What the lock file holds after the lock was granted.  When
    [ftruncate] fails the old content stays (the previous holder's PID);
    when [ftruncate] succeeds and [write] fails the file is left empty; when
    both succeed and [write] takes the whole text, the file holds exactly the
    decimal text of the caller's PID, whatever [fsync] answers.  The guard
    returns 0 in all three cases. *)
Theorem lock_file_after_acquire (w : os) (fd : N) (replace_existing : Z) :
  acquires w fd ->
  let (ret, w') := assert_only_one_xdpw_instance replace_existing w in
  ret = 0 /\
  (forall e, on_ftruncate (kernel w (opened w)) = fails e -> pidfile w' = pidfile w) /\
  (forall v e, on_ftruncate (kernel w (opened w)) = ok v ->
               on_write (kernel w (opened w)) = fails e -> pidfile w' = EmptyString) /\
  (writes_pid w -> pidfile w' = sprintf_d (getpid w)).
Proof.
  intros Hacq.
  pose proof (granted_file w fd replace_existing Hacq) as Hfile.
  assert (Hret : fst (assert_only_one_xdpw_instance replace_existing w) = 0).
  { destruct Hacq as [Ho [v Hf]]. guard_opens Ho.
    unfold flock, current. cbn. rewrite Hf. cbn.
    repeat match goal with
           | |- context [let '(_, _) := ?x in _] => destruct x
           end.
    reflexivity. }
  destruct (assert_only_one_xdpw_instance replace_existing w) as [ret w'].
  cbn [fst snd] in *. cbv zeta in Hfile.
  split; [exact Hret|]. split; [|split].
  - intros e He. now rewrite He in Hfile.
  - intros v e Ht Hw. now rewrite Ht, Hw in Hfile.
  - intros [[v Ht] [n [Hw Hlen]]]. rewrite Ht, Hw in Hfile.
    rewrite Hfile, Z.min_r, Nat2Z.id by exact Hlen.
    apply substring_whole. apply Nat.le_refl.
Qed.

Lemma lock_file_after_acquire_witness :
  let w := process (fun _ => granted) in
  acquires w 3 /\ writes_pid w /\
  pidfile (snd (assert_only_one_xdpw_instance 0 w)) = "4242".
Proof.
  intros w.
  assert (Hacq : acquires w 3)
    by (split; [split; [vm_compute; lia | reflexivity] | exists 0%N; reflexivity]).
  assert (Hwr : writes_pid w)
    by (split; [exists 0%N; reflexivity | exists 16%N; split; [reflexivity | vm_compute; discriminate]]).
  split; [exact Hacq|]. split; [exact Hwr|].
  pose proof (lock_file_after_acquire w 3 0 Hacq) as H.
  destruct (assert_only_one_xdpw_instance 0 w) as [ret w'].
  exact (proj2 (proj2 (proj2 H)) Hwr).
Defined.

(** ** One instance after another *)

(** The first execution of the body in a takeover, and what follows it. *)
Lemma takeover_step (w : os) (fd v : N) (replace_existing : Z) :
  replace_existing <> 0 ->
  opens w fd ->
  lock_held w ->
  on_read (kernel w (opened w)) = ok v ->
  exists sc,
    syscalls (snd (assert_only_one_xdpw_instance replace_existing w)) =
      syscalls w ++
      takeover_calls (lock_path w) (Z.of_N fd)
        (Z.of_nat (String.length (substring 0 15 (pidfile w)))) (atoi (holder_text w)) ++ sc /\
    filter is_kill sc = [].
Proof.
  intros Hrep Ho Hh Hr.
  rewrite assert_only_one_xdpw_instance_equation_1.
  destruct (open_pidfd_opens _ _ Ho) as [m ->].
  destruct (Z.eqb_spec (Z.of_N fd) (-1)); [lia|].
  guard_held Hh. unfold read, current. cbn. rewrite Hr. cbn.
  destruct (Z.eqb_spec (Z.of_nat (String.length (substring 0 15 (pidfile w)))) (-1)); [lia|].
  destruct (Z.eq_dec replace_existing 0); [contradiction|].
  match goal with
  | |- context [assert_only_one_xdpw_instance 0 ?w1] =>
      destruct (guard_without_replace w1) as (sc & -> & _ & Hkill)
  end.
  exists sc. split; [|exact Hkill].
  unfold kill, sleep, close. cbn. now rewrite <- !app_assoc.
Qed.




(** X9.  An empty lock file.  When the holder's [ftruncate] succeeded and its
    [write] failed, the holder still returned 0 and the lock file is empty.
    A second process that then runs the guard with the replace flag reads the
    empty text, for which [atoi] gives 0, and the first signal it sends is
    SIGTERM to PID 0: not to another process, but to its own process
    group. *)
Theorem empty_lock_file_signals_pid_zero (holder second : os) (fd fd' v vt : N)
    (e flag flag' : Z) :
  acquires holder fd ->
  on_ftruncate (kernel holder (opened holder)) = ok vt ->
  on_write (kernel holder (opened holder)) = fails e ->
  pidfile second = pidfile (snd (assert_only_one_xdpw_instance flag holder)) ->
  flag' <> 0 ->
  opens second fd' ->
  lock_held second ->
  on_read (kernel second (opened second)) = ok v ->
  fst (assert_only_one_xdpw_instance flag holder) = 0 /\
  pidfile second = EmptyString /\
  atoi (holder_text second) = 0 /\
  ~ another_process second (atoi (holder_text second)) /\
  exists after,
    syscalls (snd (assert_only_one_xdpw_instance flag' second)) =
      syscalls second ++
      [open_call second (Z.of_N fd'); flock_call fd' (-1); read_call fd' 0;
       sys_kill 0 SIGTERM] ++ after.
Proof.
  intros Hacq Ht Hw Hfile Hrep Ho Hh Hr.
  rewrite (granted_file holder fd flag Hacq) in Hfile. cbv zeta in Hfile.
  rewrite Ht, Hw in Hfile.
  assert (Hzero : atoi (holder_text second) = 0)
    by (unfold holder_text; rewrite Hfile; reflexivity).
  split; [|split; [exact Hfile|split; [exact Hzero|split]]].
  - destruct Hacq as [Hoa [va Hfa]]. guard_opens Hoa.
    unfold flock, current. cbn. rewrite Hfa. cbn.
    repeat match goal with
           | |- context [let '(_, _) := ?x in _] => destruct x
           end.
    reflexivity.
  - rewrite Hzero. intros [Hpos _]. lia.
  - destruct (takeover_step second fd' v flag' Hrep Ho Hh Hr) as (sc & -> & _).
    rewrite Hzero, Hfile. eexists. reflexivity.
Qed.

Lemma empty_lock_file_signals_pid_zero_witness :
  let holder := process (fun _ => disk_full) in
  let second :=
    Os (Some "/run/user/1000") 5000 (fun _ => contended) 0
       (pidfile (snd (assert_only_one_xdpw_instance 0 holder))) 0 (fun _ => Ascii.zero) [] [] in
  acquires holder 3 /\ 1 <> 0 /\ opens second 3 /\ lock_held second /\
  atoi (holder_text second) = 0 /\
  ~ another_process second (atoi (holder_text second)).
Proof.
  intros holder second.
  assert (Hacq : acquires holder 3)
    by (split; [split; [vm_compute; lia | reflexivity] | exists 0%N; reflexivity]).
  assert (Hrep : 1 <> 0) by discriminate.
  assert (Ho : opens second 3) by (split; [vm_compute; lia | reflexivity]).
  assert (Hh : lock_held second) by reflexivity.
  do 4 (split; [assumption|]).
  destruct (empty_lock_file_signals_pid_zero holder second 3 3 0 0 ENOSPC 0 1
              Hacq eq_refl eq_refl eq_refl Hrep Ho Hh eq_refl)
    as (_ & _ & Hzero & Hself & _).
  split; [exact Hzero | exact Hself].
Defined.

(** ** Where the lock file is *)

(** X10.  The directory of the lock file.  With [XDG_RUNTIME_DIR] unset the
    guard opens "/tmp/xdpw.pid" and never fails with [EOVERFLOW]; with the
    variable set to the empty string there is no fallback: the path is
    "/xdpw.pid".  In both cases this is the only system call of
    [open_pidfd]. *)
Theorem lock_file_location (w : os) :
  (XDG_RUNTIME_DIR w = None ->
   exists ret,
     syscalls (snd (open_pidfd w)) = syscalls w ++ [guard_open "/tmp/xdpw.pid" ret] /\
     fst (open_pidfd w) = ret) /\
  (XDG_RUNTIME_DIR w = Some EmptyString ->
   exists ret,
     syscalls (snd (open_pidfd w)) = syscalls w ++ [guard_open "/xdpw.pid" ret] /\
     fst (open_pidfd w) = ret).
Proof.
  assert (Hgen : forall dir,
            lock_dir w = dir ->
            (strlen dir + sizeof_pidfdname <= sizeof_filename)%nat ->
            exists ret,
              syscalls (snd (open_pidfd w)) =
                syscalls w ++ [guard_open (String.append (c_str dir) pidfdname) ret] /\
              fst (open_pidfd w) = ret).
  { intros dir Hdir Hfit. unfold open_pidfd. rewrite Hdir.
    destruct (Nat.ltb_spec sizeof_filename (strlen dir + sizeof_pidfdname)); [lia|].
    destruct (filename_built (stack w) dir Hfit) as (Hpath & _ & _).
    cbv zeta. rewrite Hpath. unfold open.
    destruct (on_open _); cbn; eexists; split; reflexivity. }
  split; intros Henv.
  - apply (Hgen "/tmp"); [unfold lock_dir; now rewrite Henv | vm_compute; lia].
  - apply (Hgen EmptyString); [unfold lock_dir; now rewrite Henv | vm_compute; lia].
Qed.

Lemma lock_file_location_witness :
  let w := Os None 4242 (fun _ => granted) 0 "" 0 (fun _ => "x"%char) [] [] in
  XDG_RUNTIME_DIR w = None /\
  exists ret, syscalls (snd (open_pidfd w)) = syscalls w ++ [guard_open "/tmp/xdpw.pid" ret].
Proof.
  intros w.
  assert (Henv : XDG_RUNTIME_DIR w = None) by reflexivity.
  split; [exact Henv|].
  destruct (proj1 (lock_file_location w) Henv) as (ret & Hsc & _).
  exists ret. exact Hsc.
Defined.

(** ** The command line *)

Lemma getopt_loop_step `{xdpw_h} (c : ascii) (optarg : string)
    (rest : list (ascii * string)) (s : settings) :
  getopt_loop ((c, optarg) :: rest) s =
    if is_setting c then getopt_loop rest (set_option c optarg s)
    else inr (if Ascii.eqb c "h" then stdout else stderr).
Proof. destruct c as [[] [] [] [] [] [] [] []]; reflexivity. Qed.

Lemma getopt_loop_stops `{xdpw_h} (before after : list (ascii * string)) (c : ascii)
    (optarg : string) :
  forallb is_setting (map fst before) = true ->
  is_setting c = false ->
  forall s,
    getopt_loop (before ++ (c, optarg) :: after) s =
      inr (if Ascii.eqb c "h" then stdout else stderr).
Proof.
  intros Hbefore Hc. induction before as [|[c' arg'] before IH]; intros s.
  - cbn [app]. now rewrite getopt_loop_step, Hc.
  - cbn [map fst forallb] in Hbefore. apply andb_true_iff in Hbefore.
    destruct Hbefore as [Hc' Hbefore].
    cbn [app]. rewrite getopt_loop_step, Hc'. now apply IH.
Qed.

(** X11.  The first option that is not [l], [o] or [r] ends [main] at once:
    the usage text goes to [stdout] and the status is [EXIT_SUCCESS] for [h],
    to [stderr] with [EXIT_FAILURE] for anything else.  Nothing else happens:
    the options before it have no effect (a [-r] before [-h] replaces
    nothing), the options after it are not read, the logger is not
    initialised and the guard does not run. *)
Theorem first_other_option_prints_usage `{xdpw_h} (before after : list (ascii * string))
    (c : ascii) (optarg : string) (wakeups : list wakeup) (w : world) :
  forallb is_setting (map fst before) = true ->
  is_setting c = false ->
  main (before ++ (c, optarg) :: after) wakeups w =
    (Some (if Ascii.eqb c "h" then EXIT_SUCCESS else EXIT_FAILURE),
     did (Xdpw_usage (if Ascii.eqb c "h" then stdout else stderr)) w).
Proof.
  intros Hbefore Hc. unfold main.
  rewrite (getopt_loop_stops before after c optarg Hbefore Hc).
  destruct (Ascii.eqb c "h"); reflexivity.
Qed.

Lemma first_other_option_prints_usage_witness :
  let w := example_world [] [] [] [] in
  let before := [("r"%char, EmptyString)] in
  let after := [("l"%char, "TRACE")] in
  forallb is_setting (map fst before) = true /\
  is_setting "h"%char = false /\
  @main example_header (before ++ ("h"%char, EmptyString) :: after) [] w =
    (Some EXIT_SUCCESS, did (Xdpw_usage stdout) w).
Proof.
  intros w before after.
  assert (Hbefore : forallb is_setting (map fst before) = true) by reflexivity.
  assert (Hc : is_setting "h"%char = false) by reflexivity.
  split; [exact Hbefore|]. split; [exact Hc|].
  exact (@first_other_option_prints_usage example_header before after "h"%char EmptyString
           [] w Hbefore Hc).
Defined.

Lemma getopt_loop_settings `{xdpw_h} (found : list (ascii * string)) :
  forall (s s' : settings) (named : option string) (default : LOGLEVEL),
    getopt_loop found s = inl s' ->
    loglevel s = match named with Some a => get_loglevel a | None => default end ->
    forallb is_setting (map fst found) = true /\
    output_name s' = last_arg "o" found (output_name s) /\
    loglevel s' =
      match last_arg "l" found named with Some a => get_loglevel a | None => default end /\
    replace_existing s' = if has_option "r" found then 1 else replace_existing s.
Proof.
  induction found as [|[c arg] found IH]; intros s s' named default Hrun Hlevel.
  - cbn in Hrun. injection Hrun as <-. cbn. repeat split. exact Hlevel.
  - rewrite getopt_loop_step in Hrun.
    destruct (is_setting c) eqn:Hc; [|discriminate Hrun].
    unfold last_arg, has_option. cbn [map fst snd forallb fold_left existsb]. rewrite Hc.
    destruct c as [[] [] [] [] [] [] [] []]; try discriminate Hc;
      cbn [Ascii.eqb Bool.eqb andb orb set_option] in *.
    all: first [ destruct (IH _ _ named default Hrun Hlevel) as (Hall & Ho & Hl & Hr)
               | destruct (IH _ s' (Some arg) default Hrun eq_refl) as (Hall & Ho & Hl & Hr) ];
      cbn [output_name loglevel replace_existing] in *;
      repeat split; try assumption.
    rewrite Hr. now destruct (has_option "r" found).
Qed.

(** X12.  What the option loop leaves in the variables when it runs to the
    end of the command line: every option was [l], [o] or [r]; the output
    name is the argument of the last [o] (none without one); the log level is
    [get_loglevel] of the argument of the last [l] ([ERROR] without one); the
    replace flag is 1 when there is an [r] and 0 otherwise, so the guard is
    never called with another value. *)
Theorem options_last_one_wins `{xdpw_h} (found : list (ascii * string)) (s : settings) :
  getopt_loop found (Settings None ERROR 0) = inl s ->
  forallb is_setting (map fst found) = true /\
  output_name s = last_arg "o" found None /\
  loglevel s = match last_arg "l" found None with Some a => get_loglevel a | None => ERROR end /\
  replace_existing s = (if has_option "r" found then 1 else 0).
Proof.
  intros Hrun. exact (getopt_loop_settings found _ s None ERROR Hrun eq_refl).
Qed.

Lemma options_last_one_wins_witness :
  let found :=
    [("o"%char, "DP-1"); ("r"%char, EmptyString); ("o"%char, "HDMI-A-1")] in
  let s := Settings (Some "HDMI-A-1") ERROR 1 in
  @getopt_loop example_header found (Settings None ERROR 0) = inl s /\
  output_name s = last_arg "o" found None /\
  replace_existing s = 1.
Proof.
  intros found s.
  assert (Hrun : @getopt_loop example_header found (Settings None ERROR 0) = inl s)
    by reflexivity.
  split; [exact Hrun|].
  destruct (@options_last_one_wins example_header found s Hrun) as (_ & Ho & _ & Hr).
  split; [exact Ho | exact Hr].
Defined.

(** ** Diagnostics of [main] *)

Lemma guard_failure_logged (replace_existing : Z) (w : os) :
  let (ret, w') := assert_only_one_xdpw_instance replace_existing w in
  (ret = 0 \/ ret = -1) /\
  (ret = -1 -> exists line, logged w' = logged w ++ [line] /\ log_level line = ERROR).
Proof.
  pose proof (guard_runs replace_existing w) as Hrun.
  destruct (assert_only_one_xdpw_instance replace_existing w) as [ret w'].
  destruct Hrun as (sc & lg & _ & Hlg & Hshape & _).
  rewrite Hlg.
  shape_cases Hshape; (split; [auto|]); intros Hret; try discriminate Hret;
    eexists; split; reflexivity.
Qed.

Ltac error_logged := intros _; cbn; eexists _, _; split; reflexivity.

Lemma iteration_error_logged (state : xdpw_state) (pollfds : pollfd_array) (a : wakeup)
    (w : world) :
  let '(c, _, w') := iteration state pollfds a w in
  c = goto_error ->
  exists pre line, logged (host w') = pre ++ [line] /\ log_level line = ERROR.
Proof.
  unfold iteration, poll.
  destruct (poll_ret a <? 0) eqn:Hpoll; cbn; rewrite Hpoll; [error_logged|].
  unfold then_, on_dbus, on_wayland, on_pipewire, drain_and_flush.
  repeat match goal with
         | |- context [pollin ?p] => destruct (pollin p)
         | |- context [do_sd_bus_process ?b ?w0] =>
             let ret := fresh "ret" in
             destruct (do_sd_bus_process b w0) as [ret ?]; destruct (ret <? 0)
         | |- context [wl_display_dispatch ?d ?w0] =>
             let ret := fresh "ret" in
             destruct (wl_display_dispatch d w0) as [ret ?]; destruct (ret <? 0)
         | |- context [pw_loop_iterate ?l ?t ?w0] =>
             let ret := fresh "ret" in
             destruct (pw_loop_iterate l t w0) as [ret ?]; destruct (ret <? 0)
         | |- context [do_wl_display_dispatch_pending ?d ?w0] =>
             destruct (do_wl_display_dispatch_pending d w0)
         end;
    first [error_logged | intros Hc; discriminate Hc].
Qed.

Lemma event_loop_error_logged (state : xdpw_state) (wakeups : list wakeup) :
  forall (pollfds : pollfd_array) (w : world),
    let (exit, w') := event_loop state pollfds wakeups w in
    exit <> Some fallthrough /\
    (exit = Some goto_error ->
     exists pre line, logged (host w') = pre ++ [line] /\ log_level line = ERROR).
Proof.
  induction wakeups as [|a wakeups IH]; intros pollfds w; cbn [event_loop].
  - split; discriminate.
  - pose proof (iteration_error_logged state pollfds a w) as Hturn.
    destruct (iteration state pollfds a w) as [[[|] pollfds'] w1].
    + apply IH.
    + split; [discriminate | intros _; now apply Hturn].
Qed.

(** A run that got past the options never exits with [EXIT_SUCCESS], and
    when it exits the last line it logged is an error. *)
Lemma main_after_options `{xdpw_h} (found : list (ascii * string)) (wakeups : list wakeup)
    (w : world) (s : settings) :
  getopt_loop found (Settings None ERROR 0) = inl s ->
  let (status, w') := main found wakeups w in
  status <> Some EXIT_SUCCESS /\
  (status = Some EXIT_FAILURE ->
   exists pre line, logged (host w') = pre ++ [line] /\ log_level line = ERROR).
Proof.
  intros Hopts. unfold main. rewrite Hopts.
  pose proof (guard_failure_logged (replace_existing s) (host (init_logger (loglevel s) w)))
    as Hguard.
  destruct (assert_only_one_xdpw_instance (replace_existing s) (host (init_logger (loglevel s) w)))
    as [only h].
  destruct Hguard as [Hret Hlog].
  destruct (Z.eqb_spec only 0) as [Honly|Honly]; cbn [negb].
  2: { split; [cbv [EXIT_FAILURE EXIT_SUCCESS]; discriminate|]. intros _.
       destruct Hret as [Hret|Hret]; [contradiction|].
       destruct (Hlog Hret) as (line & Hline & Hlevel).
       cbn. eexists _, line. split; [exact Hline | exact Hlevel]. }
  unfold sd_bus_open_user, wl_display_connect, pw_loop_new, pw_init, xdpw_screencast_init,
    xdpw_screenshot_init, sd_bus_request_name, pollfds_init, sd_bus_get_fd,
    wl_display_get_fd, pw_loop_get_fd, error, sd_bus_unref, pw_loop_leave,
    pw_loop_destroy, wl_display_disconnect.
  cbn -[event_loop Z.ltb Z.eqb].
  destruct (on_sd_bus_open_user (libs w)) as [ret b].
  repeat match goal with
         | |- context [if ?c then _ else _] =>
             destruct c; cbn -[event_loop Z.ltb Z.eqb];
             [split; [cbv [EXIT_FAILURE EXIT_SUCCESS]; discriminate|];
              intros _; eexists _, _; split; reflexivity|]
         end.
  match goal with
  | |- context [event_loop ?st ?pf wakeups ?w0] =>
      pose proof (event_loop_error_logged st wakeups pf w0) as Hloop;
      destruct (event_loop st pf wakeups w0) as [exit w1]
  end.
  destruct Hloop as [Hexit Hlogged].
  destruct exit as [[|]|]; cbn.
  - now elim Hexit.
  - split; [cbv [EXIT_FAILURE EXIT_SUCCESS]; discriminate|]. intros _. now apply Hlogged.
  - split; discriminate.
Qed.


(** X14.  Every failing exit says why: either the usage text went to
    [stderr] and nothing else happened, or the last line logged is at level
    ERROR. *)
Theorem failing_exit_is_reported `{xdpw_h} (found : list (ascii * string))
    (wakeups : list wakeup) (w : world) :
  fst (main found wakeups w) = Some EXIT_FAILURE ->
  snd (main found wakeups w) = did (Xdpw_usage stderr) w \/
  exists pre line,
    logged (host (snd (main found wakeups w))) = pre ++ [line] /\ log_level line = ERROR.
Proof.
  pose proof (main_after_options found wakeups w) as Hrun.
  destruct (getopt_loop found (Settings None ERROR 0)) as [s|[|]] eqn:Hopts.
  - specialize (Hrun s eq_refl).
    destruct (main found wakeups w) as [status w']. cbn [fst snd].
    intros Hstatus. right. now apply Hrun.
  - clear Hrun. unfold main. rewrite Hopts. cbn. intros Heq. discriminate Heq.
  - clear Hrun. unfold main. rewrite Hopts. cbn. intros _. now left.
Qed.

Lemma failing_exit_is_reported_witness :
  let w := example_world [] [] [] [] in
  fst (@main example_header [] [poll_fails] w) = Some EXIT_FAILURE /\
  exists pre line,
    logged (host (snd (@main example_header [] [poll_fails] w))) = pre ++ [line] /\
    log_level line = ERROR.
Proof.
  intros w.
  assert (Hstatus : fst (@main example_header [] [poll_fails] w) = Some EXIT_FAILURE)
    by (vm_compute; reflexivity).
  split; [exact Hstatus|].
  destruct (@failing_exit_is_reported example_header [] [poll_fails] w Hstatus)
    as [Husage|Hlogged]; [|exact Hlogged].
  exfalso.
  assert (Hcalls : Datatypes.length (calls (snd (@main example_header [] [poll_fails] w)))
                   = Datatypes.length (calls (did (Xdpw_usage stderr) w)))
    by (rewrite Husage; reflexivity).
  vm_compute in Hcalls. discriminate Hcalls.
Defined.

(** ** The run of [main], stage by stage *)

(** X15.  A process that is not alone contacts nothing: when the guard
    fails, [main] exits with [EXIT_FAILURE] having initialised the logger and
    made no other library call; what it did to the system is what the guard
    did. *)
Theorem not_alone_contacts_nothing `{xdpw_h} (found : list (ascii * string))
    (wakeups : list wakeup) (w : world) (s : settings) :
  getopt_loop found (Settings None ERROR 0) = inl s ->
  fst (assert_only_one_xdpw_instance (replace_existing s) (host w)) <> 0 ->
  fst (main found wakeups w) = Some EXIT_FAILURE /\
  calls (snd (main found wakeups w)) = calls w ++ [Init_logger (loglevel s)] /\
  host (snd (main found wakeups w)) =
    snd (assert_only_one_xdpw_instance (replace_existing s) (host w)).
Proof.
  intros Hopts Hguard. unfold main. rewrite Hopts.
  change (host (init_logger (loglevel s) w)) with (host w).
  destruct (assert_only_one_xdpw_instance (replace_existing s) (host w)) as [only h].
  cbn [fst snd] in *.
  destruct (Z.eqb_spec only 0) as [|_]; [contradiction|].
  cbn. repeat split.
Qed.

Lemma not_alone_contacts_nothing_witness :
  let w := World (process (fun _ => contended)) (example_libs [] [] [] []) [] in
  let s := Settings None ERROR 0 in
  @getopt_loop example_header [] (Settings None ERROR 0) = inl s /\
  fst (assert_only_one_xdpw_instance (replace_existing s) (host w)) <> 0 /\
  calls (snd (@main example_header [] [] w)) = calls w ++ [Init_logger ERROR].
Proof.
  intros w s.
  assert (Hguard : fst (assert_only_one_xdpw_instance (replace_existing s) (host w)) <> 0)
    by (vm_compute; discriminate).
  split; [reflexivity|]. split; [exact Hguard|].
  exact (proj1 (proj2 (@not_alone_contacts_nothing example_header [] [] w s eq_refl Hguard))).
Defined.

(** X16.  Failures after the three connections.  When
    [xdpw_screencast_init] returns a negative result, [main] does not request
    the service name; when the name is refused, it does not ask for the
    descriptors.  In both cases it never polls: the calls that follow are the
    four of the [error:] path, and the status is [EXIT_FAILURE]. *)
Theorem late_failures_shut_down `{xdpw_h} (found : list (ascii * string))
    (wakeups : list wakeup) (w : world) (s : settings) (ret : Z) (b d l : handle) :
  getopt_loop found (Settings None ERROR 0) = inl s ->
  fst (assert_only_one_xdpw_instance (replace_existing s) (host w)) = 0 ->
  on_sd_bus_open_user (libs w) = (ret, b) -> 0 <= ret ->
  on_wl_display_connect (libs w) = d -> d <> NULL ->
  on_pw_loop_new (libs w) = l -> l <> NULL ->
  let state := initial_state b d l in
  let ret' := on_xdpw_screencast_init (libs w) in
  let ret'' := on_sd_bus_request_name (libs w) in
  (ret' < 0 ->
   fst (main found wakeups w) = Some EXIT_FAILURE /\
   calls (snd (main found wakeups w)) =
     calls w ++ connect_calls (loglevel s) ret b d l ++
     init_calls state (output_name s) ret' ++ shutdown_calls b state) /\
  (0 <= ret' -> ret'' < 0 ->
   fst (main found wakeups w) = Some EXIT_FAILURE /\
   calls (snd (main found wakeups w)) =
     calls w ++ connect_calls (loglevel s) ret b d l ++
     init_calls state (output_name s) ret' ++
     [Sd_bus_request_name b service_name 3 ret''] ++ shutdown_calls b state).
Proof.
  intros Hopts Hguard Hbus Hret Hd Hdn Hl Hln state ret' ret''.
  subst state ret' ret''.
  unfold main. rewrite Hopts.
  change (host (init_logger (loglevel s) w)) with (host w).
  destruct (assert_only_one_xdpw_instance (replace_existing s) (host w)) as [only h].
  cbn [fst] in Hguard. subst only. cbn [Z.eqb negb].
  unfold sd_bus_open_user, wl_display_connect, pw_loop_new, pw_init, xdpw_screencast_init,
    xdpw_screenshot_init, sd_bus_request_name, error, sd_bus_unref, pw_loop_leave,
    pw_loop_destroy, wl_display_disconnect.
  subst d l.
  cbn -[event_loop Z.ltb Z.eqb pollfds_init].
  rewrite Hbus.
  destruct (Z.ltb_spec ret 0) as [|_]; [lia|].
  cbn -[event_loop Z.ltb Z.eqb pollfds_init].
  destruct (Z.eqb_spec (on_wl_display_connect (libs w)) NULL) as [|_]; [contradiction|].
  cbn -[event_loop Z.ltb Z.eqb pollfds_init].
  destruct (Z.eqb_spec (on_pw_loop_new (libs w)) NULL) as [|_]; [contradiction|].
  cbn -[event_loop Z.ltb Z.eqb pollfds_init].
  split.
  - intros Hneg.
    destruct (Z.ltb_spec (on_xdpw_screencast_init (libs w)) 0) as [_|]; [|lia].
    cbn. split; [reflexivity|]. now rewrite <- !app_assoc.
  - intros Hok Hneg.
    destruct (Z.ltb_spec (on_xdpw_screencast_init (libs w)) 0) as [|_]; [lia|].
    destruct (Z.ltb_spec (on_sd_bus_request_name (libs w)) 0) as [_|]; [|lia].
    cbn. split; [reflexivity|]. now rewrite <- !app_assoc.
Qed.

Lemma late_failures_shut_down_witness :
  let libs := Libraries (0, 100) 200 300 0 (-17) example_fds [] [] [] [] in
  let w := World (process (fun _ => granted)) libs [] in
  let s := Settings None ERROR 0 in
  let state := @initial_state example_header 100 200 300 in
  fst (assert_only_one_xdpw_instance (replace_existing s) (host w)) = 0 /\
  0 <= on_xdpw_screencast_init libs /\ on_sd_bus_request_name libs < 0 /\
  fst (@main example_header [] [bus_ready] w) = Some EXIT_FAILURE /\
  calls (snd (@main example_header [] [bus_ready] w)) =
    calls w ++ connect_calls ERROR 0 100 200 300 ++ init_calls state None 0 ++
    [Sd_bus_request_name 100 service_name 3 (-17)] ++ shutdown_calls 100 state.
Proof.
  intros libs w s state.
  assert (Hguard : fst (assert_only_one_xdpw_instance (replace_existing s) (host w)) = 0)
    by (vm_compute; reflexivity).
  assert (Hret : 0 <= 0) by lia.
  assert (Hd : 200 <> NULL) by discriminate.
  assert (Hl : 300 <> NULL) by discriminate.
  assert (Hok : 0 <= on_xdpw_screencast_init libs) by (cbn; lia).
  assert (Hneg : on_sd_bus_request_name libs < 0) by (cbn; lia).
  split; [exact Hguard|]. split; [exact Hok|]. split; [exact Hneg|].
  exact (proj2 (@late_failures_shut_down example_header [] [bus_ready] w s 0 100 200 300
                  eq_refl Hguard eq_refl Hret eq_refl Hd eq_refl Hl) Hok Hneg).
Defined.

Lemma loop_calls_owe_nothing (state : xdpw_state) (tr : list call) :
  loop_calls state tr ->
  filter is_release tr = [] /\ owed tr = [] /\ filter is_request_name tr = [].
Proof.
  unfold loop_calls, owed.
  induction tr as [|c tr IH]; cbn [forallb flat_map filter]; [repeat split|].
  intros Hl. apply andb_true_iff in Hl. destruct Hl as [Hc Hl].
  destruct (IH Hl) as (IH1 & IH2 & IH3). rewrite IH1, IH2, IH3.
  destruct c; cbn in Hc |- *; try discriminate; repeat split.
Qed.

Ltac run_tests :=
  repeat match goal with
         | Hx : 0 <= _ |- _ => apply Z.ltb_ge in Hx
         | Hx : _ < 0 |- _ => apply Z.ltb_lt in Hx
         | Hx : _ <> NULL |- _ => apply Z.eqb_neq in Hx
         end.

Ltac loop_part :=
  try rewrite (app_assoc _ [_] (shutdown_calls _ _));
  match goal with
  | Hx : loop_calls _ ?lp |- _ =>
      let H1 := fresh in
      let H2 := fresh in
      let H3 := fresh in
      destruct (loop_calls_owe_nothing _ _ Hx) as (H1 & H2 & H3);
      generalize dependent lp; intros
  | _ => idtac
  end.

(** X17.  Handles obtained and released.  A run of [main] that exits has
    released each handle it obtained exactly once, and nothing else: the bus
    by [sd_bus_unref], the display by [wl_display_disconnect], the streaming
    loop by [pw_loop_leave] and [pw_loop_destroy].  A run that stays in the
    loop has released nothing. *)
Theorem handles_released_on_exit `{xdpw_h} (found : list (ascii * string))
    (wakeups : list wakeup) (w : world) :
  let (status, w') := main found wakeups w in
  exists tr,
    calls w' = calls w ++ tr /\
    match status with
    | Some _ => Permutation (filter is_release tr) (owed tr)
    | None => filter is_release tr = []
    end.
Proof.
  pose proof (main_runs found wakeups w) as Hrun.
  destruct (main found wakeups w) as [status w'].
  destruct Hrun as (tr & Htr & Hshape).
  exists tr. split; [exact Htr|].
  destruct Hshape; try subst state; run_tests; loop_part; unfold owed in *;
    rewrite ?filter_app, ?flat_map_app;
    cbn [connect_calls init_calls serve_calls shutdown_calls initial_state
         bus wl_display pw_loop filter flat_map owes is_release app];
    repeat match goal with
           | Hx : _ = false |- _ => rewrite Hx
           | Hx : _ = true |- _ => rewrite Hx
           | Hx : _ = [] |- _ => rewrite Hx
           | Hx : flat_map owes _ = [] |- _ => rewrite Hx
           end;
    cbn [app Z.eqb NULL];
    try reflexivity;
    repeat apply perm_skip;
    try apply Permutation_refl;
    try apply perm_swap;
    (eapply perm_trans; [apply perm_skip, perm_swap | apply perm_swap]).
Qed.

(** X18.  The service name.  In a run of [main] the well-known name is
    requested at most once: right after [xdpw_screencast_init] returned a
    result that is not negative, on the bus of the state, with the flags
    [SD_BUS_NAME_REPLACE_EXISTING | SD_BUS_NAME_ALLOW_REPLACEMENT] (3).  When
    the request is refused the run exits with [EXIT_FAILURE] through the
    [error:] path. *)
Theorem service_name_requested_once `{xdpw_h} (found : list (ascii * string))
    (wakeups : list wakeup) (w : world) :
  let (status, w') := main found wakeups w in
  exists tr,
    calls w' = calls w ++ tr /\
    (filter is_request_name tr = [] \/
     exists pre state name ret' ret'' post,
       tr = pre ++ [Xdpw_screencast_init state name ret';
                    Sd_bus_request_name (bus state) service_name 3 ret''] ++ post /\
       0 <= ret' /\
       filter is_request_name pre = [] /\
       filter is_request_name post = [] /\
       (ret'' < 0 ->
        status = Some EXIT_FAILURE /\ post = shutdown_calls (bus state) state)).
Proof.
  pose proof (main_runs found wakeups w) as Hrun.
  destruct (main found wakeups w) as [status w'].
  destruct Hrun as (tr & Htr & Hshape).
  exists tr. split; [exact Htr|].
  destruct Hshape; try (left; reflexivity); right.
  - exists (connect_calls level ret b d l ++ [Xdpw_screenshot_init state]), state, name,
      ret', ret'', (shutdown_calls b state).
    split; [now rewrite <- !app_assoc|]. repeat split; assumption.
  - loop_part.
    exists (connect_calls level ret b d l ++ [Xdpw_screenshot_init state]), state, name,
      ret', ret''.
    eexists. split; [rewrite <- !app_assoc; cbn [app]; reflexivity|].
    split; [assumption|]. split; [reflexivity|].
    split; [|intros; lia].
    cbn [filter is_request_name]. rewrite !filter_app. cbn [filter is_request_name app].
    match goal with Hx : filter is_request_name _ = [] |- _ => now rewrite Hx end.
  - loop_part.
    exists (connect_calls level ret b d l ++ [Xdpw_screenshot_init state]), state, name,
      ret', ret''.
    eexists. split; [rewrite <- !app_assoc; cbn [app]; reflexivity|].
    split; [assumption|]. split; [reflexivity|].
    split; [|intros; lia].
    cbn [filter is_request_name].
    match goal with Hx : filter is_request_name _ = [] |- _ => exact Hx end.
Qed.

(** ** The order of a turn *)

(** X19.  What [poll] left in [revents] in an earlier turn has no influence:
    a turn does the same calls, ends the same way and leaves the same world
    whatever the array held before.  A successful [poll] overwrites the three
    [revents]; a failed one leaves the array alone; [fd] and [events] are
    never changed. *)
Theorem stale_readiness_is_not_used (state : xdpw_state) (pollfds other : pollfd_array)
    (a : wakeup) (w : world) :
  let pollfds' := snd (fst (iteration state pollfds a w)) in
  fst (fst (iteration state other a w)) = fst (fst (iteration state pollfds a w)) /\
  snd (iteration state other a w) = snd (iteration state pollfds a w) /\
  (forall i, fd (pollfds' i) = fd (pollfds i) /\ events (pollfds' i) = events (pollfds i)) /\
  (forall i, revents (pollfds' i) = if poll_ret a <? 0 then revents (pollfds i) else ready a i).
Proof.
  unfold iteration, poll.
  destruct (poll_ret a <? 0) eqn:Hpoll; cbn; rewrite Hpoll; [repeat split|].
  unfold then_, on_dbus, on_wayland, on_pipewire, pollin. cbn [revents].
  match goal with
  | |- fst (fst (match ?run with pair _ _ => _ end)) = _ /\ _ => destruct run as [c w']
  end.
  repeat split.
Qed.

Lemma bus_calls_are_bus (b : handle) (l : list Z) :
  forallb is_sd_bus_process (map (Sd_bus_process b) l) = true.
Proof. induction l as [|ret l IH]; cbn; [reflexivity | exact IH]. Qed.

Lemma drain_calls_closing (d : handle) (l : list Z) :
  forallb is_closing (drain_calls d l) = true.
Proof. induction l as [|ret l IH]; cbn; [reflexivity | exact IH]. Qed.

Lemma closing_calls_closing (state : xdpw_state) (e : libraries) :
  forallb is_closing (closing_calls state e) = true.
Proof.
  unfold closing_calls. rewrite forallb_app, drain_calls_closing. reflexivity.
Qed.

Ltac turn_side :=
  repeat match goal with
         | |- _ /\ _ => split
         | |- _ <-> _ => split
         | |- forallb is_sd_bus_process (map _ _) = true => apply bus_calls_are_bus
         | |- forallb is_closing (closing_calls _ _) = true => apply closing_calls_closing
         | |- forallb _ [] = true => reflexivity
         | |- _ ++ _ = _ ++ _ => reflexivity
         | |- [] = [] \/ _ => left; reflexivity
         | |- [_] = [] \/ _ => right; eexists; reflexivity
         | |- _ -> _ => intro
         | H : goto_error = fallthrough |- _ => discriminate H
         | H : false = true |- _ => discriminate H
         | H : [] <> [] |- _ => now elim H
         | |- true = true => reflexivity
         | |- _ :: _ <> [] => discriminate
         | H : _ :: _ = [] |- _ => discriminate H
         end.

(** X20.  The order of a turn.  After [poll] the calls of a turn come in
    four groups, in this order: [sd_bus_process] calls; at most one
    [wl_display_dispatch]; at most one [pw_loop_iterate] (timeout 0); the
    drain and the flushes.  Unlike the bus, the display and the stream are
    dispatched once per turn however much work they have.  In a turn that
    completes, a source is dispatched exactly when [poll] reported it. *)
Theorem sources_in_fixed_order (state : xdpw_state) (pollfds : pollfd_array) (a : wakeup)
    (w : world) :
  let '(c, _, w') := iteration state pollfds a w in
  exists from_bus from_display from_stream closing,
    calls w' = calls w ++ poll_call a :: from_bus ++ from_display ++ from_stream ++ closing /\
    forallb is_sd_bus_process from_bus = true /\
    (from_display = [] \/
     exists ret, from_display = [Wl_display_dispatch (wl_display state) ret]) /\
    (from_stream = [] \/
     exists ret, from_stream = [Pw_loop_iterate (pw_loop state) 0 ret]) /\
    forallb is_closing closing = true /\
    (c = fallthrough ->
     (from_bus <> [] <-> reported a EVENT_LOOP_DBUS = true) /\
     (from_display <> [] <-> reported a EVENT_LOOP_WAYLAND = true) /\
     (from_stream <> [] <-> reported a EVENT_LOOP_PIPEWIRE = true) /\
     closing <> []).
Proof.
  pose proof (iteration_spec state pollfds a w) as Hturn.
  destruct (iteration state pollfds a w) as [[c pollfds'] w'].
  destruct Hturn as [Hcalls Hc]. rewrite Hcalls, Hc. clear Hcalls Hc.
  unfold turn_calls, turn_fatal.
  destruct (poll_ret a <? 0) eqn:Hpoll; cbn [orb].
  { exists [], [], [], []. turn_side. }
  destruct (dbus_fatal a (libs w)) eqn:Hdb; cbn [orb].
  { exists (dbus_calls state a (libs w)), [], [], [].
    rewrite !app_nil_r. split; [reflexivity|].
    unfold dbus_calls. destruct (reported a EVENT_LOOP_DBUS); turn_side. }
  destruct (wayland_fatal a (libs w)) eqn:Hwl; cbn [orb].
  { exists (dbus_calls state a (libs w)), (wayland_calls state a (libs w)), [], [].
    rewrite !app_nil_r. split; [reflexivity|].
    unfold dbus_calls, wayland_calls.
    destruct (reported a EVENT_LOOP_DBUS); destruct (reported a EVENT_LOOP_WAYLAND);
      turn_side. }
  destruct (pipewire_fatal a (libs w)) eqn:Hpw.
  { exists (dbus_calls state a (libs w)), (wayland_calls state a (libs w)),
      (pipewire_calls state a (libs w)), [].
    split; [reflexivity|].
    unfold dbus_calls, wayland_calls, pipewire_calls.
    destruct (reported a EVENT_LOOP_DBUS); destruct (reported a EVENT_LOOP_WAYLAND);
      destruct (reported a EVENT_LOOP_PIPEWIRE); turn_side. }
  exists (dbus_calls state a (libs w)), (wayland_calls state a (libs w)),
    (pipewire_calls state a (libs w)), (closing_calls state (libs w)).
  split; [reflexivity|].
  assert (Hlast : closing_calls state (libs w) <> []).
  { unfold closing_calls. intros Heq. apply app_eq_nil in Heq. destruct Heq as [_ Heq].
    discriminate Heq. }
  assert (Hbus : loop_results (bus_work (libs w)) <> []).
  { unfold loop_results. intros Heq. apply app_eq_nil in Heq. destruct Heq as [_ Heq].
    discriminate Heq. }
  unfold dbus_calls, wayland_calls, pipewire_calls.
  destruct (reported a EVENT_LOOP_DBUS); destruct (reported a EVENT_LOOP_WAYLAND);
    destruct (reported a EVENT_LOOP_PIPEWIRE); turn_side; try assumption.
  all: intros Hx; apply map_eq_nil in Hx; contradiction.
Qed.

Lemma filter_dbus_calls (p : call -> bool) (state : xdpw_state) (a : wakeup) (e : libraries) :
  (forall ret, p (Sd_bus_process (bus state) ret) = false) ->
  filter p (dbus_calls state a e) = [].
Proof.
  intros Hp. unfold dbus_calls.
  destruct (reported a EVENT_LOOP_DBUS); [now apply filter_bus_calls | reflexivity].
Qed.

(** X21.  A fatal source ends the turn on the spot.  In a turn that goes to
    [error] the fatal call is the last call: the display queue is not
    drained and nothing is flushed.  Sources that come later in the order are
    not dispatched even when [poll] reported them: none after a failed
    [poll], neither display nor stream after a bus failure, no stream after a
    display failure. *)
Theorem fatal_source_ends_the_turn (state : xdpw_state) (pollfds : pollfd_array)
    (a : wakeup) (w : world) :
  fst (fst (iteration state pollfds a w)) = goto_error ->
  exists before c,
    calls (snd (iteration state pollfds a w)) = calls w ++ before ++ [c] /\
    fatal c = true /\
    no_fatal before /\
    filter is_closing (before ++ [c]) = [] /\
    (is_poll c = true -> before = []) /\
    (is_sd_bus_process c = true ->
     filter is_wl_display_dispatch before = [] /\ filter is_pw_loop_iterate before = []) /\
    (is_wl_display_dispatch c = true -> filter is_pw_loop_iterate before = []).
Proof.
  pose proof (iteration_spec state pollfds a w) as Hturn.
  destruct (iteration state pollfds a w) as [[c pollfds'] w'].
  destruct Hturn as [Hcalls Hc]. cbn [fst snd]. intros ->. rewrite Hcalls. clear Hcalls.
  unfold turn_calls, turn_fatal in *.
  destruct (poll_ret a <? 0) eqn:Hpoll; cbn [orb] in Hc.
  { exists [], (poll_call a). cbn. rewrite Hpoll. repeat split; discriminate. }
  assert (Hfirst : no_fatal [poll_call a]) by (unfold no_fatal; cbn; now rewrite Hpoll).
  pose proof (dbus_stretch state a (libs w)) as [_ Hbus].
  destruct (dbus_fatal a (libs w)) eqn:Hdb; cbn [orb] in Hc.
  { unfold dbus_fatal in Hdb. apply andb_true_iff in Hdb. destruct Hdb as [Hready Hstop].
    unfold dbus_calls, loop_results. rewrite Hready, app_nil_r, map_app. cbn [map].
    exists (poll_call a :: map (Sd_bus_process (bus state)) (positive_run (bus_work (libs w)))),
      (Sd_bus_process (bus state) (stopper (bus_work (libs w)))).
    split; [reflexivity|]. split; [exact Hstop|].
    split; [apply (proj2 (no_fatal_app [_] _)); split;
            [exact Hfirst | apply bus_calls_positive]|].
    cbn [app filter is_closing is_wl_display_dispatch is_pw_loop_iterate poll_call
         is_poll is_sd_bus_process].
    rewrite filter_app, !filter_bus_calls by reflexivity.
    repeat split; discriminate. }
  pose proof (wayland_stretch state a (libs w)) as [_ Hdisplay].
  destruct (wayland_fatal a (libs w)) eqn:Hwl; cbn [orb] in Hc.
  { unfold wayland_fatal in Hwl. apply andb_true_iff in Hwl. destruct Hwl as [Hready Hret].
    unfold wayland_calls. rewrite Hready, app_nil_r.
    exists (poll_call a :: dbus_calls state a (libs w)),
      (Wl_display_dispatch (wl_display state) (hd 0 (display_work (libs w)))).
    split; [reflexivity|]. split; [exact Hret|].
    split; [apply (proj2 (no_fatal_app [_] _)); split; [exact Hfirst | exact Hbus]|].
    cbn [app filter is_closing is_wl_display_dispatch is_pw_loop_iterate poll_call
         is_poll is_sd_bus_process].
    rewrite filter_app, !filter_dbus_calls by reflexivity.
    repeat split; discriminate. }
  destruct (pipewire_fatal a (libs w)) eqn:Hpw; [|discriminate Hc].
  unfold pipewire_fatal in Hpw. apply andb_true_iff in Hpw. destruct Hpw as [Hready Hret].
  unfold pipewire_calls. rewrite Hready, app_nil_r.
  exists (poll_call a :: dbus_calls state a (libs w) ++ wayland_calls state a (libs w)),
    (Pw_loop_iterate (pw_loop state) 0 (hd 0 (stream_work (libs w)))).
  split; [cbn [app]; now rewrite <- !app_assoc|]. split; [exact Hret|].
  split; [apply (proj2 (no_fatal_app [_] _)); split; [exact Hfirst|];
          apply no_fatal_app; split; [exact Hbus | exact Hdisplay]|].
  cbn [app filter is_closing is_wl_display_dispatch is_pw_loop_iterate poll_call
       is_poll is_sd_bus_process].
  rewrite !filter_app, !filter_dbus_calls by reflexivity.
  unfold wayland_calls. destruct (reported a EVENT_LOOP_WAYLAND);
    repeat split; discriminate.
Qed.

Lemma fatal_source_ends_the_turn_witness :
  let all_ready := Wakeup 3 0 (fun _ => POLLIN) in
  let w := example_world [1; -5] [1] [1] [] in
  fst (fst (iteration example_state example_pollfds all_ready w)) = goto_error /\
  exists before c,
    calls (snd (iteration example_state example_pollfds all_ready w)) =
      calls w ++ before ++ [c] /\
    fatal c = true /\
    filter is_closing (before ++ [c]) = [].
Proof.
  intros all_ready w.
  assert (Hc : fst (fst (iteration example_state example_pollfds all_ready w)) = goto_error)
    by reflexivity.
  split; [exact Hc|].
  destruct (fatal_source_ends_the_turn example_state example_pollfds all_ready w Hc)
    as (before & c & Hcalls & Hfatal & _ & Hclosing & _).
  exists before, c. split; [exact Hcalls|]. split; [exact Hfatal | exact Hclosing].
Defined.

(** ** The lock file after the guard *)

Lemma iteration_files (state : xdpw_state) (pollfds : pollfd_array) (a : wakeup) (w : world) :
  let '(_, _, w') := iteration state pollfds a w in
  syscalls (host w') = syscalls (host w) /\ pidfile (host w') = pidfile (host w).
Proof.
  unfold iteration, poll.
  destruct (poll_ret a <? 0) eqn:Hpoll; cbn; rewrite Hpoll; [split; reflexivity|].
  unfold then_, on_dbus, on_wayland, on_pipewire, drain_and_flush, do_sd_bus_process,
    do_wl_display_dispatch_pending, wl_display_dispatch, pw_loop_iterate.
  repeat match goal with
         | |- context [pollin ?p] => destruct (pollin p)
         | |- context [sd_bus_process_while ?b ?l ?w0] =>
             rewrite (sd_bus_process_while_spec b l w0)
         | |- context [wl_display_dispatch_pending_while ?d ?l ?w0] =>
             rewrite (wl_display_dispatch_pending_while_spec d l w0)
         | |- context [match ?l with [] => _ | _ :: _ => _ end] => destruct l
         | |- context [if ?c then _ else _] => destruct c
         end;
    cbn; split; reflexivity.
Qed.

Lemma event_loop_files (state : xdpw_state) (wakeups : list wakeup) :
  forall (pollfds : pollfd_array) (w : world),
    let (exit, w') := event_loop state pollfds wakeups w in
    syscalls (host w') = syscalls (host w) /\ pidfile (host w') = pidfile (host w).
Proof.
  induction wakeups as [|a wakeups IH]; intros pollfds w; cbn [event_loop].
  - split; reflexivity.
  - pose proof (iteration_files state pollfds a w) as Hturn.
    destruct (iteration state pollfds a w) as [[[|] pollfds'] w1]; [|exact Hturn].
    specialize (IH pollfds' w1).
    destruct (event_loop state pollfds' wakeups w1) as [exit w2].
    destruct Hturn as [Hs1 Hp1]. destruct IH as [Hs2 Hp2].
    split; [now rewrite Hs2 | now rewrite Hp2].
Qed.

(** X22.  The lock file is left to the guard.  Once the option loop has run
    to its end, the calls of [open], [flock], [read], [kill], [sleep],
    [close], [ftruncate], [write] and [fsync] of the whole run are those of
    the guard, and the lock file holds what the guard left in it: on no path,
    [error:] included, does [main] close or unlock the descriptor or touch
    the file again. *)
Theorem lock_file_left_to_the_guard `{xdpw_h} (found : list (ascii * string))
    (wakeups : list wakeup) (w : world) (s : settings) :
  getopt_loop found (Settings None ERROR 0) = inl s ->
  let after_guard := snd (assert_only_one_xdpw_instance (replace_existing s) (host w)) in
  syscalls (host (snd (main found wakeups w))) = syscalls after_guard /\
  pidfile (host (snd (main found wakeups w))) = pidfile after_guard.
Proof.
  intros Hopts. unfold main. rewrite Hopts.
  change (host (init_logger (loglevel s) w)) with (host w).
  destruct (assert_only_one_xdpw_instance (replace_existing s) (host w)) as [only h].
  cbn [snd]. cbv zeta.
  destruct (only =? 0); cbn [negb]; [|split; reflexivity].
  unfold sd_bus_open_user, wl_display_connect, pw_loop_new, pw_init, xdpw_screencast_init,
    xdpw_screenshot_init, sd_bus_request_name, pollfds_init, sd_bus_get_fd,
    wl_display_get_fd, pw_loop_get_fd, error, sd_bus_unref, pw_loop_leave,
    pw_loop_destroy, wl_display_disconnect.
  cbn -[event_loop Z.ltb Z.eqb].
  destruct (on_sd_bus_open_user (libs w)) as [ret b].
  repeat match goal with
         | |- context [if ?c then _ else _] =>
             destruct c; cbn -[event_loop Z.ltb Z.eqb]; [split; reflexivity|]
         end.
  match goal with
  | |- context [event_loop ?st ?pf wakeups ?w0] =>
      pose proof (event_loop_files st wakeups pf w0) as Hloop;
      destruct (event_loop st pf wakeups w0) as [exit w1]
  end.
  destruct exit as [[|]|]; cbn in Hloop |- *; exact Hloop.
Qed.

Lemma lock_file_left_to_the_guard_witness :
  let w := example_world [] [] [] [] in
  let s := Settings None ERROR 0 in
  @getopt_loop example_header [] (Settings None ERROR 0) = inl s /\
  pidfile (host (snd (@main example_header [] [bus_ready; poll_fails] w))) =
    pidfile (snd (assert_only_one_xdpw_instance 0 (host w))).
Proof.
  intros w s.
  assert (Hopts : @getopt_loop example_header [] (Settings None ERROR 0) = inl s)
    by reflexivity.
  split; [exact Hopts|].
  exact (proj2 (@lock_file_left_to_the_guard example_header [] [bus_ready; poll_fails] w s
                  Hopts)).
Defined.

(** ** The replace flag *)

(** X23.  The replace flag matters only under contention: unless the first
    [flock] fails with [EWOULDBLOCK], the guard does the same with the flag
    as without it.  In particular [--replace] on a free lock sends no
    signal. *)
Theorem replace_flag_needs_contention (replace_existing : Z) (w : os) :
  on_flock (kernel w (opened w)) <> fails EWOULDBLOCK ->
  assert_only_one_xdpw_instance replace_existing w = assert_only_one_xdpw_instance 0 w.
Proof.
  intros Hfree.
  rewrite (assert_only_one_xdpw_instance_equation_1 replace_existing w),
    (assert_only_one_xdpw_instance_equation_1 0 w).
  guard_cases; absurd_branch; try reflexivity.
  match goal with
  | He : (?e =? EWOULDBLOCK) = true |- _ => apply Z.eqb_eq in He; subst e
  end.
  now elim Hfree.
Qed.

Lemma replace_flag_needs_contention_witness :
  let w := process (fun _ => granted) in
  on_flock (kernel w (opened w)) <> fails EWOULDBLOCK /\
  assert_only_one_xdpw_instance 1 w = assert_only_one_xdpw_instance 0 w.
Proof.
  intros w.
  assert (Hfree : on_flock (kernel w (opened w)) <> fails EWOULDBLOCK)
    by (vm_compute; discriminate).
  split; [exact Hfree|].
  exact (replace_flag_needs_contention 1 w Hfree).
Defined.
